(** * Vectorised environment executor and Atari wrappers

    A shallow embedding of [baseline-a2c/wrappers.py]: the gym wrappers
    ([EpisodicLifeEnv], [MaxAndSkipEnv], [FrameSkipping]) as state-passing
    functions over an abstract inner environment, and the subprocess
    executor ([worker], [SubprocVecEnv]) as a small-step system of one
    coordinator and N worker processes that talk over FIFO pipes. *)

From Stdlib Require Import ZArith String Lia.
From stdpp Require Import base option list strings gmap.

Set Default Proof Using "Type".

(** ** Python values shared by the whole file *)

(** The exceptions the modelled code can raise. *)
Inductive exn : Type :=
  | ValueError
  | KeyError
  | IndexError
  | UnboundLocalError
  | NotImplementedError
  | OSError.

(** The outcome of a call that either returns or raises. *)
Inductive result (A : Type) : Type :=
  | Ok (a : A)
  | Raise (e : exn).
Arguments Ok {A} a.
Arguments Raise {A} e.

(** Rewards are Python numbers; the code only ever adds them, starting
    from [0.0].  The order of the additions is kept as the code has it, so
    no law of arithmetic is assumed of [radd]. *)
Class RewardOps (R : Type) : Type := {
  rzero : R;
  radd : R -> R -> R
}.

#[export] Instance Z_reward : RewardOps Z := {| rzero := 0%Z; radd := Z.add |}.

(** [range(a, b)] over Python integers. *)
Definition py_range (a b : Z) : list Z :=
  map (fun k => (a + Z.of_nat k)%Z) (seq 0 (Z.to_nat (b - a))).

(** [l[i]] on a Python list: negative indices count from the end, an index
    out of range raises [IndexError]. *)
Definition py_getitem {A : Type} (l : list A) (i : Z) : result A :=
  let j := if (i <? 0)%Z then (Z.of_nat (length l) + i)%Z else i in
  if (j <? 0)%Z then Raise IndexError
  else match l !! Z.to_nat j with
       | Some x => Ok x
       | None => Raise IndexError
       end.

(** [collections.deque(maxlen=m).append(x)]: the oldest entries fall out. *)
Definition deque_append {A : Type} (maxlen : nat) (buf : list A) (x : A) : list A :=
  drop (length (buf ++ [x]) - maxlen) (buf ++ [x]).

(** ** The part of numpy the code uses *)

Module np.

(** An n-dimensional array, as nested sequences: a scalar, or the
    sub-arrays along the leading axis. *)
#[local] Unset Elimination Schemes.
Inductive ndarray (A : Type) : Type :=
  | Scalar (x : A)
  | Array (xs : list (ndarray A)).
#[local] Set Elimination Schemes.
Arguments Scalar {A} x.
Arguments Array {A} xs.

(** [a.shape] *)
Fixpoint shape {A : Type} (a : ndarray A) : list nat :=
  match a with
  | Scalar _ => []
  | Array xs => length xs :: match xs with [] => [] | x :: _ => shape x end
  end.

(** [np.stack(xs)] (axis 0): a new leading axis of length [len(xs)].
    [None] stands for the [ValueError] numpy raises on an empty list and
    on arrays of different shapes. *)
Definition stack {A : Type} (xs : list (ndarray A)) : option (ndarray A) :=
  match xs with
  | [] => None
  | x :: rest =>
      if forallb (fun y => bool_decide (shape y = shape x)) rest
      then Some (Array xs)
      else None
  end.

(** [a[k]]: the k-th sub-array along the leading axis. *)
Definition item {A : Type} (a : ndarray A) (k : nat) : option (ndarray A) :=
  match a with
  | Scalar _ => None
  | Array xs => xs !! k
  end.

(** Element-wise maximum of two arrays of the same shape. *)
Fixpoint maximum (a b : ndarray Z) : ndarray Z :=
  match a, b with
  | Scalar x, Scalar y => Scalar (Z.max x y)
  | Array xs, Array ys => Array (zip_with maximum xs ys)
  | _, _ => a
  end.

(** [np.max(a, axis=0)]: the element-wise maximum of the sub-arrays.
    [None] stands for the error numpy raises on a 0-dimensional or empty
    array. *)
Definition max_axis0 (a : ndarray Z) : option (ndarray Z) :=
  match a with
  | Scalar _ => None
  | Array [] => None
  | Array (r :: rs) => Some (foldl maximum r rs)
  end.

End np.

(** A frame as the environment produces it. *)
Abbreviation Obs := (np.ndarray Z).

(** ** The environment interface (gym.Env) *)

Section Environment.
Context {Act R Info Space : Type}.

(** What the code needs of an environment with state [St]: [step] and
    [reset] return their value together with the state they leave;
    [env_lives] is [env.unwrapped.ale.lives()], [env_n] is
    [env.action_space.n], [env_metadata] is [env.unwrapped.metadata]. *)
Record Env (St : Type) : Type := {
  env_step : St -> Act -> (Obs * R * bool * Info) * St;
  env_reset : St -> Obs * St;
  env_lives : St -> Z;
  env_n : St -> Z;
  env_action_space : St -> Space;
  env_observation_space : St -> Space;
  env_metadata : St -> gmap string R
}.

(** Calls made on the inner environment, for statements about which
    operation a wrapper invokes. *)
Inductive Call : Type :=
  | CStep (a : Act)
  | CReset.

(** The same environment, keeping a log of the calls made on it. *)
Definition traced {St : Type} (E : Env St) : Env (St * list Call) := {|
  env_step := fun sl a =>
    let '(r, s') := env_step St E sl.1 a in (r, (s', sl.2 ++ [CStep a]));
  env_reset := fun sl =>
    let '(o, s') := env_reset St E sl.1 in (o, (s', sl.2 ++ [CReset]));
  env_lives := fun sl => env_lives St E sl.1;
  env_n := fun sl => env_n St E sl.1;
  env_action_space := fun sl => env_action_space St E sl.1;
  env_observation_space := fun sl => env_observation_space St E sl.1;
  env_metadata := fun sl => env_metadata St E sl.1
|}.

(** [k] successive steps with the same action and no early exit: the
    results in order, each with the state it leaves. *)
Fixpoint run_steps {St : Type} (E : Env St) (k : nat) (env : St) (a : Act)
  : list ((Obs * R * bool * Info) * St) :=
  match k with
  | O => []
  | S k' =>
      let '(r, env') := env_step St E env a in
      (r, env') :: run_steps E k' env' a
  end.

End Environment.

Arguments Env : clear implicits.
Arguments Call : clear implicits.
Arguments env_step {Act R Info Space St} _ _ _.
Arguments env_reset {Act R Info Space St} _ _.
Arguments env_lives {Act R Info Space St} _ _.
Arguments env_n {Act R Info Space St} _ _.
Arguments env_action_space {Act R Info Space St} _ _.
Arguments env_observation_space {Act R Info Space St} _ _.
Arguments env_metadata {Act R Info Space St} _ _.

(** Projections of a step result [(obs, reward, done, info)]. *)
Definition sr_obs {R Info : Type} (r : Obs * R * bool * Info) : Obs := r.1.1.1.
Definition sr_reward {R Info : Type} (r : Obs * R * bool * Info) : R := r.1.1.2.
Definition sr_done {R Info : Type} (r : Obs * R * bool * Info) : bool := r.1.2.
Definition sr_info {R Info : Type} (r : Obs * R * bool * Info) : Info := r.2.

(** ** The wrappers *)

Section Wrappers.
Context {R Info Space : Type} `{!RewardOps R} {St : Type}.
Variable E : Env Z R Info Space St.

(** *** EpisodicLifeEnv *)

Record EpisodicLifeEnv : Type := {
  el_env : St;
  lives : Z;
  was_real_done : bool
}.

(** [EpisodicLifeEnv.__init__] *)
Definition EpisodicLifeEnv_init (env : St) : EpisodicLifeEnv :=
  {| el_env := env; lives := 0; was_real_done := true |}.

(** [EpisodicLifeEnv._step] *)
Definition EpisodicLifeEnv_step (w : EpisodicLifeEnv) (action : Z)
  : (Obs * R * bool * Info) * EpisodicLifeEnv :=
  let '((obs, reward, done, info), env') := env_step E (el_env w) action in
  let lives' := env_lives E env' in
  let done' := if (lives' <? lives w)%Z && (0 <? lives')%Z then true else done in
  ((obs, reward, done', info),
   {| el_env := env'; lives := lives'; was_real_done := done |}).

(** [EpisodicLifeEnv._reset] *)
Definition EpisodicLifeEnv_reset (w : EpisodicLifeEnv) : Obs * EpisodicLifeEnv :=
  let '(obs, env') :=
    if was_real_done w then env_reset E (el_env w)
    else let '((obs, _, _, _), env') := env_step E (el_env w) 0%Z in (obs, env') in
  (obs, {| el_env := env'; lives := env_lives E env';
           was_real_done := was_real_done w |}).

(** *** MaxAndSkipEnv *)

Record MaxAndSkipEnv : Type := {
  ms_env : St;
  _obs_buffer : list Obs;
  _skip : Z
}.

(** [MaxAndSkipEnv.__init__]: an empty [deque(maxlen=2)]. *)
Definition MaxAndSkipEnv_init (env : St) (skip : Z) : MaxAndSkipEnv :=
  {| ms_env := env; _obs_buffer := []; _skip := skip |}.

(** The [for _ in range(self._skip)] loop of [MaxAndSkipEnv._step], with
    [n] iterations left.  [last] holds the locals [done] and [info]; it is
    [None] as long as the body has not run. *)
Fixpoint MaxAndSkipEnv_loop (n : nat) (action : Z) (env : St) (buf : list Obs)
    (total_reward : R) (last : option (bool * Info))
  : St * list Obs * R * option (bool * Info) :=
  match n with
  | O => (env, buf, total_reward, last)
  | S n' =>
      let '((obs, reward, done, info), env') := env_step E env action in
      let buf' := deque_append 2 buf obs in
      let total_reward' := radd total_reward reward in
      if done then (env', buf', total_reward', Some (done, info))
      else MaxAndSkipEnv_loop n' action env' buf' total_reward' (Some (done, info))
  end.

(** [np.max(np.stack(self._obs_buffer), axis=0)] *)
Definition max_frame (buf : list Obs) : option Obs :=
  np.stack buf ≫= np.max_axis0.

(** [MaxAndSkipEnv._step].  The wrapper's state is returned also when the
    call raises: the inner steps have happened by then. *)
Definition MaxAndSkipEnv_step (w : MaxAndSkipEnv) (action : Z)
  : result (Obs * R * bool * Info) * MaxAndSkipEnv :=
  let '(env', buf', total_reward, last) :=
    MaxAndSkipEnv_loop (Z.to_nat (_skip w)) action (ms_env w) (_obs_buffer w)
      rzero None in
  let w' := {| ms_env := env'; _obs_buffer := buf'; _skip := _skip w |} in
  match max_frame buf' with
  | None => (Raise ValueError, w')
  | Some frame =>
      match last with
      | None => (Raise UnboundLocalError, w')
      | Some (done, info) => (Ok (frame, total_reward, done, info), w')
      end
  end.

(** [MaxAndSkipEnv._reset] *)
Definition MaxAndSkipEnv_reset (w : MaxAndSkipEnv) : Obs * MaxAndSkipEnv :=
  let '(obs, env') := env_reset E (ms_env w) in
  (obs, {| ms_env := env'; _obs_buffer := deque_append 2 [] obs; _skip := _skip w |}).

(** *** FrameSkipping *)

Record FrameSkipping : Type := {
  fs_env : St;
  n_real_acts : Z;
  n_aux_acts : Z;
  skip : list Z;
  repeat_act : Z
}.

(** [FrameSkipping.__init__] *)
Definition FrameSkipping_init (env : St) (n_aux : Z) (repeat : Z) : FrameSkipping :=
  {| fs_env := env;
     n_real_acts := env_n E env;
     n_aux_acts := n_aux;
     skip := map (fun i => 2 ^ i)%Z (py_range 1 n_aux);
     repeat_act := repeat |}.

(** The [for _ in range(n_repeat)] loop of [FrameSkipping._step].  [last]
    holds the locals [obs], [done] and [info]. *)
Fixpoint FrameSkipping_loop (n : nat) (action : Z) (env : St)
    (total_reward : R) (last : option (Obs * bool * Info))
  : St * R * option (Obs * bool * Info) :=
  match n with
  | O => (env, total_reward, last)
  | S n' =>
      let '((obs, reward, done, info), env') := env_step E env action in
      let total_reward' := radd total_reward reward in
      if done then (env', total_reward', Some (obs, done, info))
      else FrameSkipping_loop n' action env' total_reward' (Some (obs, done, info))
  end.

(** The wrapper with its inner environment in the state [env]. *)
Definition with_env (w : FrameSkipping) (env : St) : FrameSkipping :=
  {| fs_env := env; n_real_acts := n_real_acts w; n_aux_acts := n_aux_acts w;
     skip := skip w; repeat_act := repeat_act w |}.

(** [FrameSkipping._step] *)
Definition FrameSkipping_step (w : FrameSkipping) (action : Z)
  : result (Obs * R * bool * Info) * FrameSkipping :=
  if (action <? n_real_acts w)%Z then
    let '((obs, reward, done, info), env') := env_step E (fs_env w) action in
    (Ok (obs, reward, done, info), with_env w env')
  else
    match py_getitem (skip w) (action - n_real_acts w) with
    | Raise e => (Raise e, w)
    | Ok n_repeat =>
        let '(env', total_reward, last) :=
          FrameSkipping_loop (Z.to_nat n_repeat) (repeat_act w) (fs_env w) rzero None in
        match last with
        | None => (Raise UnboundLocalError, with_env w env')
        | Some (obs, done, info) =>
            (Ok (obs, total_reward, done, info), with_env w env')
        end
    end.

End Wrappers.

Arguments EpisodicLifeEnv : clear implicits.
Arguments MaxAndSkipEnv : clear implicits.
Arguments FrameSkipping : clear implicits.

(** ** The subprocess executor *)

Section Executor.
Context {Act R Info Space St : Type}.
(** Python's [None], sent as the payload of the commands that carry none. *)
Variable py_none : Act.
Variable E : Env Act R Info Space St.

(** What a worker sends back: the 4-tuple of a step, an observation, the
    pair of spaces, or the metadata value. *)
Inductive Reply : Type :=
  | RStep (r : Obs * R * bool * Info)
  | RObs (ob : Obs)
  | RSpaces (sp : Space * Space)
  | RValue (v : R).

(** A worker process.  [env_fn] is the environment factory shipped to it:
    it returns an environment or raises. *)
Inductive Proc : Type :=
  | Created (env_fn : result St)
  | Started (env_fn : result St)
  | Running (env : St)
  | Exited
  | Crashed (e : exn).

(** A command as it goes down the pipe: the pair [(cmd, data)]. *)
Definition msg : Type := string * Act.

(** One turn of the [while True] loop of [worker]: the command just
    received is handled; the process goes on, exits or dies, and sends at
    most one reply. *)
Definition worker_handle (env : St) (m : msg) : Proc * option Reply :=
  let '(cmd, data) := m in
  if String.eqb cmd "step" then
    let '((ob, reward, done, info), env1) := env_step E env data in
    let '(ob', env2) := if done then env_reset E env1 else (ob, env1) in
    (Running env2, Some (RStep (ob', reward, done, info)))
  else if String.eqb cmd "reset" then
    let '(ob, env1) := env_reset E env in
    (Running env1, Some (RObs ob))
  else if String.eqb cmd "close" then
    (Exited, None)
  else if String.eqb cmd "get_spaces" then
    (Running env, Some (RSpaces (env_action_space E env, env_observation_space E env)))
  else if String.eqb cmd "last_reward" then
    match env_metadata E env !! "last_reward" with
    | Some last_reward => (Running env, Some (RValue last_reward))
    | None => (Crashed KeyError, None)
    end
  else (Crashed NotImplementedError, None).

(** A worker with the two directions of its pipe: [inbox] holds the
    commands sent and not yet received, [outbox] the replies sent and not
    yet received. *)
Record Worker : Type := {
  proc : Proc;
  inbox : list msg;
  outbox : list Reply
}.

(** [env = env_fn_wrapper.x()], the first thing a started process does. *)
Definition boot (p : Proc) : Proc :=
  match p with
  | Started (Ok env) => Running env
  | Started (Raise e) => Crashed e
  | _ => p
  end.

(** One step of a worker process on its own: it boots, or receives and
    handles the next command.  [None]: it cannot move (it is blocked in
    [recv], not started, or gone). *)
Definition worker_step (w : Worker) : option Worker :=
  match proc w with
  | Started f => Some {| proc := boot (Started f); inbox := inbox w; outbox := outbox w |}
  | Running env =>
      match inbox w with
      | [] => None
      | m :: rest =>
          let '(p, r) := worker_handle env m in
          Some {| proc := p; inbox := rest; outbox := outbox w ++ option_list r |}
      end
  | _ => None
  end.

(** What the coordinator does to the outside, in order. *)
Inductive Event : Type :=
  | EStart (k : nat)
  | ESend (k : nat) (m : msg)
  | ERecv (k : nat) (r : Reply)
  | EJoin (k : nat).

(** The whole system but the coordinator's own control state. *)
Record Sys : Type := {
  workers : list Worker;
  trace : list Event
}.

(** The coordinator's code: a tree of its effects.  [Recv] and [Join]
    block; [Start] may raise. *)
Inductive Coord (A : Type) : Type :=
  | Ret (a : A)
  | Throw (e : exn)
  | Start (k : nat) (next : Coord A)
  | Send (k : nat) (m : msg) (next : Coord A)
  | Recv (k : nat) (next : Reply -> Coord A)
  | Join (k : nat) (next : Coord A).
Arguments Ret {A} a.
Arguments Throw {A} e.
Arguments Start {A} k next.
Arguments Send {A} k m next.
Arguments Recv {A} k next.
Arguments Join {A} k next.

Fixpoint bind {A B : Type} (c : Coord A) (f : A -> Coord B) : Coord B :=
  match c with
  | Ret a => f a
  | Throw e => Throw e
  | Start k next => Start k (bind next f)
  | Send k m next => Send k m (bind next f)
  | Recv k next => Recv k (fun r => bind (next r) f)
  | Join k next => Join k (bind next f)
  end.

(** [for x in l: body(x)] *)
Fixpoint for_each {A : Type} (l : list A) (body : A -> Coord unit) : Coord unit :=
  match l with
  | [] => Ret tt
  | x :: l' => bind (body x) (fun _ => for_each l' body)
  end.

(** [[body(x) for x in l]] *)
Fixpoint collect {A B : Type} (l : list A) (body : A -> Coord B) : Coord (list B) :=
  match l with
  | [] => Ret []
  | x :: l' => bind (body x) (fun y => bind (collect l' body) (fun ys => Ret (y :: ys)))
  end.

(** The four effects as statements: [p.start()], [remote.send(m)],
    [remote.recv()], [p.join()]. *)
Definition start (k : nat) : Coord unit := Start k (Ret tt).
Definition send (k : nat) (m : msg) : Coord unit := Send k m (Ret tt).
Definition recv (k : nat) : Coord Reply := Recv k Ret.
Definition join (k : nat) : Coord unit := Join k (Ret tt).

(** *** SubprocVecEnv *)

(** The executor object.  A pipe and a process are named by the index of
    the worker they belong to. *)
Record SubprocVecEnv : Type := {
  remotes : list nat;
  ps : list nat;
  action_space : Space;
  observation_space : Space
}.

(** The system [SubprocVecEnv.__init__] has built when it reaches its
    first [p.start()]: one pipe and one process object per [env_fn]. *)
Definition spawned (env_fns : list (result St)) : Sys :=
  {| workers := map (fun f => {| proc := Created f; inbox := []; outbox := [] |}) env_fns;
     trace := [] |}.

(** [SubprocVecEnv.__init__].  With no [env_fn] the [zip] of the unpacked
    list of pipes is empty, and binding it to two names raises. *)
Definition SubprocVecEnv_init (env_fns : list (result St)) : Coord SubprocVecEnv :=
  let nenvs := length env_fns in
  match seq 0 nenvs with
  | [] => Throw ValueError
  | remote0 :: _ =>
      bind (for_each (seq 0 nenvs) start) (fun _ =>
      bind (send remote0 ("get_spaces", py_none)) (fun _ =>
      bind (recv remote0) (fun r =>
      match r with
      | RSpaces (a, o) =>
          Ret {| remotes := seq 0 nenvs; ps := seq 0 nenvs;
                 action_space := a; observation_space := o |}
      | _ => Throw ValueError
      end)))
  end.

(** The [zip] of the unpacked [results], bound to four names. *)
Fixpoint unzip4 (results : list Reply)
  : option (list Obs * list R * list bool * list Info) :=
  match results with
  | [] => Some ([], [], [], [])
  | RStep (ob, reward, done, info) :: rest =>
      match unzip4 rest with
      | Some (obs, rews, dones, infos) =>
          Some (ob :: obs, reward :: rews, done :: dones, info :: infos)
      | None => None
      end
  | _ :: _ => None
  end.

(** The last two lines of [SubprocVecEnv.step]: the observations, rewards
    and dones are stacked, the infos stay a tuple. *)
Definition step_return (results : list Reply)
  : Coord (np.ndarray Z * np.ndarray R * np.ndarray bool * list Info) :=
  match results with
  | [] => Throw ValueError
  | _ :: _ =>
      match unzip4 results with
      | None => Throw ValueError
      | Some (obs, rews, dones, infos) =>
          match np.stack obs, np.stack (map np.Scalar rews),
                np.stack (map np.Scalar dones) with
          | Some o, Some r, Some d => Ret (o, r, d, infos)
          | _, _, _ => Throw ValueError
          end
      end
  end.

(** [SubprocVecEnv.step] *)
Definition SubprocVecEnv_step (self : SubprocVecEnv) (actions : list Act)
  : Coord (np.ndarray Z * np.ndarray R * np.ndarray bool * list Info) :=
  bind (for_each (zip (remotes self) actions)
          (fun ra => send ra.1 ("step", ra.2))) (fun _ =>
  bind (collect (remotes self) recv) step_return).

(** The observation a reply to ['reset'] carries. *)
Definition reply_obs (r : Reply) : option Obs :=
  match r with RObs ob => Some ob | _ => None end.

(** The scalar a reply to ['last_reward'] carries. *)
Definition reply_value (r : Reply) : option (np.ndarray R) :=
  match r with RValue v => Some (np.Scalar v) | _ => None end.

(** [np.stack] of a list of replies, each seen through [get]. *)
Definition stack_replies {B : Type} (get : Reply -> option (np.ndarray B))
    (results : list Reply) : Coord (np.ndarray B) :=
  match mapM get results ≫= np.stack with
  | Some a => Ret a
  | None => Throw ValueError
  end.

(** [SubprocVecEnv.reset] *)
Definition SubprocVecEnv_reset (self : SubprocVecEnv) : Coord (np.ndarray Z) :=
  bind (for_each (remotes self) (fun remote => send remote ("reset", py_none))) (fun _ =>
  bind (collect (remotes self) recv) (stack_replies reply_obs)).

(** [SubprocVecEnv.close] *)
Definition SubprocVecEnv_close (self : SubprocVecEnv) : Coord unit :=
  bind (for_each (remotes self) (fun remote => send remote ("close", py_none))) (fun _ =>
  for_each (ps self) join).

(** [SubprocVecEnv.get_last_reward] *)
Definition SubprocVecEnv_get_last_reward (self : SubprocVecEnv) : Coord (np.ndarray R) :=
  bind (for_each (remotes self) (fun remote => send remote ("last_reward", py_none)))
    (fun _ =>
  bind (collect (remotes self) recv) (stack_replies reply_value)).

(** [SubprocVecEnv.num_envs] *)
Definition num_envs (self : SubprocVecEnv) : nat := length (remotes self).

(** *** The system's steps *)

(** Whether the operating system manages to start process [k]. *)
Variable start_ok : nat -> bool.

(** The system with worker [k] replaced, and with one more event in the
    coordinator's trace. *)
Definition set_worker (s : Sys) (k : nat) (w : Worker) : Sys :=
  {| workers := <[k := w]> (workers s); trace := trace s |}.

Definition log (s : Sys) (e : Event) : Sys :=
  {| workers := workers s; trace := trace s ++ [e] |}.

(** The process is gone: it left its loop or an exception ended it. *)
Definition finished (p : Proc) : bool :=
  match p with
  | Exited | Crashed _ => true
  | _ => false
  end.

(** [p.start()] on process [k]: [Some true] when it is now running,
    [Some false] when the start raised. *)
Definition do_start (s : Sys) (k : nat) : option (bool * Sys) :=
  match workers s !! k with
  | Some {| proc := Created f; inbox := i; outbox := o |} =>
      if start_ok k
      then Some (true, log (set_worker s k {| proc := Started f; inbox := i; outbox := o |})
                           (EStart k))
      else Some (false, s)
  | _ => None
  end.

(** [remote.send(m)] on pipe [k]: the command joins the queue. *)
Definition do_send (s : Sys) (k : nat) (m : msg) : option Sys :=
  match workers s !! k with
  | Some w =>
      Some (log (set_worker s k {| proc := proc w; inbox := inbox w ++ [m];
                                   outbox := outbox w |})
                (ESend k m))
  | None => None
  end.

(** [remote.recv()] on pipe [k]: the oldest reply, when there is one.
    With none there the coordinator waits; the coordinator keeps its own
    handle on the worker's end of the pipe, so the wait does not end when
    the worker is gone. *)
Definition do_recv (s : Sys) (k : nat) : option (Reply * Sys) :=
  match workers s !! k with
  | Some {| proc := p; inbox := i; outbox := r :: o |} =>
      Some (r, log (set_worker s k {| proc := p; inbox := i; outbox := o |}) (ERecv k r))
  | _ => None
  end.

(** [p.join()] on process [k]: returns once the process is gone. *)
Definition do_join (s : Sys) (k : nat) : option Sys :=
  match workers s !! k with
  | Some w => if finished (proc w) then Some (log s (EJoin k)) else None
  | None => None
  end.

(** One step of the coordinator.  [None]: it has returned, raised, or is
    blocked. *)
Definition coord_step {A : Type} (c : Coord A) (s : Sys) : option (Coord A * Sys) :=
  match c with
  | Ret _ | Throw _ => None
  | Start k next =>
      match do_start s k with
      | Some (true, s') => Some (next, s')
      | Some (false, s') => Some (Throw OSError, s')
      | None => None
      end
  | Send k m next => s' ← do_send s k m; Some (next, s')
  | Recv k next => rs ← do_recv s k; Some (next rs.1, rs.2)
  | Join k next => s' ← do_join s k; Some (next, s')
  end.

(** Worker [k] takes a step of its own. *)
Definition sys_worker_step (k : nat) (s : Sys) : option Sys :=
  w ← workers s !! k; w' ← worker_step w; Some (set_worker s k w').

(** One step of the system: the coordinator moves, or some worker does.
    Which one is not determined. *)
Inductive sys_step {A : Type} : Coord A * Sys -> Coord A * Sys -> Prop :=
  | step_coord c s c' s' :
      coord_step c s = Some (c', s') -> sys_step (c, s) (c', s')
  | step_worker k c s s' :
      sys_worker_step k s = Some s' -> sys_step (c, s) (c, s').

(** *** Running every worker as far as it can go *)

(** A process fed the commands of its inbox until the inbox is empty or
    the process is gone: the process, the commands left, the replies. *)
Fixpoint feed (p : Proc) (i : list msg) : Proc * list msg * list Reply :=
  match i with
  | [] => (p, [], [])
  | m :: rest =>
      match p with
      | Running env =>
          let '(p', r) := worker_handle env m in
          let '(p'', rest', rs) := feed p' rest in
          (p'', rest', option_list r ++ rs)
      | _ => (p, i, [])
      end
  end.

(** A worker, and every worker of a system, run as far as it can go on
    its own: booted, and fed what its inbox holds. *)
Definition flush_worker (w : Worker) : Worker :=
  let '(p, i, rs) := feed (boot (proc w)) (inbox w) in
  {| proc := p; inbox := i; outbox := outbox w ++ rs |}.

Definition flush (s : Sys) : Sys :=
  {| workers := map flush_worker (workers s); trace := trace s |}.

(** The coordinator run on its own, every worker answering at once: the
    schedule in which no worker is ever late.  It stops where the
    coordinator returns, raises or blocks for good. *)
Fixpoint seq_exec {A : Type} (c : Coord A) (s : Sys) : Coord A * Sys :=
  match c with
  | Ret _ | Throw _ => (c, s)
  | Start k next =>
      match do_start s k with
      | Some (true, s') => seq_exec next (flush s')
      | Some (false, s') => (Throw OSError, s')
      | None => (c, s)
      end
  | Send k m next =>
      match do_send s k m with
      | Some s' => seq_exec next (flush s')
      | None => (c, s)
      end
  | Recv k next =>
      match do_recv s k with
      | Some (r, s') => seq_exec (next r) s'
      | None => (c, s)
      end
  | Join k next =>
      match do_join s k with
      | Some s' => seq_exec next s'
      | None => (c, s)
      end
  end.

(** A worker in its loop, waiting for a command, with an empty pipe. *)
Definition waiting (env : St) : Worker :=
  {| proc := Running env; inbox := []; outbox := [] |}.

(** A system at rest between two calls: every worker is in its loop,
    waiting for a command, with nothing in either direction of its pipe. *)
Definition idle (envs : list St) (s : Sys) : Prop :=
  workers s = map waiting envs.

(** A system between two calls as the coordinator finds it: left to
    themselves the workers come to rest, worker [k] holding [envs !! k].
    Right after [__init__] a worker may still be on its way there. *)
Definition at_rest (envs : list St) (s : Sys) : Prop :=
  idle envs (flush s).

(** What a worker holding [env] answers to the command [('step', a)], and
    the environment it is left with: the ['step'] branch of [worker]. *)
Definition step_reply (env : St) (a : Act) : (Obs * R * bool * Info) * St :=
  let '((ob, reward, done, info), env1) := env_step E env a in
  let '(ob', env2) := if done then env_reset E env1 else (ob, env1) in
  ((ob', reward, done, info), env2).

End Executor.

Arguments Ret {Act R Info Space A} a.
Arguments Throw {Act R Info Space A} e.
Arguments Start {Act R Info Space A} k next.
Arguments Send {Act R Info Space A} k m next.
Arguments Recv {Act R Info Space A} k next.
Arguments Join {Act R Info Space A} k next.

(** ** Environments to run the code on *)

(** A scripted game: the state is what is left of a script of life counts,
    the head being the current count.  A step moves to the next count and
    reports [done] when that count is zero; [reset] rewinds the script. *)
Definition life_env (script : list Z) : Env Z Z unit unit (list Z) := {|
  env_step := fun st _ =>
    let st' := tail st in
    ((np.Scalar (hd 0%Z st'), 0%Z, bool_decide (hd 0%Z st' = 0%Z), tt), st');
  env_reset := fun _ => (np.Scalar (hd 0%Z script), script);
  env_lives := fun st => hd 0%Z st;
  env_n := fun _ => 1%Z;
  env_action_space := fun _ => tt;
  env_observation_space := fun _ => tt;
  env_metadata := fun _ => ∅
|}.

(** A counting game: the state is the number of steps taken.  Step number
    [i] returns the two-pixel frame [[i, 10 - i]], the reward [i], and
    [done] when [i] is [limit]; there is no metadata. *)
Definition counter_env {Act : Type} (limit : Z) : Env Act Z unit unit Z := {|
  env_step := fun n _ =>
    let i := (n + 1)%Z in
    ((np.Array [np.Scalar i; np.Scalar (10 - i)%Z], i, bool_decide (i = limit), tt), i);
  env_reset := fun _ => (np.Array [np.Scalar 0%Z; np.Scalar 10%Z], 0%Z);
  env_lives := fun _ => 0%Z;
  env_n := fun _ => 4%Z;
  env_action_space := fun _ => tt;
  env_observation_space := fun _ => tt;
  env_metadata := fun _ => ∅
|}.

(** An executor over two counting games, and the system at rest in which
    worker [k] holds the game [envs !! k]. *)
Definition demo_executor : SubprocVecEnv (Space := unit) :=
  {| remotes := [0; 1]; ps := [0; 1]; action_space := tt; observation_space := tt |}.

Definition demo_system (envs : list Z)
  : Sys (Act := Z) (R := Z) (Info := unit) (Space := unit) (St := Z) :=
  {| workers := map waiting envs; trace := [] |}.

(** The [done] flag returned and the flag [was_real_done] kept, for each of
    a sequence of steps of an [EpisodicLifeEnv]. *)
Fixpoint EpisodicLifeEnv_dones {R Info Space St : Type} (E : Env Z R Info Space St)
    (w : EpisodicLifeEnv St) (actions : list Z) : list (bool * bool) :=
  match actions with
  | [] => []
  | a :: rest =>
      let '(r, w') := EpisodicLifeEnv_step E w a in
      (sr_done r, was_real_done w') :: EpisodicLifeEnv_dones E w' rest
  end.

(** The last two entries of a sequence (all of it when it is shorter). *)
Definition last_two {A : Type} (l : list A) : list A := drop (length l - 2) l.

(** How many times a loop body that stops at the first [done] runs when it
    may run at most [n] times: the number [k] with these properties, [r]
    and [env'] being the result and the state of the last run. *)
Definition stops_at {Act R Info Space St : Type} (E : Env Act R Info Space St)
    (n k : nat) (env : St) (a : Act) (r : Obs * R * bool * Info) (env' : St) : Prop :=
  1 <= k <= n /\
  last (run_steps E k env a) = Some (r, env') /\
  Forall (fun x => sr_done x.1 = false) (take (k - 1) (run_steps E k env a)) /\
  (k = n \/ sr_done r = true).

(** ** Notions the statements about the executor use *)

Section ExecutorNotions.
Context {Act R Info Space St : Type}.
Variable E : Env Act R Info Space St.

(** A process that is not about to run its [env_fn]. *)
Definition not_started (p : Proc (St := St)) : Prop :=
  match p with Started _ => False | _ => True end.

(** The coordinator's call is over: it has returned or raised. *)
Definition returned {A : Type}
    (c : Coord (Act := Act) (R := R) (Info := Info) (Space := Space) A) : bool :=
  match c with Ret _ | Throw _ => true | _ => false end.

(** A waiting worker once it has handled the command [m]. *)
Definition handled (env : St) (m : msg) : Worker (Act := Act) :=
  {| proc := (worker_handle E env m).1; inbox := [];
     outbox := option_list (worker_handle E env m).2 |}.

(** A worker once the coordinator has taken its oldest reply. *)
Definition taken (w : Worker (Act := Act) (R := R) (Info := Info) (Space := Space) (St := St))
  : Worker :=
  {| proc := proc w; inbox := inbox w; outbox := tail (outbox w) |}.

(** The environments after each has made the step asked of it. *)
Definition advance (envs : list St) (actions : list Act) : list St :=
  zip_with (fun env a => (step_reply E env a).2) envs actions.

(** The step results, worker by worker. *)
Definition step_replies (envs : list St) (actions : list Act)
  : list (Obs * R * bool * Info) :=
  zip_with (fun env a => (step_reply E env a).1) envs actions.

(** A process object with its pipe, before and after it has started and
    run its [env_fn]. *)
Definition created (f : result St) : Worker (Act := Act) (R := R) (Info := Info) (Space := Space) :=
  {| proc := Created f; inbox := []; outbox := [] |}.

Definition booted (f : result St) : Worker (Act := Act) (R := R) (Info := Info) (Space := Space) :=
  {| proc := boot (Started f); inbox := []; outbox := [] |}.

(** The events in which the coordinator waits for a worker, and those in
    which it sends. *)
Definition is_wait (e : Event (Act := Act) (R := R) (Info := Info) (Space := Space)) : Prop :=
  match e with ERecv _ _ | EJoin _ => True | _ => False end.

Definition is_send (e : Event (Act := Act) (R := R) (Info := Info) (Space := Space)) : Prop :=
  match e with ESend _ _ => True | _ => False end.

(** In a sequence of the coordinator's events, the fan-out comes first:
    before any event in which the coordinator waits for a worker, the
    command [cmd] has been sent to each of the [n] workers, and no send
    comes after it. *)
Definition fan_out_first (n : nat) (cmd : string)
    (evs : list (Event (Act := Act) (R := R) (Info := Info) (Space := Space))) : Prop :=
  forall i e, evs !! i = Some e -> is_wait e ->
    (forall j, j < n -> exists i' data, i' < i /\ evs !! i' = Some (ESend j (cmd, data))) /\
    (forall i' e', evs !! i' = Some e' -> is_send e' -> i' < i).

(** The call [call], made on the system [s], has the fan-out first at
    every point every schedule can take it to: the events since the call
    began are a fan-out of [cmd] to the [n] workers followed by waits, or
    the beginning of one. *)
Definition fans_out_first (start_ok : nat -> bool) (n : nat) (cmd : string) {A : Type}
    (call : Coord A) (s : Sys) : Prop :=
  forall c' s', rtc (sys_step E start_ok) (call, s) (c', s') ->
    exists evs, trace s' = trace s ++ evs /\ fan_out_first n cmd evs.

(** A piece of the coordinator's code in which nothing is sent. *)
Fixpoint sends_nothing {A : Type}
    (c : Coord (Act := Act) (R := R) (Info := Info) (Space := Space) A) : Prop :=
  match c with
  | Ret _ | Throw _ => True
  | Send _ _ _ => False
  | Start _ next | Join _ next => sends_nothing next
  | Recv _ next => forall r, sends_nothing (next r)
  end.

(** The environments after each has been reset, and the observations the
    resets return. *)
Definition reset_all (envs : list St) : list St :=
  map (fun env => (env_reset E env).2) envs.

Definition reset_replies (envs : list St) : list Obs :=
  map (fun env => (env_reset E env).1) envs.

(** The life of an executor: from the system [s0], where worker [k] holds
    the environment [envs0 !! k], any number of [step] and [reset] calls,
    each run to its end under some schedule.  The list of environments
    says what each worker's own environment has become under the commands
    meant for it. *)
Inductive lifetime (start_ok : nat -> bool) (py_none : Act) (self : SubprocVecEnv)
    (envs0 : list St) (s0 : Sys) : list St -> Sys -> Prop :=
  | life_built : lifetime start_ok py_none self envs0 s0 envs0 s0
  | life_step envs s actions c' s' :
      lifetime start_ok py_none self envs0 s0 envs s ->
      length actions = length envs ->
      rtc (sys_step E start_ok) (SubprocVecEnv_step self actions, s) (c', s') ->
      returned c' = true ->
      lifetime start_ok py_none self envs0 s0 (advance envs actions) s'
  | life_reset envs s c' s' :
      lifetime start_ok py_none self envs0 s0 envs s ->
      rtc (sys_step E start_ok) (SubprocVecEnv_reset py_none self, s) (c', s') ->
      returned c' = true ->
      lifetime start_ok py_none self envs0 s0 (reset_all envs) s'.

End ExecutorNotions.

(** ** The other wrappers *)

(** The outcome of a call that may also fail an [assert]. *)
Inductive checked (A : Type) : Type :=
  | Passes (a : A)
  | AssertionError
  | Raises (e : exn).
Arguments Passes {A} a.
Arguments AssertionError {A}.
Arguments Raises {A} e.

(** The sub-arrays of an array along its leading axis; a scalar has none. *)
Definition np_rows {A : Type} (a : np.ndarray A) : option (list (np.ndarray A)) :=
  match a with
  | np.Scalar _ => None
  | np.Array xs => Some xs
  end.

(** [np.concatenate(xs, axis=axis)].  [None] stands for the [ValueError]
    numpy raises on an empty list, on arrays with too few dimensions, and
    on arrays that differ in a dimension other than [axis]. *)
Fixpoint np_concatenate {A : Type} (axis : nat) (xs : list (np.ndarray A))
  : option (np.ndarray A) :=
  match xs with
  | [] => None
  | x :: _ =>
      rows ← mapM np_rows xs;
      match axis with
      | O =>
          if forallb (fun y => bool_decide (tail (np.shape y) = tail (np.shape x))) xs
          then Some (np.Array (concat rows))
          else None
      | S axis' =>
          if forallb (fun r => bool_decide (length r = length (hd [] rows))) rows
          then np.Array <$>
                 mapM (fun i => mapM (fun r => r !! i) rows ≫= np_concatenate axis')
                   (seq 0 (length (hd [] rows)))
          else None
      end
  end.

(** [collections.deque(maxlen=m)] after [n] times [append(x)]. *)
Fixpoint deque_fill {A : Type} (maxlen n : nat) (buf : list A) (x : A) : list A :=
  match n with
  | O => buf
  | S n' => deque_fill maxlen n' (deque_append maxlen buf x) x
  end.

(** The gray frame of [h] rows and [w] columns, one channel deep, whose
    pixel at row [i], column [j] is [f i j]; and the frame of the same size
    whose pixel holds the channels [fs]. *)
Definition mk_stack (h w : nat) (fs : list (nat -> nat -> Z)) : Obs :=
  np.Array (map (fun i =>
    np.Array (map (fun j => np.Array (map (fun f => np.Scalar (f i j)) fs)) (seq 0 w)))
    (seq 0 h)).

Definition mk_frame (h w : nat) (f : nat -> nat -> Z) : Obs := mk_stack h w [f].

Module FrameStack.
Section FrameStack.
Context {R Info Space St : Type}.
Variable E : Env Z R Info Space St.

Record t : Type := {
  env : St;
  k : Z;
  frames : list Obs
}.

(** [FrameStack.__init__]; [shp] is [env.observation_space.shape].  A
    negative [maxlen] makes [deque] raise. *)
Definition init (env0 : St) (k0 : Z) (shp : list Z) : checked t :=
  if (k0 <? 0)%Z then Raises ValueError
  else match py_getitem shp 2 with
       | Raise e => Raises e
       | Ok c =>
           if (c =? 1)%Z then Passes {| env := env0; k := k0; frames := [] |}
           else AssertionError
       end.

(** [FrameStack._observation] *)
Definition _observation (w : t) : checked Obs :=
  if bool_decide (Z.of_nat (length (frames w)) = k w)
  then match np_concatenate 2 (frames w) with
       | Some a => Passes a
       | None => Raises ValueError
       end
  else AssertionError.

(** [FrameStack._reset] *)
Definition _reset (w : t) : checked Obs * t :=
  let '(ob, env') := env_reset E (env w) in
  let w' := {| env := env'; k := k w;
               frames := deque_fill (Z.to_nat (k w)) (Z.to_nat (k w)) (frames w) ob |} in
  (_observation w', w').

(** [FrameStack._step] *)
Definition _step (w : t) (action : Z) : checked (Obs * R * bool * Info) * t :=
  let '((ob, reward, done, info), env') := env_step E (env w) action in
  let w' := {| env := env'; k := k w;
               frames := deque_append (Z.to_nat (k w)) (frames w) ob |} in
  (match _observation w' with
   | Passes a => Passes (a, reward, done, info)
   | AssertionError => AssertionError
   | Raises e => Raises e
   end, w').

End FrameStack.
Arguments t : clear implicits.
End FrameStack.

Module NoopResetEnv.
Section NoopResetEnv.
Context {R Info Space St : Type}.
Variable E : Env Z R Info Space St.

Record t : Type := {
  env : St;
  noop_max : Z;
  override_num_noops : option Z
}.

(** [np_random.randint(low, high)]: a number from [low] up to [high - 1],
    chosen by [draw], which stands for the state of the generator; an empty
    range raises. *)
Definition randint (low high draw : Z) : result Z :=
  if (low <? high)%Z then Ok (low + draw mod (high - low))%Z else Raise ValueError.

(** The local [noops] of [NoopResetEnv._reset]. *)
Definition num_noops (w : t) (draw : Z) : result Z :=
  match override_num_noops w with
  | Some n => Ok n
  | None => randint 1 (noop_max w + 1) draw
  end.

(** The [for _ in range(noops)] loop of [NoopResetEnv._reset], with [n]
    iterations left; [obs] is the local of that name, [None] at first. *)
Fixpoint loop (n : nat) (env0 : St) (obs : option Obs) : St * option Obs :=
  match n with
  | O => (env0, obs)
  | S n' =>
      let '((ob, _, done, _), env1) := env_step E env0 0%Z in
      let '(ob', env2) := if done then env_reset E env1 else (ob, env1) in
      loop n' env2 (Some ob')
  end.

Definition with_env (w : t) (env0 : St) : t :=
  {| env := env0; noop_max := noop_max w; override_num_noops := override_num_noops w |}.

(** [NoopResetEnv._reset].  What is returned is the local [obs], an
    observation or [None]. *)
Definition _reset (w : t) (draw : Z) : checked (option Obs) * t :=
  let '(_, env1) := env_reset E (env w) in
  match num_noops w draw with
  | Raise e => (Raises e, with_env w env1)
  | Ok noops =>
      if (0 <? noops)%Z then
        let '(env2, obs) := loop (Z.to_nat noops) env1 None in
        (Passes obs, with_env w env2)
      else (AssertionError, with_env w env1)
  end.

End NoopResetEnv.
Arguments t : clear implicits.
End NoopResetEnv.

Module FireResetEnv.
Section FireResetEnv.
Context {R Info Space St : Type}.
Variable E : Env Z R Info Space St.

(** [FireResetEnv._reset]; the wrapper has no state of its own. *)
Definition _reset (env : St) : Obs * St :=
  let '(_, env1) := env_reset E env in
  let '((obs, _, done, _), env2) := env_step E env1 1%Z in
  let env3 := if done then (env_reset E env2).2 else env2 in
  let '((obs, _, done, _), env4) := env_step E env3 2%Z in
  let env5 := if done then (env_reset E env4).2 else env4 in
  (obs, env5).

End FireResetEnv.
End FireResetEnv.

(** An [EpisodicLifeEnv] seen as an environment: [step] and [reset] are the
    wrapper's, everything else is the inner environment's. *)
Definition EpisodicLifeEnv_env {R Info Space St : Type} (E : Env Z R Info Space St)
  : Env Z R Info Space (EpisodicLifeEnv St) := {|
  env_step := EpisodicLifeEnv_step E;
  env_reset := EpisodicLifeEnv_reset E;
  env_lives := fun w => env_lives E (el_env w);
  env_n := fun w => env_n E (el_env w);
  env_action_space := fun w => env_action_space E (el_env w);
  env_observation_space := fun w => env_observation_space E (el_env w);
  env_metadata := fun w => env_metadata E (el_env w)
|}.

(** The calls of a run of no-op steps, each one followed by a reset where it
    ended the episode; [dones] holds the [done] of each step. *)
Definition noop_calls (dones : list bool) : list (Call Z) :=
  concat (map (fun d : bool => if d then [CStep 0%Z; CReset] else [CStep 0%Z]) dones).

(** ** More notions for the executor *)

Section CallNotions.
Context {Act R Info Space St : Type}.

(** The coordinator's code [c] cannot come to its end before it has
    received a reply from worker [k]: on every path a [recv] on pipe [k]
    comes first.  With [to_k] false, nothing is sent to worker [k] before
    that either. *)
Fixpoint waits_for (to_k : bool) (k : nat) {A : Type}
    (c : Coord (Act := Act) (R := R) (Info := Info) (Space := Space) A) : Prop :=
  match c with
  | Ret _ | Throw _ | Start _ _ => False
  | Send k' _ next => (to_k = true \/ k' <> k) /\ waits_for to_k k next
  | Recv k' next => k' = k \/ forall r, waits_for to_k k (next r)
  | Join _ next => waits_for to_k k next
  end.

(** A worker that will send nothing of its own accord: it is gone, or
    cannot move, and its end of the pipe is empty. *)
Definition silent (E : Env Act R Info Space St)
    (w : Worker (Act := Act) (R := R) (Info := Info) (Space := Space) (St := St)) : Prop :=
  outbox w = [] /\ flush_worker E w = w.

(** A worker that is gone, with nothing in either direction of its pipe. *)
Definition gone : Worker (Act := Act) (R := R) (Info := Info) (Space := Space) (St := St) :=
  {| proc := Exited; inbox := []; outbox := [] |}.

(** A worker a ['close'] gets rid of: it is in its loop with nothing left
    to read, or it is gone already. *)
Definition closable
    (w : Worker (Act := Act) (R := R) (Info := Info) (Space := Space) (St := St)) : Prop :=
  match proc w with
  | Running _ => inbox w = []
  | Exited | Crashed _ => True
  | Created _ | Started _ => False
  end.

End CallNotions.

(** The counting game with the last reward in its metadata. *)
Definition scored_env {Act : Type} (limit : Z) : Env Act Z unit unit Z := {|
  env_step := env_step (counter_env (Act := Act) limit);
  env_reset := env_reset (counter_env (Act := Act) limit);
  env_lives := env_lives (counter_env (Act := Act) limit);
  env_n := env_n (counter_env (Act := Act) limit);
  env_action_space := env_action_space (counter_env (Act := Act) limit);
  env_observation_space := env_observation_space (counter_env (Act := Act) limit);
  env_metadata := fun n => {[ "last_reward" := n ]}
|}.

(** A game whose frames grow: the state is the number of steps taken, and
    the frame after [i] steps has [i] pixels. *)
Definition growing_env {Act : Type} : Env Act Z unit unit Z := {|
  env_step := fun n _ =>
    let i := (n + 1)%Z in
    ((np.Array (replicate (Z.to_nat i) (np.Scalar 0%Z)), 0%Z, false, tt), i);
  env_reset := fun _ => (np.Array [], 0%Z);
  env_lives := fun _ => 0%Z;
  env_n := fun _ => 1%Z;
  env_action_space := fun _ => tt;
  env_observation_space := fun _ => tt;
  env_metadata := fun _ => ∅
|}.

(** * Properties *)

Section WrapperProperties.
Context {R Info Space : Type} `{!RewardOps R} {St : Type}.
Variable E : Env Z R Info Space St.

Lemma EpisodicLifeEnv_step_eq (w : EpisodicLifeEnv St) (action : Z) :
  EpisodicLifeEnv_step E w action =
    let r := (env_step E (el_env w) action).1 in
    let env' := (env_step E (el_env w) action).2 in
    ((sr_obs r, sr_reward r,
      (env_lives E env' <? lives w)%Z && (0 <? env_lives E env')%Z || sr_done r,
      sr_info r),
     {| el_env := env'; lives := env_lives E env'; was_real_done := sr_done r |}).
Proof.
  unfold EpisodicLifeEnv_step.
  destruct (env_step E (el_env w) action) as [[[[obs reward] done] info] env'].
  cbn. by destruct (_ && _).
Qed.

Lemma EpisodicLifeEnv_reset_eq (w : EpisodicLifeEnv St) :
  EpisodicLifeEnv_reset E w =
    let oe := if was_real_done w then env_reset E (el_env w)
              else (sr_obs (env_step E (el_env w) 0%Z).1, (env_step E (el_env w) 0%Z).2) in
    (oe.1, {| el_env := oe.2; lives := env_lives E oe.2;
              was_real_done := was_real_done w |}).
Proof.
  unfold EpisodicLifeEnv_reset. destruct (was_real_done w).
  - by destruct (env_reset E (el_env w)).
  - by destruct (env_step E (el_env w) 0%Z) as [[[[obs reward] done] info] env'].
Qed.

End WrapperProperties.

(** C6.  A step of an EpisodicLife wrapper reports [done] exactly when the
    inner step reports it or the life count has gone down to a value that is
    still positive; observation, reward and info pass through; the inner
    [done] is kept apart in [was_real_done].  A reset calls the inner reset
    when [was_real_done] holds and makes one step with action 0 otherwise.
    On the life counts 3, 3, 2, 1, 0 the inner game reports [done] at the
    fourth step only; the wrapper reports it at the second, third and
    fourth, where the count goes 3 to 2, 2 to 1 and 1 to 0, the first two
    of these forced; [was_real_done] is set at the fourth only. *)
Theorem EpisodicLifeEnv_done_and_reset :
  (forall (R Info Space St : Type) (E : Env Z R Info Space St)
          (w : EpisodicLifeEnv St) (action : Z),
      let inner := env_step E (el_env w) action in
      let out := EpisodicLifeEnv_step E w action in
      sr_done out.1 =
        (sr_done inner.1 ||
         bool_decide (env_lives E inner.2 < lives w /\ 0 < env_lives E inner.2)%Z) /\
      was_real_done out.2 = sr_done inner.1 /\
      lives out.2 = env_lives E inner.2 /\
      el_env out.2 = inner.2 /\
      sr_obs out.1 = sr_obs inner.1 /\
      sr_reward out.1 = sr_reward inner.1 /\
      sr_info out.1 = sr_info inner.1) /\
  (forall (R Info Space St : Type) (E : Env Z R Info Space St)
          (w : EpisodicLifeEnv St) (calls : list (Call Z)),
      let out := EpisodicLifeEnv_reset E w in
      let w_traced := {| el_env := (el_env w, calls); lives := lives w;
                         was_real_done := was_real_done w |} in
      (out.1, el_env out.2) =
        (if was_real_done w then env_reset E (el_env w)
         else (sr_obs (env_step E (el_env w) 0%Z).1, (env_step E (el_env w) 0%Z).2)) /\
      (el_env (EpisodicLifeEnv_reset (traced E) w_traced).2).2 =
        calls ++ [if was_real_done w then CReset else CStep 0%Z] /\
      lives out.2 = env_lives E (el_env out.2) /\
      was_real_done out.2 = was_real_done w) /\
  (let script := [3; 3; 2; 1; 0]%Z in
   let w := (EpisodicLifeEnv_reset (life_env script) (EpisodicLifeEnv_init [])).2 in
   lives w = 3%Z /\
   map (fun x => env_lives (life_env script) x.2) (run_steps (life_env script) 4 script 0%Z) =
     [3; 2; 1; 0]%Z /\
   map (fun x => sr_done x.1) (run_steps (life_env script) 4 script 0%Z) =
     [false; false; false; true] /\
   EpisodicLifeEnv_dones (life_env script) w [0; 0; 0; 0]%Z =
     [(false, false); (true, false); (true, false); (true, true)]).
Proof.
  split; [|split].
  - intros R Info Space St E w action. cbn zeta.
    rewrite EpisodicLifeEnv_step_eq. cbn.
    split; [|done].
    rewrite orb_comm. f_equal.
    destruct (Z.ltb_spec (env_lives E (env_step E (el_env w) action).2) (lives w));
      destruct (Z.ltb_spec 0 (env_lives E (env_step E (el_env w) action).2)); cbn;
      symmetry; (apply bool_decide_eq_true_2 || apply bool_decide_eq_false_2); lia.
  - intros R Info Space St E w calls. cbn zeta.
    rewrite !EpisodicLifeEnv_reset_eq. cbn.
    destruct (was_real_done w); cbn.
    + by destruct (env_reset E (el_env w)).
    + by destruct (env_step E (el_env w) 0%Z).
  - cbn zeta. repeat split; reflexivity.
Qed.

(** C10.  A fresh EpisodicLife wrapper has [was_real_done] set, so its
    first reset is a reset of the inner environment, and never the step
    with action 0, whatever the inner environment's life count. *)
Theorem EpisodicLifeEnv_first_reset :
  forall (R Info Space St : Type) (E : Env Z R Info Space St) (env : St)
         (calls : list (Call Z)),
    let w := EpisodicLifeEnv_init env in
    let out := EpisodicLifeEnv_reset E w in
    was_real_done w = true /\
    (out.1, el_env out.2) = env_reset E env /\
    lives out.2 = env_lives E (env_reset E env).2 /\
    (el_env (EpisodicLifeEnv_reset (traced E) (EpisodicLifeEnv_init (env, calls))).2).2
      = calls ++ [CReset].
Proof.
  intros R Info Space St E env calls. cbn zeta.
  rewrite !EpisodicLifeEnv_reset_eq. cbn.
  destruct (env_reset E env) as [o e']. done.
Qed.

Section LoopProperties.
Context {R Info Space : Type} `{!RewardOps R} {St : Type}.
Variable E : Env Z R Info Space St.

Lemma deque_append_last_two {A : Type} (buf : list A) (x : A) :
  deque_append 2 buf x = last_two (buf ++ [x]).
Proof. done. Qed.

Lemma last_two_snoc {A : Type} (l : list A) (x : A) :
  last_two (last_two l ++ [x]) = last_two (l ++ [x]).
Proof.
  unfold last_two. rewrite !length_app, length_drop. cbn.
  destruct (decide (length l <= 2)) as [Hle|Hgt].
  - replace (length l - 2) with 0 by lia. cbn.
    replace (length l - 0 + 1 - 2) with (length l + 1 - 2) by lia. done.
  - rewrite (drop_app_le (drop _ l)) by (rewrite length_drop; lia).
    rewrite drop_drop.
    rewrite (drop_app_le l) by lia.
    f_equal. f_equal. lia.
Qed.

Lemma foldl_deque_append {A : Type} (xs buf : list A) :
  xs <> [] -> foldl (deque_append 2) buf xs = last_two (buf ++ xs).
Proof.
  induction xs as [|z l IH] using rev_ind; intros Hne; [done|].
  rewrite foldl_app. cbn. rewrite deque_append_last_two.
  destruct l as [|y l]; [done|].
  rewrite IH by done. by rewrite last_two_snoc, app_assoc.
Qed.

Lemma run_steps_length (k : nat) : forall (env : St) (a : Z),
  length (run_steps E k env a) = k.
Proof.
  induction k as [|k IH]; intros env a; [done|]. cbn.
  destruct (env_step E env a). cbn. by rewrite IH.
Qed.

Lemma stops_at_first (n : nat) (env : St) (a : Z) :
  0 < n -> (sr_done (env_step E env a).1 = true \/ n = 1) ->
  stops_at E n 1 env a (env_step E env a).1 (env_step E env a).2.
Proof.
  intros Hn Hd. unfold stops_at. cbn.
  destruct (env_step E env a) as [r env']. cbn in *.
  repeat split; [lia|lia|by constructor|].
  destruct Hd; [by right|by left].
Qed.

Lemma stops_at_next (n k : nat) (env : St) (a : Z) r env' :
  sr_done (env_step E env a).1 = false ->
  stops_at E n k (env_step E env a).2 a r env' ->
  stops_at E (S n) (S k) env a r env'.
Proof.
  intros Hd (Hk & Hlast & Hall & Hend). unfold stops_at. cbn.
  destruct (env_step E env a) as [r1 env1]. cbn in *.
  repeat split; [lia|lia| | |].
  - destruct (run_steps E k env1 a) eqn:Hrun; [done|]. done.
  - replace (k - 0) with (S (k - 1)) by lia. cbn. by constructor.
  - destruct Hend; [left; lia|by right].
Qed.

Lemma MaxAndSkipEnv_loop_spec (n : nat) :
  forall (action : Z) (env : St) (buf : list Obs) (total : R) lst,
    0 < n ->
    exists k r env',
      stops_at E n k env action r env' /\
      MaxAndSkipEnv_loop E n action env buf total lst =
        (env',
         foldl (deque_append 2) buf (map (fun x => sr_obs x.1) (run_steps E k env action)),
         foldl radd total (map (fun x => sr_reward x.1) (run_steps E k env action)),
         Some (sr_done r, sr_info r)).
Proof.
  induction n as [|n IH]; intros action env buf total lst Hn; [lia|].
  cbn [MaxAndSkipEnv_loop].
  destruct (env_step E env action) as [[[[obs reward] done] info] env1] eqn:Hstep.
  destruct done eqn:Hdone.
  - exists 1, (obs, reward, true, info), env1. split.
    + pose proof (stops_at_first (S n) env action) as H.
      rewrite Hstep in H. apply H; [lia|by left].
    + cbn. by rewrite Hstep.
  - destruct n as [|n].
    + exists 1, (obs, reward, false, info), env1. split.
      * pose proof (stops_at_first 1 env action) as H.
        rewrite Hstep in H. apply H; [lia|by right].
      * cbn. by rewrite Hstep.
    + destruct (IH action env1 (deque_append 2 buf obs) (radd total reward)
                  (Some (false, info))) as (k & r & env' & Hstop & Heq); [lia|].
      exists (S k), r, env'. split.
      * apply stops_at_next; by rewrite Hstep.
      * rewrite Heq. cbn [run_steps]. by rewrite Hstep.
Qed.

Lemma FrameSkipping_loop_spec (n : nat) :
  forall (action : Z) (env : St) (total : R) lst,
    0 < n ->
    exists k r env',
      stops_at E n k env action r env' /\
      FrameSkipping_loop E n action env total lst =
        (env',
         foldl radd total (map (fun x => sr_reward x.1) (run_steps E k env action)),
         Some (sr_obs r, sr_done r, sr_info r)).
Proof.
  induction n as [|n IH]; intros action env total lst Hn; [lia|].
  cbn [FrameSkipping_loop].
  destruct (env_step E env action) as [[[[obs reward] done] info] env1] eqn:Hstep.
  destruct done eqn:Hdone.
  - exists 1, (obs, reward, true, info), env1. split.
    + pose proof (stops_at_first (S n) env action) as H.
      rewrite Hstep in H. apply H; [lia|by left].
    + cbn. by rewrite Hstep.
  - destruct n as [|n].
    + exists 1, (obs, reward, false, info), env1. split.
      * pose proof (stops_at_first 1 env action) as H.
        rewrite Hstep in H. apply H; [lia|by right].
      * cbn. by rewrite Hstep.
    + destruct (IH action env1 (radd total reward) (Some (obs, false, info)))
        as (k & r & env' & Hstop & Heq); [lia|].
      exists (S k), r, env'. split.
      * apply stops_at_next; by rewrite Hstep.
      * rewrite Heq. cbn [run_steps]. by rewrite Hstep.
Qed.

Lemma traced_run_steps (k : nat) : forall (env : St) (calls : list (Call Z)) (a : Z),
  map (fun x => (x.1, x.2.1)) (run_steps (traced E) k (env, calls) a) = run_steps E k env a /\
  (forall r s, last (run_steps (traced E) k (env, calls) a) = Some (r, s) ->
     s.2 = calls ++ replicate k (CStep a)).
Proof.
  induction k as [|k IH]; intros env calls a; [done|].
  cbn. destruct (env_step E env a) as [r1 env1] eqn:Hstep. cbn.
  destruct (IH env1 (calls ++ [CStep a]) a) as [IH1 IH2].
  split; [by rewrite IH1|].
  intros r s Hlast.
  destruct (run_steps (traced E) k (env1, calls ++ [CStep a]) a) as [|x l] eqn:Hrun.
  - destruct k; [|cbn in Hrun; by destruct (env_step E env1 a)].
    cbn in Hlast. by inversion Hlast.
  - rewrite (IH2 r s) by done. by rewrite <- app_assoc.
Qed.

End LoopProperties.

Lemma last_two_app_ge {A : Type} (l1 l2 : list A) :
  2 <= length l2 -> last_two (l1 ++ l2) = last_two l2.
Proof.
  intros Hlen. unfold last_two. rewrite length_app.
  rewrite drop_app_ge by lia. f_equal. lia.
Qed.

Lemma stops_at_nonempty {Act R Info Space St : Type} (E : Env Act R Info Space St)
    n k env a r env' :
  stops_at E n k env a r env' -> run_steps E k env a <> [].
Proof. intros (_ & Hlast & _) Hnil. by rewrite Hnil in Hlast. Qed.

(** C8.  With a skip count of at least one, a step of a MaxAndSkip wrapper
    runs the inner step with the given action [k] times, [k] between 1 and
    the skip count, stopping at the first [done]; it returns the rewards
    added up in order, the [done] and info of the last inner step, and the
    element-wise maximum over the buffer, which then holds the last two raw
    observations (those of this call when [k] is at least 2).  With skip 4
    and the rewards 1, 2, 3, 4 the reward returned is 10 and the frame
    returned is the maximum of the third and fourth raw frames. *)
Theorem MaxAndSkipEnv_step_spec
    {R Info Space : Type} `{!RewardOps R} {St : Type} (E : Env Z R Info Space St)
    (w : MaxAndSkipEnv St) (action : Z) (Hskip : (0 < _skip w)%Z) :
  (exists k r env',
      stops_at E (Z.to_nat (_skip w)) k (ms_env w) action r env' /\
      let tr := run_steps E k (ms_env w) action in
      let buf' := last_two (_obs_buffer w ++ map (fun x => sr_obs x.1) tr) in
      MaxAndSkipEnv_step E w action =
        (match max_frame buf' with
         | Some frame =>
             Ok (frame, foldl radd rzero (map (fun x => sr_reward x.1) tr),
                 sr_done r, sr_info r)
         | None => Raise ValueError
         end,
         {| ms_env := env'; _obs_buffer := buf'; _skip := _skip w |}) /\
      (2 <= k -> buf' = last_two (map (fun x => sr_obs x.1) tr))) /\
  (forall calls : list (Call Z),
      exists k, 1 <= k <= Z.to_nat (_skip w) /\
        (ms_env (MaxAndSkipEnv_step (traced E)
                   {| ms_env := (ms_env w, calls); _obs_buffer := _obs_buffer w;
                      _skip := _skip w |} action).2).2
        = calls ++ replicate k (CStep action)) /\
  (forall a b : Obs,
      max_frame [a] = Some a /\
      (np.shape b = np.shape a -> max_frame [a; b] = Some (np.maximum a b))) /\
  (let E4 := counter_env 0 in
   let w4 := (MaxAndSkipEnv_reset E4 (MaxAndSkipEnv_init 0%Z 4%Z)).2 in
   map (fun x => (sr_obs x.1, sr_reward x.1)) (run_steps E4 4 0%Z 0%Z) =
     [(np.Array [np.Scalar 1; np.Scalar 9], 1); (np.Array [np.Scalar 2; np.Scalar 8], 2);
      (np.Array [np.Scalar 3; np.Scalar 7], 3); (np.Array [np.Scalar 4; np.Scalar 6], 4)]%Z /\
   (MaxAndSkipEnv_step E4 w4 0%Z).1 =
     Ok (np.Array [np.Scalar 4; np.Scalar 7], 10, false, tt)%Z).
Proof.
  assert (Hn : 0 < Z.to_nat (_skip w)) by lia.
  split; [|split; [|split]].
  - destruct (MaxAndSkipEnv_loop_spec E (Z.to_nat (_skip w)) action (ms_env w)
                (_obs_buffer w) rzero None Hn) as (k & r & env' & Hstop & Heq).
    exists k, r, env'. split; [done|]. cbn zeta.
    pose proof (stops_at_nonempty _ _ _ _ _ _ _ Hstop) as Hne.
    split.
    + unfold MaxAndSkipEnv_step. rewrite Heq.
      rewrite foldl_deque_append by (by destruct (run_steps E k (ms_env w) action)).
      by destruct (max_frame _).
    + intros Hk. apply last_two_app_ge.
      by rewrite length_map, run_steps_length.
  - intros calls.
    destruct (MaxAndSkipEnv_loop_spec (traced E) (Z.to_nat (_skip w)) action
                (ms_env w, calls) (_obs_buffer w) rzero None Hn)
      as (k & r & env' & Hstop & Heq).
    exists k. split; [apply Hstop|].
    unfold MaxAndSkipEnv_step. cbn [ms_env _obs_buffer _skip]. rewrite Heq.
    destruct Hstop as (_ & Hlast & _).
    apply (traced_run_steps E k (ms_env w) calls action) in Hlast.
    destruct (max_frame _); by cbn.
  - intros a b. split; [done|].
    intros Hshape. unfold max_frame. cbn.
    by rewrite bool_decide_true.
  - cbn zeta. split; reflexivity.
Qed.

Lemma MaxAndSkipEnv_step_spec_witness :
  (0 < _skip (MaxAndSkipEnv_init 0%Z 4%Z))%Z /\
  exists k r env',
    stops_at (counter_env 5) 4 k 0%Z 2%Z r env' /\
    (MaxAndSkipEnv_step (counter_env 5) (MaxAndSkipEnv_init 0%Z 4%Z) 2%Z).2
      = {| ms_env := env';
           _obs_buffer := last_two (map (fun x => sr_obs x.1)
                                      (run_steps (counter_env 5) k 0%Z 2%Z));
           _skip := 4%Z |}.
Proof.
  assert (H : (0 < _skip (MaxAndSkipEnv_init 0%Z 4%Z))%Z) by (cbn; lia).
  split; [exact H|].
  destruct (MaxAndSkipEnv_step_spec (counter_env 5) (MaxAndSkipEnv_init 0%Z 4%Z) 2%Z H)
    as ((k & r & env' & Hstop & Heq & _) & _).
  exists k, r, env'. split; [exact Hstop|].
  cbn zeta in Heq. rewrite Heq. reflexivity.
Defined.

Lemma skip_table_lookup (n_aux i : Z) :
  (0 <= i < n_aux - 1)%Z ->
  py_getitem (map (fun i => 2 ^ i)%Z (py_range 1 n_aux)) i = Ok (2 ^ (i + 1))%Z.
Proof.
  intros Hi. unfold py_getitem, py_range.
  change (map ?f ?l) with (f <$> l). cbn zeta.
  destruct (Z.ltb_spec i 0) as [?|_]; [lia|].
  destruct (Z.ltb_spec i 0) as [?|_]; [lia|].
  rewrite <- list_fmap_compose, list_lookup_fmap.
  rewrite (lookup_seq_lt 0 (Z.to_nat (n_aux - 1)) (Z.to_nat i)) by lia.
  cbn [fmap option_fmap option_map compose]. f_equal. f_equal. lia.
Qed.

Lemma skip_table_last (n_aux : Z) :
  (1 <= n_aux)%Z ->
  py_getitem (map (fun i => 2 ^ i)%Z (py_range 1 n_aux)) (n_aux - 1) = Raise IndexError.
Proof.
  intros Hn. unfold py_getitem, py_range.
  change (map ?f ?l) with (f <$> l). cbn zeta.
  destruct (Z.ltb_spec (n_aux - 1) 0) as [?|_]; [lia|].
  destruct (Z.ltb_spec (n_aux - 1) 0) as [?|_]; [lia|].
  rewrite <- list_fmap_compose, list_lookup_fmap.
  rewrite (lookup_seq_ge 0 (Z.to_nat (n_aux - 1)) (Z.to_nat (n_aux - 1))) by lia.
  done.
Qed.

(** C7, as the code has it.  A FrameSkipping wrapper with the skip table its
    constructor builds passes an action below [n_real_acts] through to the
    inner environment unchanged.  For the auxiliary action
    [n_real_acts + i], with [i] from 0 to [n_aux_acts - 2], it runs the
    inner step with the filler action [k] times, [k] between 1 and
    [2^(i+1)], stopping at the first [done], and returns the last
    observation, the rewards added up in order, and the last [done] and
    info. *)
Theorem FrameSkipping_step_spec
    {R Info Space : Type} `{!RewardOps R} {St : Type} (E : Env Z R Info Space St)
    (w : FrameSkipping St) (action : Z)
    (Htable : skip w = map (fun i => 2 ^ i)%Z (py_range 1 (n_aux_acts w))) :
  ((action < n_real_acts w)%Z ->
     FrameSkipping_step E w action =
       (Ok (env_step E (fs_env w) action).1, with_env w (env_step E (fs_env w) action).2)) /\
  (forall i : Z, (0 <= i < n_aux_acts w - 1)%Z -> action = (n_real_acts w + i)%Z ->
     (exists k r env',
        stops_at E (Z.to_nat (2 ^ (i + 1))) k (fs_env w) (repeat_act w) r env' /\
        FrameSkipping_step E w action =
          (Ok (sr_obs r,
               foldl radd rzero
                 (map (fun x => sr_reward x.1) (run_steps E k (fs_env w) (repeat_act w))),
               sr_done r, sr_info r),
           with_env w env')) /\
     (forall calls : list (Call Z),
        exists k, 1 <= k <= Z.to_nat (2 ^ (i + 1)) /\
          (fs_env (FrameSkipping_step (traced E)
                     {| fs_env := (fs_env w, calls); n_real_acts := n_real_acts w;
                        n_aux_acts := n_aux_acts w; skip := skip w;
                        repeat_act := repeat_act w |} action).2).2
          = calls ++ replicate k (CStep (repeat_act w)))).
Proof.
  split.
  - intros Hlt. unfold FrameSkipping_step.
    replace (action <? n_real_acts w)%Z with true by lia.
    by destruct (env_step E (fs_env w) action) as [[[[obs reward] done] info] env'].
  - intros i Hi ->.
    assert (Hn : 0 < Z.to_nat (2 ^ (i + 1))).
    { assert (0 < 2 ^ (i + 1))%Z by (apply Z.pow_pos_nonneg; lia). lia. }
    assert (Hget : py_getitem (skip w) (n_real_acts w + i - n_real_acts w) = Ok (2 ^ (i + 1))%Z).
    { rewrite Htable. replace (n_real_acts w + i - n_real_acts w)%Z with i by lia.
      by apply skip_table_lookup. }
    split.
    + destruct (FrameSkipping_loop_spec E _ (repeat_act w) (fs_env w) rzero None Hn)
        as (k & r & env' & Hstop & Heq).
      exists k, r, env'. split; [done|].
      unfold FrameSkipping_step.
      replace (n_real_acts w + i <? n_real_acts w)%Z with false by lia.
      by rewrite Hget, Heq.
    + intros calls.
      destruct (FrameSkipping_loop_spec (traced E) _ (repeat_act w) (fs_env w, calls)
                  rzero None Hn) as (k & r & env' & Hstop & Heq).
      exists k. split; [apply Hstop|].
      unfold FrameSkipping_step. cbn [with_env n_real_acts skip repeat_act fs_env].
      replace (n_real_acts w + i <? n_real_acts w)%Z with false by lia.
      rewrite Hget, Heq. cbn.
      destruct Hstop as (_ & Hlast & _).
      by apply (traced_run_steps E k (fs_env w) calls (repeat_act w)) in Hlast.
Qed.

Lemma FrameSkipping_step_spec_witness :
  let E := counter_env 0 in
  let w := FrameSkipping_init E 0%Z 3%Z 0%Z in
  skip w = map (fun i => 2 ^ i)%Z (py_range 1 (n_aux_acts w)) /\
  (FrameSkipping_step E w 3%Z).1 = Ok (env_step E 0%Z 3%Z).1 /\
  exists k, 1 <= k <= 4 /\
    (fs_env (FrameSkipping_step (traced E)
               (FrameSkipping_init (traced E) (0%Z, []) 3%Z 0%Z) 5%Z).2).2
    = replicate k (CStep 0%Z).
Proof.
  cbn zeta.
  assert (Htable : skip (FrameSkipping_init (counter_env 0) 0%Z 3%Z 0%Z) =
                   map (fun i => 2 ^ i)%Z
                     (py_range 1 (n_aux_acts (FrameSkipping_init (counter_env 0) 0%Z 3%Z 0%Z))))
    by reflexivity.
  split; [exact Htable|]. split.
  - destruct (FrameSkipping_step_spec (counter_env 0) _ 3%Z Htable) as [Hpass _].
    rewrite Hpass; [reflexivity|cbn; lia].
  - destruct (FrameSkipping_step_spec (counter_env 0) _ 5%Z Htable) as [_ Haux].
    destruct (Haux 1%Z) as [_ Hcalls]; [cbn; lia|reflexivity|].
    exact (Hcalls []).
Defined.

(** C7, as stated, fails: with three auxiliary actions the
    skip table is 2, 4; the auxiliary action of index 0 runs the filler
    action twice, not [2^0] times, and the one of index 2 finds no entry. *)
Lemma FrameSkipping_first_aux_runs_twice :
  let E := traced (counter_env 0) in
  let w := FrameSkipping_init E (0%Z, []) 3%Z 0%Z in
  let out := FrameSkipping_step E w (n_real_acts w + 0)%Z in
  n_real_acts w = 4%Z /\
  skip w = [2; 4]%Z /\
  out.1 = Ok (np.Array [np.Scalar 2; np.Scalar 8], 3, false, tt)%Z /\
  (fs_env out.2).2 = [CStep 0%Z; CStep 0%Z] /\
  (fs_env out.2).2 <> replicate (Z.to_nat (2 ^ 0)) (CStep 0%Z) /\
  (FrameSkipping_step E w (n_real_acts w + 2)%Z).1 = Raise IndexError.
Proof.
  cbn zeta. repeat split; try reflexivity. discriminate.
Qed.

(** ** The executor: workers on their own *)

Section WorkerProperties.
Context {Act R Info Space St : Type}.
Variable E : Env Act R Info Space St.

Implicit Types (p : Proc (St := St)) (i : list (msg (Act := Act)))
  (w : Worker (Act := Act) (R := R) (Info := Info) (Space := Space) (St := St)).

Lemma boot_not_started p : not_started (boot p).
Proof. by destruct p as [f|[env|e]| | |]. Qed.

Lemma boot_id p : not_started p -> boot p = p.
Proof. by destruct p. Qed.

Lemma worker_handle_not_started env m :
  not_started (worker_handle E env m).1.
Proof.
  unfold worker_handle. destruct m as [cmd data].
  repeat case_match; by cbn.
Qed.

Lemma feed_not_running p i :
  (forall env, p <> Running env) -> feed E p i = (p, i, []).
Proof. intros Hp. destruct i; [done|]. destruct p; by try (by exfalso; eapply Hp). Qed.

Lemma feed_not_started i : forall p,
  not_started p -> not_started (feed E p i).1.1.
Proof.
  induction i as [|m i IH]; intros p Hp; [done|].
  destruct p as [f|f|env| |e]; try done. cbn.
  pose proof (worker_handle_not_started env m) as Hh.
  destruct (worker_handle E env m) as [p1 r].
  specialize (IH p1 Hh). by destruct (feed E p1 i) as [[p2 i2] rs].
Qed.

Lemma feed_app i : forall p j,
  feed E p (i ++ j) =
    let '(p1, i1, rs1) := feed E p i in
    let '(p2, i2, rs2) := feed E p1 (i1 ++ j) in
    (p2, i2, rs1 ++ rs2).
Proof.
  induction i as [|m i IH]; intros p j.
  - cbn. by destruct (feed E p j) as [[p2 i2] rs2].
  - destruct p as [f|f|env| |e]; cbn; try done.
    destruct (worker_handle E env m) as [p1 r].
    rewrite IH. destruct (feed E p1 i) as [[p2 i2] rs2].
    destruct (feed E p2 (i2 ++ j)) as [[p3 i3] rs3].
    by rewrite app_assoc.
Qed.

Lemma feed_idem i : forall p,
  feed E (feed E p i).1.1 (feed E p i).1.2 = ((feed E p i).1.1, (feed E p i).1.2, []).
Proof.
  induction i as [|m i IH]; intros p; [done|].
  destruct p as [f|f|env| |e]; try done. cbn.
  destruct (worker_handle E env m) as [p1 r].
  specialize (IH p1). by destruct (feed E p1 i) as [[p2 i2] rs].
Qed.

Lemma flush_worker_eq w :
  flush_worker E w =
    {| proc := (feed E (boot (proc w)) (inbox w)).1.1;
       inbox := (feed E (boot (proc w)) (inbox w)).1.2;
       outbox := outbox w ++ (feed E (boot (proc w)) (inbox w)).2 |}.
Proof. unfold flush_worker. by destruct (feed E _ _) as [[p i] rs]. Qed.

Lemma flush_worker_idem w : flush_worker E (flush_worker E w) = flush_worker E w.
Proof.
  rewrite (flush_worker_eq (flush_worker E w)), (flush_worker_eq w). cbn.
  rewrite boot_id by (apply feed_not_started, boot_not_started).
  rewrite feed_idem. cbn. by rewrite app_nil_r.
Qed.

(** A step of a worker does not change what the worker comes to. *)
Lemma flush_worker_step w w' :
  worker_step E w = Some w' -> flush_worker E w' = flush_worker E w.
Proof.
  unfold worker_step. destruct w as [p i o]. cbn.
  destruct p as [f|f|env| |e]; try done.
  - intros [= <-]. rewrite !flush_worker_eq. by destruct f.
  - destruct i as [|m i]; [done|].
    pose proof (worker_handle_not_started env m) as Hh.
    destruct (worker_handle E env m) as [p1 r] eqn:Hhandle.
    intros [= <-]. rewrite !flush_worker_eq. cbn. rewrite Hhandle.
    rewrite boot_id by done.
    destruct (feed E p1 i) as [[p2 i2] rs]. cbn. by rewrite app_assoc.
Qed.

(** A command sent early and one sent late come to the same. *)
Lemma flush_worker_send w m :
  flush_worker E {| proc := proc (flush_worker E w);
                    inbox := inbox (flush_worker E w) ++ [m];
                    outbox := outbox (flush_worker E w) |} =
  flush_worker E {| proc := proc w; inbox := inbox w ++ [m]; outbox := outbox w |}.
Proof.
  rewrite (flush_worker_eq w), !flush_worker_eq. cbn.
  rewrite (boot_id (feed E _ _).1.1) by (apply feed_not_started, boot_not_started).
  rewrite (feed_app (inbox w)).
  destruct (feed E (boot (proc w)) (inbox w)) as [[p1 i1] rs1]. cbn.
  destruct (feed E p1 (i1 ++ [m])) as [[p2 i2] rs2]. cbn.
  by rewrite app_assoc.
Qed.

Lemma flush_worker_created f i o :
  flush_worker E {| proc := Created f; inbox := i; outbox := o |} =
  {| proc := Created f; inbox := i; outbox := o |}.
Proof.
  rewrite flush_worker_eq. cbn. rewrite feed_not_running by done.
  cbn. by rewrite app_nil_r.
Qed.

Lemma flush_worker_finished w :
  finished (proc w) = true -> flush_worker E w = w.
Proof.
  destruct w as [p i o]. cbn. intros Hp.
  rewrite flush_worker_eq. cbn.
  rewrite boot_id by (by destruct p).
  rewrite feed_not_running by (by destruct p).
  cbn. by rewrite app_nil_r.
Qed.

Lemma flush_worker_waiting env o :
  flush_worker E {| proc := Running env; inbox := []; outbox := o |} =
  {| proc := Running env; inbox := []; outbox := o |}.
Proof. rewrite flush_worker_eq. cbn. by rewrite app_nil_r. Qed.

Lemma flush_worker_pop p i r o :
  flush_worker E {| proc := p; inbox := i; outbox := r :: o |} =
    {| proc := proc (flush_worker E {| proc := p; inbox := i; outbox := o |});
       inbox := inbox (flush_worker E {| proc := p; inbox := i; outbox := o |});
       outbox := r :: outbox (flush_worker E {| proc := p; inbox := i; outbox := o |}) |}.
Proof. by rewrite !flush_worker_eq. Qed.

Lemma worker_eta w : {| proc := proc w; inbox := inbox w; outbox := outbox w |} = w.
Proof. by destruct w. Qed.

End WorkerProperties.

(** ** The executor: any schedule comes to what the eager one comes to *)

Section SystemProperties.
Context {Act R Info Space St : Type}.
Variable E : Env Act R Info Space St.
Variable start_ok : nat -> bool.

Implicit Types (s : Sys (Act := Act) (R := R) (Info := Info) (Space := Space) (St := St)).

Lemma flush_lookup s k :
  workers (flush E s) !! k = flush_worker E <$> workers s !! k.
Proof. cbn. change (map ?f ?l) with (f <$> l). apply list_lookup_fmap. Qed.

Lemma flush_set_worker s k w :
  flush E (set_worker s k w) = set_worker (flush E s) k (flush_worker E w).
Proof.
  unfold flush, set_worker. cbn. f_equal.
  change (map ?f ?l) with (f <$> l). apply list_fmap_insert.
Qed.

Lemma flush_log s e : flush E (log s e) = log (flush E s) e.
Proof. done. Qed.

Lemma set_worker_twice s k w w' :
  set_worker (set_worker s k w) k w' = set_worker s k w'.
Proof. unfold set_worker. cbn. f_equal. apply list_insert_insert_eq. Qed.

Lemma flush_idem s : flush E (flush E s) = flush E s.
Proof.
  unfold flush. cbn. f_equal. rewrite map_map.
  apply map_ext. intros w. apply flush_worker_idem.
Qed.

Lemma flush_set_flushed s k w :
  flush E (set_worker (flush E s) k w) = flush E (set_worker s k w).
Proof. by rewrite !flush_set_worker, flush_idem. Qed.

Lemma do_send_flush s k m s' :
  do_send s k m = Some s' ->
  exists s'', do_send (flush E s) k m = Some s'' /\ flush E s'' = flush E s'.
Proof.
  unfold do_send. rewrite flush_lookup.
  destruct (workers s !! k) as [w|]; [|done]. intros [= <-]. cbn.
  eexists. split; [done|].
  rewrite !flush_log, flush_set_flushed, !flush_set_worker.
  by rewrite flush_worker_send.
Qed.

Lemma do_recv_flush s k r s' :
  do_recv s k = Some (r, s') -> do_recv (flush E s) k = Some (r, flush E s').
Proof.
  unfold do_recv. rewrite flush_lookup.
  destruct (workers s !! k) as [[p i [|r' o]]|]; try done. intros [= <- <-]. cbn.
  rewrite flush_worker_pop, worker_eta.
  by rewrite flush_log, flush_set_worker.
Qed.

Lemma do_start_flush s k b s' :
  do_start start_ok s k = Some (b, s') ->
  exists s'', do_start start_ok (flush E s) k = Some (b, s'') /\ flush E s'' = flush E s'.
Proof.
  unfold do_start. rewrite flush_lookup.
  destruct (workers s !! k) as [[[f|f|env| |e] i o]|]; try done. cbn.
  rewrite flush_worker_created.
  destruct (start_ok k); intros [= <- <-].
  - eexists. split; [done|].
    by rewrite !flush_log, flush_set_flushed.
  - eexists. split; [done|]. by rewrite flush_idem.
Qed.

Lemma do_join_flush s k s' :
  do_join s k = Some s' -> do_join (flush E s) k = Some (flush E s').
Proof.
  unfold do_join. rewrite flush_lookup.
  destruct (workers s !! k) as [w|]; [|done]. cbn.
  destruct (finished (proc w)) eqn:Hfin; [|done]. intros [= <-].
  by rewrite flush_worker_finished, Hfin.
Qed.

Lemma sys_worker_step_flush k s s' :
  sys_worker_step E k s = Some s' -> flush E s' = flush E s.
Proof.
  unfold sys_worker_step.
  destruct (workers s !! k) as [w|] eqn:Hk; [|done]. cbn.
  destruct (worker_step E w) as [w'|] eqn:Hw; [|done]. intros [= <-].
  rewrite flush_set_worker, (flush_worker_step E w w') by done.
  unfold set_worker, flush. cbn. f_equal.
  apply list_insert_id. change (map ?f ?l) with (f <$> l).
  by rewrite list_lookup_fmap, Hk.
Qed.

(** The eager run of the coordinator from a configuration is the eager
    run from any configuration one step later. *)
Lemma seq_exec_step {A : Type} (x y : Coord A * Sys) :
  sys_step E start_ok x y ->
  seq_exec E start_ok x.1 (flush E x.2) = seq_exec E start_ok y.1 (flush E y.2).
Proof.
  intros [c s c' s' Hstep|k c s s' Hstep]; cbn [fst snd].
  - destruct c as [a|e|k next|k m next|k next|k next]; cbn in Hstep; try done.
    + destruct (do_start start_ok s k) as [[b s1]|] eqn:Hs; [|done].
      destruct (do_start_flush _ _ _ _ Hs) as (s2 & Hs2 & Heq).
      cbn. rewrite Hs2.
      destruct b; injection Hstep as <- <-; [by rewrite Heq|].
      cbn. unfold do_start in Hs, Hs2.
      repeat case_match; simplify_eq. done.
    + destruct (do_send s k m) as [s1|] eqn:Hs; [|done].
      destruct (do_send_flush _ _ _ _ Hs) as (s2 & Hs2 & Heq).
      cbn in *. rewrite Hs2. injection Hstep as <- <-. by rewrite Heq.
    + destruct (do_recv s k) as [[r s1]|] eqn:Hs; [|done].
      cbn in *. rewrite (do_recv_flush _ _ _ _ Hs). by injection Hstep as <- <-.
    + destruct (do_join s k) as [s1|] eqn:Hs; [|done].
      cbn in *. rewrite (do_join_flush _ _ _ Hs). by injection Hstep as <- <-.
  - by rewrite (sys_worker_step_flush _ _ _ Hstep).
Qed.

Theorem seq_exec_steps {A : Type} (x y : Coord A * Sys) :
  rtc (sys_step E start_ok) x y ->
  seq_exec E start_ok x.1 (flush E x.2) = seq_exec E start_ok y.1 (flush E y.2).
Proof.
  induction 1 as [|x y z Hstep _ IH]; [done|].
  by rewrite (seq_exec_step x y).
Qed.

(** *** The eager schedule is a schedule *)

Lemma feed_steps i : forall p o,
  not_started p ->
  rtc (fun w w' => worker_step E w = Some w')
    {| proc := p; inbox := i; outbox := o |}
    {| proc := (feed E p i).1.1; inbox := (feed E p i).1.2;
       outbox := o ++ (feed E p i).2 |}.
Proof.
  induction i as [|m i IH]; intros p o Hp.
  - cbn. rewrite app_nil_r. done.
  - destruct p as [f|f|env| |e]; cbn; try done; try (rewrite app_nil_r; done).
    pose proof (worker_handle_not_started E env m) as Hh.
    destruct (worker_handle E env m) as [p1 r] eqn:Hhandle.
    eapply rtc_l.
    { unfold worker_step. cbn. by rewrite Hhandle. }
    specialize (IH p1 (o ++ option_list r) Hh).
    destruct (feed E p1 i) as [[p2 i2] rs]. cbn in *.
    by rewrite app_assoc.
Qed.

Lemma worker_steps_flush (w : Worker) :
  rtc (fun w w' => worker_step E w = Some w') w (flush_worker E w).
Proof.
  rewrite flush_worker_eq. destruct w as [p i o]. cbn.
  destruct p as [f|f|env| |e]; try (apply feed_steps; done).
  eapply rtc_l; [done|].
  apply feed_steps, boot_not_started.
Qed.

Lemma set_worker_id s k w : workers s !! k = Some w -> set_worker s k w = s.
Proof.
  intros Hk. destruct s as [ws t]. unfold set_worker. cbn in *.
  f_equal. by apply list_insert_id.
Qed.

Lemma sys_steps_worker {A : Type} (c : Coord A) k w w' :
  rtc (fun w w' => worker_step E w = Some w') w w' ->
  forall s, workers s !! k = Some w ->
    rtc (sys_step E start_ok) (c, s) (c, set_worker s k w').
Proof.
  induction 1 as [w|w w1 w2 Hstep _ IH]; intros s Hk.
  - by rewrite set_worker_id.
  - eapply rtc_l.
    { apply (step_worker E start_ok k). unfold sys_worker_step.
      rewrite Hk. cbn. by rewrite Hstep. }
    rewrite <- (set_worker_twice s k w1 w2). apply IH.
    cbn. apply list_lookup_insert_eq. by eapply lookup_lt_Some.
Qed.

Lemma sys_steps_flush_upto {A : Type} (c : Coord A) s n :
  n <= length (workers s) ->
  rtc (sys_step E start_ok) (c, s)
    (c, {| workers := (flush_worker E <$> take n (workers s)) ++ drop n (workers s);
           trace := trace s |}).
Proof.
  induction n as [|n IH]; intros Hn.
  - cbn. rewrite drop_0. by destruct s.
  - etrans; [apply IH; lia|].
    destruct (lookup_lt_is_Some_2 (workers s) n) as [w Hw]; [lia|].
    assert (Hlen : length (flush_worker E <$> take n (workers s)) = n).
    { rewrite length_fmap, length_take. lia. }
    rewrite (take_S_r _ _ _ Hw), fmap_app, <- app_assoc.
    rewrite (drop_S _ _ _ Hw). cbn.
    pose proof (sys_steps_worker c n w _ (worker_steps_flush w)
                  {| workers := (flush_worker E <$> take n (workers s)) ++
                                w :: drop (S n) (workers s);
                     trace := trace s |}) as Hsteps.
    unfold set_worker in Hsteps. cbn in Hsteps.
    rewrite insert_app_r_alt in Hsteps by lia.
    rewrite Hlen, Nat.sub_diag in Hsteps. cbn in Hsteps.
    apply Hsteps.
    rewrite lookup_app_r by lia. by rewrite Hlen, Nat.sub_diag.
Qed.

Lemma sys_steps_flush {A : Type} (c : Coord A) s :
  rtc (sys_step E start_ok) (c, s) (c, flush E s).
Proof.
  pose proof (sys_steps_flush_upto c s (length (workers s)) (le_n _)) as H.
  by rewrite firstn_all, drop_all, app_nil_r in H.
Qed.

Theorem seq_exec_reached {A : Type} (c : Coord A) : forall s,
  rtc (sys_step E start_ok) (c, s) (seq_exec E start_ok c s).
Proof.
  induction c as [a|e|k next IH|k m next IH|k next IH|k next IH]; intros s; cbn;
    try done.
  - destruct (do_start start_ok s k) as [[[] s1]|] eqn:Hs; [| |done].
    + eapply rtc_l; [apply step_coord; cbn; by rewrite Hs|].
      etrans; [apply sys_steps_flush|apply IH].
    + apply rtc_once, step_coord. cbn. by rewrite Hs.
  - destruct (do_send s k m) as [s1|] eqn:Hs; [|done].
    eapply rtc_l; [apply step_coord; cbn; by rewrite Hs|].
    etrans; [apply sys_steps_flush|apply IH].
  - destruct (do_recv s k) as [[r s1]|] eqn:Hs; [|done].
    eapply rtc_l; [apply step_coord; cbn; by rewrite Hs|]. apply IH.
  - destruct (do_join s k) as [s1|] eqn:Hs; [|done].
    eapply rtc_l; [apply step_coord; cbn; by rewrite Hs|]. apply IH.
Qed.

(** *** The eager run of a compound program *)

Lemma seq_exec_bind {A B : Type} (c : Coord A) (f : A -> Coord B) : forall s,
  seq_exec E start_ok (bind c f) s =
    match (seq_exec E start_ok c s).1 with
    | Ret a => seq_exec E start_ok (f a) (seq_exec E start_ok c s).2
    | c' => (bind c' f, (seq_exec E start_ok c s).2)
    end.
Proof.
  induction c as [a|e|k next IH|k m next IH|k next IH|k next IH]; intros s; cbn;
    try done.
  - destruct (do_start start_ok s k) as [[[] s1]|]; by try apply IH.
  - destruct (do_send s k m) as [s1|]; by try apply IH.
  - destruct (do_recv s k) as [[r s1]|]; by try apply IH.
  - destruct (do_join s k) as [s1|]; by try apply IH.
Qed.

Lemma seq_exec_trace {A : Type} (c : Coord A) : forall s,
  trace s `prefix_of` trace (seq_exec E start_ok c s).2.
Proof.
  induction c as [a|e|k next IH|k m next IH|k next IH|k next IH]; intros s; cbn;
    try done.
  - unfold do_start. repeat case_match; simplify_eq; try done.
    etrans; [|apply IH]. cbn. by apply prefix_app_r.
  - unfold do_send. repeat case_match; simplify_eq; try done.
    etrans; [|apply IH]. cbn. by apply prefix_app_r.
  - unfold do_recv. repeat case_match; simplify_eq; try done.
    etrans; [|apply IH]. cbn. by apply prefix_app_r.
  - unfold do_join. repeat case_match; simplify_eq; try done.
    etrans; [|apply IH]. cbn. by apply prefix_app_r.
Qed.

End SystemProperties.

Section ProgramProperties.
Context {Act R Info Space St : Type}.
Variable E : Env Act R Info Space St.
Variable start_ok : nat -> bool.

Implicit Types (s : Sys (Act := Act) (R := R) (Info := Info) (Space := Space) (St := St))
  (done todo : list (Worker (Act := Act) (R := R) (Info := Info) (Space := Space) (St := St))).
#[local] Abbreviation Prog := (Coord (Act := Act) (R := R) (Info := Info) (Space := Space)).

Lemma flush_worker_handled env m o :
  flush_worker E {| proc := Running env; inbox := [m]; outbox := o |} =
  {| proc := (worker_handle E env m).1; inbox := [];
     outbox := o ++ option_list (worker_handle E env m).2 |}.
Proof.
  rewrite flush_worker_eq. cbn.
  destruct (worker_handle E env m) as [p r]. cbn. by rewrite app_nil_r.
Qed.

Lemma flush_worker_handled_id env m :
  flush_worker E (handled E env m) = handled E env m.
Proof.
  rewrite flush_worker_eq. unfold handled. cbn.
  rewrite boot_id by apply worker_handle_not_started.
  cbn. by rewrite app_nil_r.
Qed.

(** The sends of a fan-out, run eagerly from workers that wait. *)
Lemma seq_exec_send_all {X A : Type} (key : X -> nat) (mk : X -> msg)
    (f : unit -> Coord A) (l : list X) :
  forall (envs : list St) done t,
    map key l = seq (length done) (length l) ->
    length envs = length l ->
    Forall (fun w => flush_worker E w = w) done ->
    seq_exec E start_ok (bind (for_each l (fun x => send (key x) (mk x))) f)
      {| workers := done ++ map waiting envs; trace := t |} =
    seq_exec E start_ok (f tt)
      {| workers := done ++ zip_with (fun env x => handled E env (mk x)) envs l;
         trace := t ++ map (fun x => ESend (key x) (mk x)) l |}.
Proof.
  induction l as [|x l IH]; intros envs done t Hkeys Hlen Hdone.
  - destruct envs; [|done]. cbn. by rewrite !app_nil_r.
  - destruct envs as [|env envs]; [done|]. cbn in Hkeys, Hlen.
    injection Hkeys as Hkey Hkeys. injection Hlen as Hlen.
    cbn [for_each send bind seq_exec map zip_with].
    unfold do_send. cbn [workers].
    rewrite lookup_app_r by lia. rewrite Hkey, Nat.sub_diag. cbn.
    unfold flush, log, set_worker. cbn [workers trace].
    rewrite insert_app_r_alt by lia. rewrite Nat.sub_diag. cbn [insert list_insert].
    rewrite map_app. cbn [map].
    rewrite flush_worker_handled. cbn [app]. fold (handled E env (mk x)).
    replace (map (flush_worker E) done) with done.
    2:{ symmetry. clear -Hdone. induction Hdone as [|w done Hw _ IHd]; [done|].
        cbn. by rewrite Hw, IHd. }
    replace (map (flush_worker E) (map waiting envs)) with (map (waiting (R := R) (Info := Info) (Space := Space) (Act := Act)) envs).
    2:{ rewrite map_map. apply map_ext. intros e. symmetry. apply flush_worker_waiting. }
    specialize (IH envs (done ++ [handled E env (mk x)]) (t ++ [ESend (length done) (mk x)])).
    rewrite <- !app_assoc in IH. cbn in IH.
    rewrite IH; [done| | |].
    + rewrite length_app. cbn. by rewrite Nat.add_1_r.
    + done.
    + apply Forall_app. split; [done|]. constructor; [|done].
      apply flush_worker_handled_id.
Qed.


(** The receives of a fan-in, run eagerly when every reply is there. *)
Lemma seq_exec_recv_all todo : forall done t (rs : list Reply),
  Forall2 (fun w r => exists o, outbox w = r :: o) todo rs ->
  seq_exec E start_ok (collect (seq (length done) (length todo)) recv)
    {| workers := done ++ todo; trace := t |} =
  (Ret rs,
   {| workers := done ++ map taken todo;
      trace := t ++ zip_with ERecv (seq (length done) (length todo)) rs |}).
Proof.
  induction todo as [|w todo IH]; intros done t rs Hrs.
  - apply Forall2_nil_inv_l in Hrs as ->. cbn. by rewrite !app_nil_r.
  - apply Forall2_cons_inv_l in Hrs as (r & rs' & [o Ho] & Hrs & ->).
    destruct w as [p i ob]. cbn in Ho. subst ob.
    cbn [length seq collect recv bind seq_exec].
    unfold do_recv. cbn [workers].
    rewrite lookup_app_r by lia. rewrite Nat.sub_diag. cbn [lookup list_lookup].
    rewrite seq_exec_bind.
    unfold log, set_worker. cbn [workers trace].
    rewrite insert_app_r_alt by lia. rewrite Nat.sub_diag. cbn [insert list_insert].
    specialize (IH (done ++ [{| proc := p; inbox := i; outbox := o |}])
                  (t ++ [ERecv (length done) r]) rs' Hrs).
    rewrite length_app, Nat.add_1_r, <- !app_assoc in IH. cbn [app] in IH.
    rewrite IH. cbn. done.
Qed.

Lemma returned_bind {A B : Type} (c : Prog A) (f : A -> Prog B) :
  returned c = false -> returned (bind c f) = false.
Proof. by destruct c. Qed.

(** A fan-in with a reply missing does not get past it. *)
Lemma seq_exec_recv_blocked todo : forall done t,
  Exists (fun w => outbox w = []) todo ->
  returned (seq_exec E start_ok (collect (seq (length done) (length todo)) recv)
              {| workers := done ++ todo; trace := t |}).1 = false.
Proof.
  induction todo as [|w todo IH]; intros done t Hex.
  - by apply Exists_nil in Hex.
  - destruct w as [p i [|r o]].
    + cbn [length seq collect recv bind seq_exec].
      unfold do_recv. cbn [workers].
      rewrite lookup_app_r by lia. rewrite Nat.sub_diag. done.
    + apply Exists_cons in Hex as [Hex|Hex]; [done|].
      cbn [length seq collect recv bind seq_exec].
      unfold do_recv. cbn [workers].
      rewrite lookup_app_r by lia. rewrite Nat.sub_diag. cbn [lookup list_lookup].
      rewrite seq_exec_bind.
      unfold log, set_worker. cbn [workers trace].
      rewrite insert_app_r_alt by lia. rewrite Nat.sub_diag. cbn [insert list_insert].
      specialize (IH (done ++ [{| proc := p; inbox := i; outbox := o |}])
                    (t ++ [ERecv (length done) r]) Hex).
      rewrite length_app, Nat.add_1_r, <- !app_assoc in IH. cbn [app] in IH.
      destruct (seq_exec E start_ok _ _) as [c' s'] eqn:Hrun. cbn in *.
      by destruct c'.
Qed.


Lemma seq_exec_returned {A : Type} (c : Prog A) s :
  returned c = true -> seq_exec E start_ok c s = (c, s).
Proof. by destruct c. Qed.

Lemma step_return_returned (rs : list (Reply (R := R) (Info := Info) (Space := Space))) :
  returned (step_return (Act := Act) rs) = true.
Proof. unfold step_return. by repeat case_match. Qed.

Lemma stack_replies_returned {B : Type}
    (get : Reply (R := R) (Info := Info) (Space := Space) -> option (np.ndarray B))
    (rs : list Reply) :
  returned (stack_replies (Act := Act) (R := R) (Info := Info) (Space := Space) get rs) = true.
Proof. unfold stack_replies. by case_match. Qed.

Lemma handled_step env a :
  handled E env ("step", a) =
    {| proc := Running (step_reply E env a).2; inbox := [];
       outbox := [RStep (step_reply E env a).1] |}.
Proof.
  unfold handled, step_reply, worker_handle. cbn.
  destruct (env_step E env a) as [[[[ob reward] done] info] env1].
  by destruct (if done then env_reset E env1 else (ob, env1)) as [ob' env2].
Qed.

Lemma zip_with_zip_snd {X Y Z' W : Type} (g : X -> Z' -> W) (xs : list X) :
  forall (ks : list Y) (zs : list Z'),
    length ks = length zs ->
    zip_with (fun x kz => g x kz.2) xs (zip ks zs) = zip_with g xs zs.
Proof.
  induction xs as [|x xs IH]; intros [|k ks] [|z zs] Hlen; try done.
  cbn. f_equal. apply IH. by injection Hlen.
Qed.

Lemma seq_exec_step_call (self : SubprocVecEnv) envs actions s :
  idle envs s -> remotes self = seq 0 (length envs) -> length actions = length envs ->
  seq_exec E start_ok (SubprocVecEnv_step self actions) s =
    (step_return (map RStep (step_replies E envs actions)),
     {| workers := map waiting (advance E envs actions);
        trace := (trace s ++
                  map (fun ra => ESend ra.1 ("step", ra.2)) (zip (seq 0 (length envs)) actions)) ++
                 zip_with ERecv (seq 0 (length envs)) (map RStep (step_replies E envs actions)) |}).
Proof.
  destruct s as [ws t]. unfold idle. cbn. intros -> Hrem Hlen.
  unfold SubprocVecEnv_step. rewrite Hrem.
  pose proof (seq_exec_send_all (X := nat * Act) fst (fun ra => ("step", ra.2))
                (fun _ => bind (collect (seq 0 (length envs)) recv) step_return)
                (zip (seq 0 (length envs)) actions) envs [] t) as Hsend.
  cbn [app length] in Hsend. rewrite Hsend; clear Hsend.
  - rewrite seq_exec_bind.
    rewrite (zip_with_zip_snd (fun env a => handled E env ("step", a)))
      by (by rewrite length_seq).
    pose proof (seq_exec_recv_all
                  (zip_with (fun env a => handled E env ("step", a)) envs actions) []
                  (t ++ map (fun ra => ESend ra.1 ("step", ra.2))
                          (zip (seq 0 (length envs)) actions))
                  (map RStep (step_replies E envs actions))) as Hrecv.
    rewrite length_zip_with, Hlen, Nat.min_id in Hrecv.
    cbn [app length] in Hrecv. rewrite Hrecv; clear Hrecv.
    + cbn [fst snd]. rewrite seq_exec_returned by apply step_return_returned.
      f_equal. f_equal.
      unfold advance. clear. revert actions.
      induction envs as [|env envs IH]; intros [|a actions]; try done.
      cbn. rewrite IH. by rewrite handled_step.
    + unfold step_replies. clear. revert actions.
      induction envs as [|env envs IH]; intros [|a actions]; cbn; try constructor.
      * rewrite handled_step. by eexists.
      * apply IH.
  - change (map fst ?l) with (l.*1).
    rewrite fst_zip by (rewrite length_seq; lia).
    rewrite length_zip, length_seq. f_equal. lia.
  - rewrite length_zip, length_seq. lia.
  - done.
Qed.


(** *** Calls on a system at rest *)

Lemma flush_idle envs s : idle envs s -> flush E s = s.
Proof.
  destruct s as [ws t]. unfold idle, flush. cbn. intros ->. f_equal.
  rewrite map_map. apply map_ext. intros env. apply flush_worker_waiting.
Qed.

Lemma idle_at_rest envs s : idle envs s -> at_rest E envs s.
Proof. intros Hidle. unfold at_rest. by rewrite (flush_idle envs s). Qed.

(** A call comes to the result of its eager run whatever the schedule,
    and can always be brought to it. *)
Lemma call_complete {A : Type} (c : Prog A) s c' s' :
  rtc (sys_step E start_ok) (c, s) (c', s') ->
  (returned c' = true ->
     c' = (seq_exec E start_ok c (flush E s)).1 /\
     flush E s' = (seq_exec E start_ok c (flush E s)).2) /\
  rtc (sys_step E start_ok) (c', s') (seq_exec E start_ok c (flush E s)).
Proof.
  intros Hrun.
  pose proof (seq_exec_steps E start_ok _ _ Hrun) as Heq. cbn in Heq. split.
  - intros Hret. rewrite (seq_exec_returned c' _ Hret) in Heq.
    by rewrite Heq.
  - rewrite Heq.
    etrans; [apply sys_steps_flush|apply seq_exec_reached].
Qed.

Lemma never_returns {A : Type} (c : Prog A) s :
  returned (seq_exec E start_ok c (flush E s)).1 = false ->
  forall c' s', rtc (sys_step E start_ok) (c, s) (c', s') -> returned c' = false.
Proof.
  intros Hblocked c' s' Hrun.
  destruct (call_complete c s c' s' Hrun) as [Hret _].
  destruct (returned c') eqn:Hc; [|done].
  destruct (Hret eq_refl) as [-> _]. by rewrite Hblocked in Hc.
Qed.

Lemma step_call_complete (self : SubprocVecEnv) envs actions s c' s' :
  at_rest E envs s -> remotes self = seq 0 (length envs) -> length actions = length envs ->
  rtc (sys_step E start_ok) (SubprocVecEnv_step self actions, s) (c', s') ->
  (returned c' = true ->
     c' = step_return (map RStep (step_replies E envs actions)) /\
     at_rest E (advance E envs actions) s') /\
  (exists s'', at_rest E (advance E envs actions) s'' /\
     rtc (sys_step E start_ok) (c', s')
       (step_return (map RStep (step_replies E envs actions)), s'')).
Proof.
  intros Hrest Hrem Hlen Hrun.
  destruct (call_complete _ _ _ _ Hrun) as [Hret Hcan].
  rewrite (seq_exec_step_call self envs actions (flush E s)) in Hret, Hcan by done.
  split.
  - intros Hr. destruct (Hret Hr) as [-> Hflush]. split; [done|].
    unfold at_rest. by rewrite Hflush.
  - eexists. split; [|exact Hcan]. by apply idle_at_rest.
Qed.

Variable py_none : Act.

Lemma zip_with_const_r {X Y W : Type} (g : X -> W) (xs : list X) : forall (ys : list Y),
  length ys = length xs -> zip_with (fun x _ => g x) xs ys = map g xs.
Proof.
  induction xs as [|x xs IH]; intros [|y ys] Hlen; try done.
  cbn. f_equal. apply IH. by injection Hlen.
Qed.

(** The fan-out of a command that carries no payload. *)
Lemma seq_exec_broadcast {A : Type} (cmd : string) (f : unit -> Prog A) envs t :
  seq_exec E start_ok
    (bind (for_each (seq 0 (length envs)) (fun remote => send remote (cmd, py_none))) f)
    {| workers := map waiting envs; trace := t |} =
  seq_exec E start_ok (f tt)
    {| workers := map (fun env => handled E env (cmd, py_none)) envs;
       trace := t ++ map (fun k => ESend k (cmd, py_none)) (seq 0 (length envs)) |}.
Proof.
  pose proof (seq_exec_send_all (X := nat) id (fun _ => (cmd, py_none)) f
                (seq 0 (length envs)) envs [] t) as Hsend.
  cbn [app length] in Hsend. unfold id in Hsend. rewrite Hsend.
  - by rewrite (zip_with_const_r (fun env => handled E env (cmd, py_none)))
      by apply length_seq.
  - by rewrite map_id, length_seq.
  - by rewrite length_seq.
  - done.
Qed.

Lemma handled_reset env :
  handled E env ("reset", py_none) =
    {| proc := Running (env_reset E env).2; inbox := [];
       outbox := [RObs (env_reset E env).1] |}.
Proof.
  unfold handled, worker_handle. cbn. by destruct (env_reset E env).
Qed.

Lemma seq_exec_reset_call (self : SubprocVecEnv) envs s :
  idle envs s -> remotes self = seq 0 (length envs) ->
  seq_exec E start_ok (SubprocVecEnv_reset py_none self) s =
    (stack_replies reply_obs (map RObs (reset_replies E envs)),
     {| workers := map waiting (reset_all E envs);
        trace := (trace s ++ map (fun k => ESend k ("reset", py_none)) (seq 0 (length envs))) ++
                 zip_with ERecv (seq 0 (length envs)) (map RObs (reset_replies E envs)) |}).
Proof.
  destruct s as [ws t]. unfold idle. cbn. intros -> Hrem.
  unfold SubprocVecEnv_reset. rewrite Hrem, seq_exec_broadcast, seq_exec_bind.
  pose proof (seq_exec_recv_all
                (map (fun env => handled E env ("reset", py_none)) envs) []
                (t ++ map (fun k => ESend k ("reset", py_none)) (seq 0 (length envs)))
                (map RObs (reset_replies E envs))) as Hrecv.
  rewrite length_map in Hrecv. cbn [app length] in Hrecv. rewrite Hrecv; clear Hrecv.
  - cbn [fst snd]. rewrite seq_exec_returned by apply stack_replies_returned.
    f_equal. f_equal. unfold reset_all. rewrite !map_map.
    apply map_ext. intros env. by rewrite handled_reset.
  - unfold reset_replies. rewrite map_map.
    clear. induction envs as [|env envs' IH]; cbn; constructor; [|done].
    rewrite handled_reset. by eexists.
Qed.

Lemma reset_call_complete (self : SubprocVecEnv) envs s c' s' :
  at_rest E envs s -> remotes self = seq 0 (length envs) ->
  rtc (sys_step E start_ok) (SubprocVecEnv_reset py_none self, s) (c', s') ->
  (returned c' = true ->
     c' = stack_replies reply_obs (map RObs (reset_replies E envs)) /\
     at_rest E (reset_all E envs) s') /\
  (exists s'', at_rest E (reset_all E envs) s'' /\
     rtc (sys_step E start_ok) (c', s')
       (stack_replies reply_obs (map RObs (reset_replies E envs)), s'')).
Proof.
  intros Hrest Hrem Hrun.
  destruct (call_complete _ _ _ _ Hrun) as [Hret Hcan].
  rewrite (seq_exec_reset_call self envs (flush E s)) in Hret, Hcan by done.
  split.
  - intros Hr. destruct (Hret Hr) as [-> Hflush]. split; [done|].
    unfold at_rest. by rewrite Hflush.
  - eexists. split; [|exact Hcan]. by apply idle_at_rest.
Qed.

Lemma advance_length envs actions :
  length actions = length envs -> length (advance E envs actions) = length envs.
Proof. intros Hlen. unfold advance. rewrite length_zip_with. lia. Qed.

(** All through its life the executor finds the system at rest, worker
    [k] holding what its own environment has become. *)
Lemma lifetime_at_rest (self : SubprocVecEnv) envs0 s0 envs s :
  at_rest E envs0 s0 -> remotes self = seq 0 (length envs0) ->
  lifetime E start_ok py_none self envs0 s0 envs s ->
  at_rest E envs s /\ length envs = length envs0.
Proof.
  intros Hidle Hrem. induction 1 as [|envs s actions c' s' _ [IH IHlen] Hlen Hrun Hret
                                      |envs s c' s' _ [IH IHlen] Hrun Hret].
  - done.
  - split; [|by rewrite advance_length].
    rewrite <- IHlen in Hrem.
    by destruct (step_call_complete self envs actions s c' s' IH Hrem Hlen Hrun) as [[_ ?] _].
  - split; [|by unfold reset_all; rewrite length_map].
    rewrite <- IHlen in Hrem.
    by destruct (reset_call_complete self envs s c' s' IH Hrem Hrun) as [[_ ?] _].
Qed.

End ProgramProperties.

Section StepReturn.
Context {Act R Info Space : Type}.

Lemma unzip4_RStep (rs : list (Obs * R * bool * Info)) :
  unzip4 (Space := Space) (map RStep rs) =
    Some (map sr_obs rs, map sr_reward rs, map sr_done rs, map sr_info rs).
Proof.
  induction rs as [|[[[ob reward] dn] info] rs IH]; [done|].
  cbn. by rewrite IH.
Qed.

Lemma stack_Some {B : Type} (xs : list (np.ndarray B)) a :
  np.stack xs = Some a -> a = np.Array xs.
Proof. unfold np.stack. destruct xs; [done|]. case_match; by intros [= <-]. Qed.

(** What [step] returns when it returns: three stacks and a tuple. *)
Lemma step_return_Ret (rs : list (Obs * R * bool * Info)) obs rews dones infos :
  step_return (Act := Act) (Space := Space) (map RStep rs) = Ret (obs, rews, dones, infos) ->
  obs = np.Array (map sr_obs rs) /\
  rews = np.Array (map (fun r => np.Scalar (sr_reward r)) rs) /\
  dones = np.Array (map (fun r => np.Scalar (sr_done r)) rs) /\
  infos = map sr_info rs.
Proof.
  unfold step_return. destruct rs as [|r rs]; [done|].
  rewrite unzip4_RStep.
  destruct (np.stack (map sr_obs (r :: rs))) as [o|] eqn:Ho; [|done].
  destruct (np.stack (map np.Scalar (map sr_reward (r :: rs)))) as [w|] eqn:Hw; [|done].
  destruct (np.stack (map np.Scalar (map sr_done (r :: rs)))) as [d|] eqn:Hd; [|done].
  intros [= <- <- <- <-].
  apply stack_Some in Ho, Hw, Hd. rewrite map_map in Hw, Hd. done.
Qed.

Lemma stack_scalars {B : Type} (xs : list B) :
  xs <> [] -> np.stack (map np.Scalar xs) = Some (np.Array (map np.Scalar xs)).
Proof.
  destruct xs as [|x xs]; [done|]. intros _. unfold np.stack. cbn [map].
  replace (forallb _ _) with true; [done|].
  symmetry. apply forallb_forall. intros y Hy.
  apply in_map_iff in Hy as (z & <- & _). by apply bool_decide_eq_true_2.
Qed.

Lemma stack_same_shape {B : Type} (x : np.ndarray B) (xs : list (np.ndarray B)) :
  Forall (fun y => np.shape y = np.shape x) xs ->
  np.stack (x :: xs) = Some (np.Array (x :: xs)).
Proof.
  intros Hall. unfold np.stack.
  replace (forallb _ _) with true; [done|].
  symmetry. apply forallb_forall. intros y Hy.
  apply bool_decide_eq_true_2.
  rewrite Forall_forall in Hall. by apply Hall, list_elem_of_In.
Qed.

(** What the last two lines of [step] come to. *)
Lemma step_return_eq (rs : list (Obs * R * bool * Info)) :
  step_return (Act := Act) (Space := Space) (map RStep rs) =
    match np.stack (map sr_obs rs) with
    | Some obs =>
        Ret (obs, np.Array (map (fun r => np.Scalar (sr_reward r)) rs),
             np.Array (map (fun r => np.Scalar (sr_done r)) rs), map sr_info rs)
    | None => Throw ValueError
    end.
Proof.
  unfold step_return. destruct rs as [|r rs]; [done|].
  rewrite unzip4_RStep.
  destruct (np.stack (map sr_obs (r :: rs))) as [o|]; [|done].
  rewrite !stack_scalars by done. by rewrite !map_map.
Qed.

End StepReturn.

(** C1.  A worker handling ['step'] steps its environment; when the step
    reports [done] it resets the environment at once and sends the
    observation of the reset with the reward, [done] and info of the step;
    otherwise it sends the result of the step as it is.  One reply is
    queued, and the worker goes on with the environment so obtained. *)
Theorem worker_step_auto_reset :
  forall (Act R Info Space St : Type) (E : Env Act R Info Space St)
         (env : St) (action : Act) (calls : list (Call Act))
         (rest : list msg) (o : list Reply),
    let inner := env_step E env action in
    let after := env_reset E inner.2 in
    let reply :=
      if sr_done inner.1
      then (after.1, sr_reward inner.1, sr_done inner.1, sr_info inner.1)
      else inner.1 in
    let env' := if sr_done inner.1 then after.2 else inner.2 in
    worker_handle E env ("step", action) = (Running env', Some (RStep reply)) /\
    worker_step E {| proc := Running env; inbox := ("step", action) :: rest; outbox := o |} =
      Some {| proc := Running env'; inbox := rest; outbox := o ++ [RStep reply] |} /\
    (exists env'',
       (worker_handle (traced E) (env, calls) ("step", action)).1 =
         Running (env'', calls ++ if sr_done inner.1 then [CStep action; CReset]
                                  else [CStep action])).
Proof.
  intros Act R Info Space St E env action calls rest o. cbn zeta.
  assert (Hh : worker_handle E env ("step", action) =
               (Running (if sr_done (env_step E env action).1
                         then (env_reset E (env_step E env action).2).2
                         else (env_step E env action).2),
                Some (RStep (if sr_done (env_step E env action).1
                             then ((env_reset E (env_step E env action).2).1,
                                   sr_reward (env_step E env action).1,
                                   sr_done (env_step E env action).1,
                                   sr_info (env_step E env action).1)
                             else (env_step E env action).1)))).
  { unfold worker_handle. cbn.
    destruct (env_step E env action) as [[[[ob reward] dn] info] env1]. cbn.
    destruct dn; [|done]. by destruct (env_reset E env1). }
  split; [done|split].
  - unfold worker_step. cbn [proc inbox outbox]. by rewrite Hh.
  - unfold worker_handle. cbn.
    destruct (env_step E env action) as [[[[ob reward] dn] info] env1]. cbn.
    destruct dn.
    + destruct (env_reset E env1) as [ob' env2]. cbn. eexists.
      by rewrite <- app_assoc.
    + by eexists.
Qed.

(** ** The order of the coordinator's sends and receives *)

Section FanOut.
Context {Act R Info Space St : Type}.
Variable E : Env Act R Info Space St.
Variable start_ok : nat -> bool.
Variable py_none : Act.

Implicit Types (s : Sys (Act := Act) (R := R) (Info := Info) (Space := Space) (St := St))
  (evs sends : list (Event (Act := Act) (R := R) (Info := Info) (Space := Space))).
#[local] Abbreviation Prog' := (Coord (Act := Act) (R := R) (Info := Info) (Space := Space)).

Lemma sys_step_trace {A : Type} (x y : Prog' A * Sys) :
  sys_step E start_ok x y -> trace x.2 `prefix_of` trace y.2.
Proof.
  intros [c s c' s' Hstep|k c s s' Hstep]; cbn [fst snd].
  - destruct c as [a|e|k next|k m next|k next|k next]; cbn in Hstep; try done.
    + unfold do_start in Hstep. repeat case_match; simplify_eq; try done.
      cbn. by apply prefix_app_r.
    + unfold do_send in Hstep. repeat case_match; cbn in Hstep; simplify_eq.
      cbn. by apply prefix_app_r.
    + unfold do_recv in Hstep. repeat case_match; cbn in Hstep; simplify_eq.
      cbn. by apply prefix_app_r.
    + unfold do_join in Hstep. repeat case_match; cbn in Hstep; simplify_eq.
      cbn. by apply prefix_app_r.
  - unfold sys_worker_step in Hstep.
    destruct (workers s !! k) as [w|]; [|done]. cbn in Hstep.
    destruct (worker_step E w); [|done]. by injection Hstep as <-.
Qed.

Lemma sys_steps_trace {A : Type} (x y : Prog' A * Sys) :
  rtc (sys_step E start_ok) x y -> trace x.2 `prefix_of` trace y.2.
Proof.
  induction 1 as [|x y z Hstep _ IH]; [done|].
  etrans; [by eapply sys_step_trace|done].
Qed.

Lemma seq_exec_sends_nothing {A : Type} (c : Prog' A) : forall s,
  sends_nothing c ->
  exists evs, trace (seq_exec E start_ok c s).2 = trace s ++ evs /\
              Forall (fun e => ~ is_send e) evs.
Proof.
  induction c as [a|e|k next IH|k m next IH|k next IH|k next IH]; intros s Hc; cbn.
  - exists []. by rewrite app_nil_r.
  - exists []. by rewrite app_nil_r.
  - unfold do_start.
    destruct (workers s !! k) as [[[f|f|env| |e] i o]|];
      try (exists []; by rewrite app_nil_r).
    destruct (start_ok k); [|exists []; by rewrite app_nil_r].
    destruct (IH (flush E (log (set_worker s k
                {| proc := Started f; inbox := i; outbox := o |}) (EStart k))) Hc)
      as (evs & -> & Hevs).
    exists (EStart k :: evs). cbn. rewrite <- app_assoc. split; [done|].
    constructor; [|done]. by intros [].
  - done.
  - unfold do_recv.
    destruct (workers s !! k) as [[p i [|r o]]|];
      try (exists []; by rewrite app_nil_r).
    destruct (IH r (log (set_worker s k {| proc := p; inbox := i; outbox := o |})
                      (ERecv k r)) (Hc r)) as (evs & -> & Hevs).
    exists (ERecv k r :: evs). cbn. rewrite <- app_assoc. split; [done|].
    constructor; [|done]. by intros [].
  - unfold do_join.
    destruct (workers s !! k) as [w|]; [|exists []; by rewrite app_nil_r].
    destruct (finished (proc w)); [|exists []; by rewrite app_nil_r].
    destruct (IH (log s (EJoin k)) Hc) as (evs & -> & Hevs).
    exists (EJoin k :: evs). cbn. rewrite <- app_assoc. split; [done|].
    constructor; [|done]. by intros [].
Qed.

Lemma sends_nothing_bind {A B : Type} (c : Prog' A) (f : A -> Prog' B) :
  sends_nothing c -> (forall a, sends_nothing (f a)) -> sends_nothing (bind c f).
Proof.
  intros Hc Hf. induction c as [a|e|k next IH|k m next IH|k next IH|k next IH]; cbn in *;
    auto.
Qed.

Lemma sends_nothing_returned {A : Type} (c : Prog' A) :
  returned c = true -> sends_nothing c.
Proof. by destruct c. Qed.

Lemma sends_nothing_collect_recv (ks : list nat) : sends_nothing (collect ks (recv (Act := Act) (R := R) (Info := Info) (Space := Space))).
Proof.
  induction ks as [|k ks IH]; [done|]. cbn. intros r.
  apply sends_nothing_bind; [done|]. by intros ys.
Qed.

Lemma sends_nothing_for_each_join (ks : list nat) : sends_nothing (for_each ks (join (Act := Act) (R := R) (Info := Info) (Space := Space))).
Proof. induction ks as [|k ks IH]; [done|]. cbn. done. Qed.

(** A prefix of a fan-out followed by events that are not sends has the
    fan-out first. *)
Lemma fan_out_first_prefix (n : nat) (cmd : string) sends evs2 evs :
  length sends = n ->
  (forall j, j < n -> exists data, sends !! j = Some (ESend j (cmd, data))) ->
  Forall (fun e => ~ is_send e) evs2 ->
  evs `prefix_of` sends ++ evs2 ->
  fan_out_first n cmd evs.
Proof.
  intros Hlen Hsends Hevs2 [rest Hpre] i e Hi Hwait.
  assert (Hfull : forall j x, evs !! j = Some x -> (sends ++ evs2) !! j = Some x).
  { intros j x Hj. rewrite Hpre. by apply lookup_app_l_Some. }
  assert (Hin : n <= i).
  { destruct (decide (n <= i)) as [|Hlt]; [done|]. exfalso.
    destruct (Hsends i) as [data Hs]; [lia|].
    pose proof (Hfull _ _ Hi) as Hf.
    rewrite lookup_app_l in Hf by lia. rewrite Hs in Hf.
    injection Hf as <-. done. }
  split.
  - intros j Hj. destruct (Hsends j Hj) as [data Hs].
    exists j, data. split; [lia|].
    assert (Hjlen : j < length evs).
    { apply lookup_lt_Some in Hi. lia. }
    destruct (lookup_lt_is_Some_2 evs j Hjlen) as [x Hx].
    pose proof (Hfull _ _ Hx) as Hf.
    rewrite lookup_app_l in Hf by lia. by rewrite Hx, <- Hf, Hs.
  - intros i' e' Hi' Hsend.
    destruct (decide (i' < n)) as [|Hge]; [lia|]. exfalso.
    pose proof (Hfull _ _ Hi') as Hf.
    rewrite lookup_app_r in Hf by lia.
    rewrite Forall_lookup in Hevs2. by apply (Hevs2 _ _ Hf).
Qed.

(** From a system at rest, a fan-out followed by code that sends nothing
    has the fan-out first at every point of every schedule. *)
Lemma fan_out_then_wait {A : Type} (prog rest : Prog' A)
    (n : nat) (cmd : string) s sends s1 :
  seq_exec E start_ok prog (flush E s) = seq_exec E start_ok rest s1 ->
  trace s1 = trace s ++ sends ->
  length sends = n ->
  (forall j, j < n -> exists data, sends !! j = Some (ESend j (cmd, data))) ->
  sends_nothing rest ->
  forall c' s', rtc (sys_step E start_ok) (prog, s) (c', s') ->
    exists evs, trace s' = trace s ++ evs /\ fan_out_first n cmd evs.
Proof.
  intros Hrun Htrace Hlen Hsends Hrest c' s' Hsteps.
  destruct (sys_steps_trace _ _ Hsteps) as [evs Hevs]. cbn in Hevs.
  exists evs. split; [done|].
  destruct (seq_exec_sends_nothing rest s1 Hrest) as (evs2 & Hfinal & Hevs2).
  apply (fan_out_first_prefix n cmd sends evs2); try done.
  apply (prefix_app_inv (trace s)).
  rewrite <- Hevs, app_assoc, <- Htrace, <- Hfinal.
  pose proof (seq_exec_steps E start_ok _ _ Hsteps) as Heq. cbn in Heq.
  assert (Hty : (seq_exec E start_ok rest s1).2 = (seq_exec E start_ok c' (flush E s')).2).
  { by rewrite <- Hrun, Heq. }
  rewrite Hty. apply (seq_exec_trace E start_ok c' (flush E s')).
Qed.


Lemma broadcast_sends (cmd : string) (n j : nat) :
  j < n ->
  exists data : Act,
    map (fun k => ESend (R := R) (Info := Info) (Space := Space) k (cmd, py_none)) (seq 0 n) !! j
    = Some (ESend j (cmd, data)).
Proof.
  intros Hj. exists py_none. change (map ?f ?l) with (f <$> l).
  by rewrite list_lookup_fmap, lookup_seq_lt.
Qed.

Lemma step_sends (actions : list Act) (n j : nat) :
  length actions = n -> j < n ->
  exists data : Act,
    map (fun ra => ESend (R := R) (Info := Info) (Space := Space) ra.1 ("step", ra.2))
      (zip (seq 0 n) actions) !! j
    = Some (ESend j ("step", data)).
Proof.
  intros Hlen Hj.
  destruct (lookup_lt_is_Some_2 actions j) as [a Ha]; [lia|].
  exists a. change (map ?f ?l) with (f <$> l).
  rewrite list_lookup_fmap.
  rewrite (proj2 (lookup_zip_with_Some pair (seq 0 n) actions j (j, a))); [done|].
  exists j, a. split; [done|]. split; [|done]. by apply lookup_seq_lt.
Qed.

Lemma broadcast_fans_out_first {A : Type} (cmd : string) (rest : unit -> Prog' A) envs s :
  at_rest E envs s -> sends_nothing (rest tt) ->
  fans_out_first E start_ok (length envs) cmd
    (bind (for_each (seq 0 (length envs)) (fun remote => send remote (cmd, py_none))) rest) s.
Proof.
  intros Hidle Hrest c' s' Hrun.
  apply (fan_out_then_wait _ (rest tt) (length envs) cmd s
           (map (fun k => ESend k (cmd, py_none)) (seq 0 (length envs)))
           {| workers := map (fun env => handled E env (cmd, py_none)) envs;
              trace := trace s ++ map (fun k => ESend k (cmd, py_none))
                                    (seq 0 (length envs)) |}) in Hrun;
    [done| | | | |done].
  - unfold at_rest, idle in Hidle. destruct (flush E s) as [ws t] eqn:Hflush.
    assert (Ht : t = trace s) by (by apply (f_equal trace) in Hflush).
    cbn in Hidle. subst ws t. apply seq_exec_broadcast.
  - done.
  - by rewrite length_map, length_seq.
  - intros j Hj. by apply broadcast_sends.
Qed.

Lemma step_fans_out_first (self : SubprocVecEnv) envs actions s :
  at_rest E envs s -> remotes self = seq 0 (length envs) -> length actions = length envs ->
  fans_out_first E start_ok (length envs) "step" (SubprocVecEnv_step self actions) s.
Proof.
  intros Hidle Hrem Hlen c' s' Hrun.
  apply (fan_out_then_wait _ (bind (collect (seq 0 (length envs)) recv) step_return)
           (length envs) "step" s
           (map (fun ra => ESend ra.1 ("step", ra.2)) (zip (seq 0 (length envs)) actions))
           {| workers := zip_with (fun env x => handled E env ("step", x.2)) envs
                           (zip (seq 0 (length envs)) actions);
              trace := trace s ++ map (fun ra => ESend ra.1 ("step", ra.2))
                                    (zip (seq 0 (length envs)) actions) |}) in Hrun;
    [done| | | | | ].
  - unfold at_rest, idle in Hidle. destruct (flush E s) as [ws t] eqn:Hflush.
    assert (Ht : t = trace s) by (by apply (f_equal trace) in Hflush).
    cbn in Hidle. subst ws t.
    unfold SubprocVecEnv_step. rewrite Hrem.
    pose proof (seq_exec_send_all E start_ok (X := nat * Act) fst
                  (fun ra => ("step", ra.2))
                  (fun _ => bind (collect (seq 0 (length envs)) recv) step_return)
                  (zip (seq 0 (length envs)) actions) envs [] (trace s)) as Hsend.
    cbn [app length] in Hsend. apply Hsend.
    + change (map fst ?l) with (l.*1).
      rewrite fst_zip by (rewrite length_seq; lia).
      rewrite length_zip, length_seq. f_equal. lia.
    + rewrite length_zip, length_seq. lia.
    + done.
  - done.
  - rewrite length_map, length_zip, length_seq. lia.
  - intros j Hj. by apply step_sends.
  - apply sends_nothing_bind; [apply sends_nothing_collect_recv|].
    intros rs. apply sends_nothing_returned, step_return_returned.
Qed.

End FanOut.

(** ** Failures: a worker without the metadata, a start that fails *)

Section Failures.
Context {Act R Info Space St : Type}.
Variable E : Env Act R Info Space St.
Variable start_ok : nat -> bool.
Variable py_none : Act.

Implicit Types (s : Sys (Act := Act) (R := R) (Info := Info) (Space := Space) (St := St))
  (done : list (Worker (Act := Act) (R := R) (Info := Info) (Space := Space) (St := St))).
#[local] Abbreviation Prog'' := (Coord (Act := Act) (R := R) (Info := Info) (Space := Space)).

(** *** get_last_reward *)

Lemma worker_handle_last_reward_missing env (data : Act) :
  env_metadata E env !! "last_reward" = None ->
  worker_handle E env ("last_reward", data) = (Crashed KeyError, None).
Proof. intros Hm. unfold worker_handle. cbn. by rewrite Hm. Qed.

Lemma get_last_reward_blocked (self : SubprocVecEnv) envs s :
  idle envs s -> remotes self = seq 0 (length envs) ->
  Exists (fun env => env_metadata E env !! "last_reward" = None) envs ->
  returned (seq_exec E start_ok (SubprocVecEnv_get_last_reward py_none self) s).1 = false.
Proof.
  destruct s as [ws t]. unfold idle. cbn. intros -> Hrem Hex.
  unfold SubprocVecEnv_get_last_reward.
  rewrite Hrem, seq_exec_broadcast, seq_exec_bind.
  pose proof (seq_exec_recv_blocked E start_ok
                (map (fun env => handled E env ("last_reward", py_none)) envs) []
                (t ++ map (fun k => ESend k ("last_reward", py_none)) (seq 0 (length envs))))
    as Hblocked.
  rewrite length_map in Hblocked. cbn [app length] in Hblocked.
  destruct (seq_exec E start_ok (collect (seq 0 (length envs)) recv) _) as [c1 s1].
  cbn in *. assert (Hc1 : returned c1 = false).
  { apply Hblocked. clear -Hex.
    induction Hex as [env envs Hm|env envs _ IH]; cbn.
    - apply Exists_cons_hd. unfold handled.
      by rewrite worker_handle_last_reward_missing.
    - by apply Exists_cons_tl. }
  by destruct c1.
Qed.

Lemma get_last_reward_never_returns (self : SubprocVecEnv) envs s :
  at_rest E envs s -> remotes self = seq 0 (length envs) ->
  Exists (fun env => env_metadata E env !! "last_reward" = None) envs ->
  forall c' s',
    rtc (sys_step E start_ok) (SubprocVecEnv_get_last_reward py_none self, s) (c', s') ->
    returned c' = false.
Proof.
  intros Hidle Hrem Hex. apply never_returns.
  by eapply get_last_reward_blocked.
Qed.

End Failures.

(** C4, as the code has it.  A worker whose environment has no
    ['last_reward'] entry in its metadata fails on ['last_reward'] with a
    [KeyError] and dies without a reply.  The executor's [get_last_reward]
    then neither returns nor raises, under any schedule: it waits for that
    worker's reply, and no error reaches the caller. *)
Theorem get_last_reward_unsupported
    {Act R Info Space St : Type} (E : Env Act R Info Space St)
    (start_ok : nat -> bool) (py_none : Act) (self : SubprocVecEnv)
    (envs : list St) (s : Sys) (env : St) (data : Act)
    (rest : list msg) (o : list Reply)
    (Hmissing : env_metadata E env !! "last_reward" = None)
    (Hidle : at_rest E envs s)
    (Hremotes : remotes self = seq 0 (length envs))
    (Hin : env ∈ envs) :
  worker_handle E env ("last_reward", data) = (Crashed KeyError, None) /\
  worker_step E {| proc := Running env; inbox := ("last_reward", data) :: rest; outbox := o |} =
    Some {| proc := Crashed KeyError; inbox := rest; outbox := o |} /\
  (forall w, proc w = Crashed KeyError -> worker_step E w = None) /\
  (forall c' s',
     rtc (sys_step E start_ok) (SubprocVecEnv_get_last_reward py_none self, s) (c', s') ->
     returned c' = false).
Proof.
  pose proof (worker_handle_last_reward_missing E env data Hmissing) as Hh.
  split; [done|split; [|split]].
  - unfold worker_step. cbn [proc inbox outbox]. rewrite Hh. cbn.
    by rewrite app_nil_r.
  - intros w Hw. unfold worker_step. by rewrite Hw.
  - apply (get_last_reward_never_returns E start_ok py_none self envs s Hidle Hremotes).
    apply Exists_exists. by exists env.
Qed.

Lemma get_last_reward_unsupported_witness :
  let E := counter_env (Act := Z) 0 in
  let s := demo_system [0; 5]%Z in
  env_metadata E 5%Z !! "last_reward" = None /\
  at_rest E [0; 5]%Z s /\
  remotes demo_executor = seq 0 2 /\
  5%Z ∈ [0; 5]%Z /\
  worker_handle E 5%Z ("last_reward", (-1)%Z) = (Crashed KeyError, None) /\
  (forall c' s',
     rtc (sys_step E (fun _ => true))
       (SubprocVecEnv_get_last_reward (-1)%Z demo_executor, s) (c', s') ->
     returned c' = false).
Proof.
  cbn zeta.
  assert (Hm : env_metadata (counter_env (Act := Z) 0) 5%Z !! "last_reward" = None)
    by reflexivity.
  assert (Hidle : at_rest (counter_env (Act := Z) 0) [0; 5]%Z (demo_system [0; 5]%Z))
    by reflexivity.
  assert (Hrem : remotes demo_executor = seq 0 2) by reflexivity.
  assert (Hin : 5%Z ∈ [0; 5]%Z) by (apply list_elem_of_In; cbn; auto).
  destruct (get_last_reward_unsupported (counter_env (Act := Z) 0) (fun _ => true) (-1)%Z
              demo_executor [0; 5]%Z (demo_system [0; 5]%Z) 5%Z (-1)%Z [] []
              Hm Hidle Hrem Hin) as (Hh & _ & _ & Hnever).
  split; [exact Hm|]. split; [exact Hidle|]. split; [exact Hrem|].
  split; [exact Hin|]. split; [exact Hh|exact Hnever].
Defined.

(** C4, as stated, fails: over one counting game, which has no
    metadata, the worker dies with a [KeyError] and sends nothing, and no
    schedule brings [get_last_reward] to raise anything; run eagerly it
    stops in its first receive. *)
Lemma get_last_reward_no_error_reaches_caller :
  let E := counter_env (Act := Z) 0 in
  let self : SubprocVecEnv (Space := unit) :=
    {| remotes := [0]; ps := [0]; action_space := tt; observation_space := tt |} in
  let s := demo_system [0]%Z in
  worker_step E {| proc := Running 0%Z; inbox := [("last_reward", (-1)%Z)]; outbox := [] |} =
    Some {| proc := Crashed KeyError; inbox := []; outbox := [] |} /\
  returned (seq_exec E (fun _ => true) (SubprocVecEnv_get_last_reward (-1)%Z self) s).1 = false /\
  workers (seq_exec E (fun _ => true) (SubprocVecEnv_get_last_reward (-1)%Z self) s).2 =
    [{| proc := Crashed KeyError; inbox := []; outbox := [] |}] /\
  (forall c' s' e,
     rtc (sys_step E (fun _ => true)) (SubprocVecEnv_get_last_reward (-1)%Z self, s) (c', s') ->
     c' <> Throw e).
Proof.
  cbn zeta. split; [reflexivity|]. split; [reflexivity|]. split; [reflexivity|].
  intros c' s' e Hrun ->.
  pose proof (get_last_reward_never_returns (counter_env (Act := Z) 0) (fun _ => true) (-1)%Z
                {| remotes := [0]; ps := [0]; action_space := tt; observation_space := tt |}
                [0%Z] (demo_system [0]%Z) eq_refl eq_refl) as Hnever.
  specialize (Hnever (Exists_cons_hd _ _ _ eq_refl) _ _ Hrun). done.
Qed.

(** ** Construction *)

Section Construction.
Context {Act R Info Space St : Type}.
Variable E : Env Act R Info Space St.
Variable start_ok : nat -> bool.
Variable py_none : Act.

Implicit Types (s : Sys (Act := Act) (R := R) (Info := Info) (Space := Space) (St := St))
  (done : list (Worker (Act := Act) (R := R) (Info := Info) (Space := Space) (St := St)))
  (fs : list (result St)).
#[local] Abbreviation Prog3 := (Coord (Act := Act) (R := R) (Info := Info) (Space := Space)).

Lemma flush_worker_booted (f : result St) :
  flush_worker E {| proc := Started f; inbox := []; outbox := [] |} = booted f /\
  flush_worker E (booted f) = booted f.
Proof.
  rewrite !flush_worker_eq. unfold booted. cbn.
  by destruct f.
Qed.

Lemma map_flush_fixed (ws : list Worker) :
  Forall (fun w => flush_worker E w = w) ws -> map (flush_worker E) ws = ws.
Proof. induction 1 as [|w ws Hw _ IH]; [done|]. cbn. by rewrite Hw, IH. Qed.

Lemma created_fixed fs :
  Forall (fun w => flush_worker E w = w) (map created fs).
Proof.
  apply Forall_forall. intros w Hw.
  apply list_elem_of_In, in_map_iff in Hw as (f & <- & _).
  apply flush_worker_created.
Qed.

Lemma booted_fixed fs :
  Forall (fun w => flush_worker E w = w) (map booted fs).
Proof.
  apply Forall_forall. intros w Hw.
  apply list_elem_of_In, in_map_iff in Hw as (f & <- & _).
  apply (flush_worker_booted f).
Qed.

(** One [p.start()] that succeeds, run eagerly. *)
Lemma seq_exec_start_one {A : Type} (next : Prog3 A) done f fs t :
  start_ok (length done) = true ->
  Forall (fun w => flush_worker E w = w) done ->
  seq_exec E start_ok (Start (length done) next)
    {| workers := done ++ map created (f :: fs); trace := t |} =
  seq_exec E start_ok next
    {| workers := (done ++ [booted f]) ++ map created fs;
       trace := t ++ [EStart (length done)] |}.
Proof.
  intros Hok Hdone. cbn [seq_exec map].
  unfold do_start. cbn [workers].
  rewrite lookup_app_r by lia. rewrite Nat.sub_diag. cbn [lookup list_lookup created].
  rewrite Hok. unfold flush, log, set_worker. cbn [workers trace].
  rewrite insert_app_r_alt by lia. rewrite Nat.sub_diag. cbn [insert list_insert].
  rewrite map_app. cbn [map].
  rewrite (map_flush_fixed done) by done.
  rewrite (map_flush_fixed (map created fs)) by apply created_fixed.
  rewrite (proj1 (flush_worker_booted f)).
  by rewrite <- app_assoc.
Qed.

(** The starts, run eagerly, when all succeed. *)
Lemma seq_exec_start_all {A : Type} (g : unit -> Prog3 A) fs : forall done t,
  (forall j, length done <= j < length done + length fs -> start_ok j = true) ->
  Forall (fun w => flush_worker E w = w) done ->
  seq_exec E start_ok (bind (for_each (seq (length done) (length fs)) start) g)
    {| workers := done ++ map created fs; trace := t |} =
  seq_exec E start_ok (g tt)
    {| workers := done ++ map booted fs;
       trace := t ++ map EStart (seq (length done) (length fs)) |}.
Proof.
  induction fs as [|f fs IH]; intros done t Hok Hdone.
  - cbn. by rewrite !app_nil_r.
  - cbn [length seq for_each start bind].
    rewrite seq_exec_start_one by (done || apply Hok; cbn; lia).
    specialize (IH (done ++ [booted f]) (t ++ [EStart (length done)])).
    rewrite length_app, Nat.add_1_r in IH. rewrite IH.
    + cbn. by rewrite <- !app_assoc.
    + intros j Hj. apply Hok. cbn. lia.
    + apply Forall_app. split; [done|]. constructor; [|done].
      apply (flush_worker_booted f).
Qed.

(** The starts, run eagerly, when one fails: the error goes up at once,
    with the processes started so far left as they are. *)
Lemma seq_exec_start_fail {A : Type} (g : unit -> Prog3 A) fs1 : forall done t fbad fs2,
  (forall j, length done <= j < length done + length fs1 -> start_ok j = true) ->
  start_ok (length done + length fs1) = false ->
  Forall (fun w => flush_worker E w = w) done ->
  seq_exec E start_ok
    (bind (for_each (seq (length done) (length (fs1 ++ fbad :: fs2))) start) g)
    {| workers := done ++ map created (fs1 ++ fbad :: fs2); trace := t |} =
  (Throw OSError,
   {| workers := (done ++ map booted fs1) ++ map created (fbad :: fs2);
      trace := t ++ map EStart (seq (length done) (length fs1)) |}).
Proof.
  induction fs1 as [|f fs1 IH]; intros done t fbad fs2 Hok Hbad Hdone.
  - cbn [app length seq for_each start bind seq_exec map].
    unfold do_start. cbn [workers].
    rewrite lookup_app_r by lia. rewrite Nat.sub_diag. cbn [lookup list_lookup created].
    rewrite Nat.add_0_r in Hbad. rewrite Hbad. cbn. by rewrite !app_nil_r.
  - cbn [app length seq for_each start bind].
    rewrite seq_exec_start_one by (done || apply Hok; cbn; lia).
    specialize (IH (done ++ [booted f]) (t ++ [EStart (length done)]) fbad fs2).
    rewrite length_app, Nat.add_1_r in IH. rewrite IH.
    + cbn. by rewrite <- !app_assoc.
    + intros j Hj. apply Hok. cbn. lia.
    + cbn in Hbad. by rewrite <- Hbad, Nat.add_succ_r.
    + apply Forall_app. split; [done|]. constructor; [|done].
      apply (flush_worker_booted f).
Qed.

Lemma flush_spawned fs : flush E (spawned fs) = spawned fs.
Proof.
  unfold flush, spawned. cbn. f_equal.
  apply (map_flush_fixed (map created fs)), created_fixed.
Qed.

(** [__init__], run eagerly, when the start of process [k] fails. *)
Lemma seq_exec_init_start_fail fs k :
  k < length fs -> start_ok k = false -> (forall j, j < k -> start_ok j = true) ->
  seq_exec E start_ok (SubprocVecEnv_init py_none fs) (spawned fs) =
    (Throw OSError,
     {| workers := map booted (take k fs) ++ map created (drop k fs);
        trace := map EStart (seq 0 k) |}).
Proof.
  intros Hk Hbad Hok. unfold SubprocVecEnv_init.
  destruct (seq 0 (length fs)) as [|remote0 ks] eqn:Hseq.
  { apply (f_equal length) in Hseq. rewrite length_seq in Hseq. cbn in Hseq. lia. }
  rewrite <- Hseq. clear Hseq.
  destruct (lookup_lt_is_Some_2 fs k Hk) as [fbad Hfbad].
  pose proof (seq_exec_start_fail
                (fun _ => bind (send remote0 ("get_spaces", py_none))
                            (fun _ => bind (recv remote0)
                               (fun r => match r with
                                         | RSpaces (a, o) =>
                                             Ret {| remotes := seq 0 (length fs);
                                                    ps := seq 0 (length fs);
                                                    action_space := a;
                                                    observation_space := o |}
                                         | _ => Throw ValueError
                                         end)))
                (take k fs) [] [] fbad (drop (S k) fs)) as Hfail.
  rewrite length_take_le in Hfail by lia.
  rewrite <- (drop_S _ _ _ Hfbad), take_drop in Hfail.
  cbn [app length] in Hfail. apply Hfail; [|done|done].
  intros j Hj. apply Hok. lia.
Qed.

(** However the processes are scheduled, a start that fails makes
    [__init__] raise, and leaves every process started before it alive. *)
Lemma init_start_fail_complete fs k c' s' :
  k < length fs -> start_ok k = false -> (forall j, j < k -> start_ok j = true) ->
  rtc (sys_step E start_ok) (SubprocVecEnv_init py_none fs, spawned fs) (c', s') ->
  (returned c' = true ->
     c' = Throw OSError /\
     forall j env, j < k -> fs !! j = Some (Ok env) ->
       exists w, workers s' !! j = Some w /\ finished (proc w) = false) /\
  (exists s'', rtc (sys_step E start_ok) (c', s') (Throw OSError, s'')).
Proof.
  intros Hk Hbad Hok Hrun.
  destruct (call_complete E start_ok _ _ _ _ Hrun) as [Hret Hcan].
  rewrite flush_spawned, (seq_exec_init_start_fail fs k Hk Hbad Hok) in Hret, Hcan.
  split; [|by eexists].
  intros Hr. destruct (Hret Hr) as [-> Hflush]. split; [done|].
  intros j env Hj Hf.
  apply (f_equal (fun s => workers s !! j)) in Hflush. cbn in Hflush.
  change (map ?f ?l) with (f <$> l) in Hflush.
  rewrite list_lookup_fmap in Hflush.
  rewrite lookup_app_l in Hflush by (rewrite length_fmap, length_take; lia).
  rewrite list_lookup_fmap, lookup_take_lt, Hf in Hflush by done.
  destruct (workers s' !! j) as [w|]; [|done].
  exists w. split; [done|].
  cbn in Hflush. injection Hflush as Hw.
  destruct (finished (proc w)) eqn:Hfin; [|done].
  rewrite flush_worker_finished in Hw by done. by subst w.
Qed.


(** [__init__], run eagerly, when every start succeeds but the first
    worker's [env_fn] raises: the coordinator stops in its receive. *)
Lemma seq_exec_init_no_spaces e fs :
  (forall j, j < length (Raise e :: fs) -> start_ok j = true) ->
  returned (seq_exec E start_ok (SubprocVecEnv_init py_none (Raise e :: fs))
              (spawned (Raise e :: fs))).1 = false.
Proof.
  intros Hok. unfold SubprocVecEnv_init, spawned. cbn [length seq].
  erewrite (f_equal (fun x => returned x.1)); [|
    apply (seq_exec_start_all _ (Raise e :: fs) [] []);
      [intros j Hj; apply Hok; cbn in *; lia|done] ].
  cbn [bind send seq_exec map booted boot app]. unfold do_send. cbn [workers lookup list_lookup].
  unfold flush, log, set_worker. cbn [workers trace insert list_insert map].
  rewrite flush_worker_finished by done.
  cbn [recv bind seq_exec]. unfold do_recv. cbn [workers lookup list_lookup]. done.
Qed.

Lemma init_no_spaces_never_returns e fs :
  (forall j, j < length (Raise e :: fs) -> start_ok j = true) ->
  forall c' s',
    rtc (sys_step E start_ok)
      (SubprocVecEnv_init py_none (Raise e :: fs), spawned (Raise e :: fs)) (c', s') ->
    returned c' = false.
Proof.
  intros Hok. apply never_returns. rewrite flush_spawned.
  by apply seq_exec_init_no_spaces.
Qed.

Lemma booted_Ok (envs : list St) :
  map booted (map Ok envs) =
  map (waiting (Act := Act) (R := R) (Info := Info) (Space := Space)) envs.
Proof. by rewrite map_map. Qed.

(** [__init__], run eagerly, when every start succeeds and every
    [env_fn] returns an environment. *)
Lemma seq_exec_init_ok (env : St) (envs : list St) :
  (forall j, j < length (env :: envs) -> start_ok j = true) ->
  seq_exec E start_ok (SubprocVecEnv_init py_none (map Ok (env :: envs)))
    (spawned (map Ok (env :: envs))) =
  (Ret {| remotes := seq 0 (length (env :: envs)); ps := seq 0 (length (env :: envs));
          action_space := env_action_space E env;
          observation_space := env_observation_space E env |},
   {| workers := map waiting (env :: envs);
      trace := map EStart (seq 0 (length (env :: envs))) ++
               [ESend 0 ("get_spaces", py_none);
                ERecv 0 (RSpaces (env_action_space E env, env_observation_space E env))] |}).
Proof.
  intros Hok. unfold SubprocVecEnv_init, spawned.
  cbn [length seq map].
  etrans; [apply (seq_exec_start_all _ (map Ok (env :: envs)) [] []);
           [intros j Hj; apply Hok; rewrite length_map in Hj; cbn in *; lia|done]|].
  rewrite booted_Ok, !length_map.
  cbn [bind send seq_exec map app]. unfold do_send. cbn [workers lookup list_lookup].
  unfold flush, log, set_worker.
  cbn [workers trace insert list_insert map waiting proc inbox outbox app].
  rewrite flush_worker_handled.
  rewrite (map_flush_fixed (map waiting envs)).
  2:{ apply Forall_forall. intros w Hw.
      apply list_elem_of_In, in_map_iff in Hw as (x & <- & _).
      apply flush_worker_waiting. }
  cbn [recv bind seq_exec]. unfold do_recv. cbn [workers lookup list_lookup].
  unfold worker_handle, log, set_worker. cbn. by rewrite <- app_assoc.
Qed.

(** However the processes are scheduled, [__init__] over factories that
    work returns the executor whose pipes are numbered as the workers
    are, in a system at rest. *)
Lemma init_ok_complete (env : St) (envs : list St) c' s' :
  (forall j, j < length (env :: envs) -> start_ok j = true) ->
  rtc (sys_step E start_ok)
    (SubprocVecEnv_init py_none (map Ok (env :: envs)), spawned (map Ok (env :: envs)))
    (c', s') ->
  (returned c' = true ->
     c' = Ret {| remotes := seq 0 (length (env :: envs)); ps := seq 0 (length (env :: envs));
                 action_space := env_action_space E env;
                 observation_space := env_observation_space E env |} /\
     at_rest E (env :: envs) s') /\
  (exists s'', at_rest E (env :: envs) s'' /\
     rtc (sys_step E start_ok) (c', s')
       (Ret {| remotes := seq 0 (length (env :: envs)); ps := seq 0 (length (env :: envs));
               action_space := env_action_space E env;
               observation_space := env_observation_space E env |}, s'')).
Proof.
  intros Hok Hrun.
  destruct (call_complete E start_ok _ _ _ _ Hrun) as [Hret Hcan].
  rewrite flush_spawned, (seq_exec_init_ok env envs Hok) in Hret, Hcan.
  split.
  - intros Hr. destruct (Hret Hr) as [-> Hflush]. split; [done|].
    unfold at_rest. by rewrite Hflush.
  - eexists. split; [|exact Hcan]. by apply idle_at_rest.
Qed.

End Construction.

Lemma step_replies_lookup {Act R Info Space St : Type} (E : Env Act R Info Space St)
    envs actions k env a :
  envs !! k = Some env -> actions !! k = Some a ->
  step_replies E envs actions !! k = Some (step_reply E env a).1 /\
  advance E envs actions !! k = Some (step_reply E env a).2.
Proof.
  intros He Ha. unfold step_replies, advance.
  rewrite !lookup_zip_with, He, Ha. done.
Qed.

(** C2.  At any point of the life of an executor over N workers, a [step]
    with N actions comes, under every schedule of the workers, to one and
    the same result: the stacks and the tuple made of the N step results in
    worker order.  Element [k] of each is what worker [k], handling
    ['step'] on its own environment, answered to action [k]; worker [k]'s
    environment is what moves on; and the call can be brought to its end
    from wherever a schedule has taken it.  The executor [__init__] returns
    over factories that work is one whose pipes are numbered as the workers
    are, in a system at rest. *)
Theorem SubprocVecEnv_step_index_aligned
    {Act R Info Space St : Type} (E : Env Act R Info Space St)
    (start_ok : nat -> bool) (py_none : Act) (self : SubprocVecEnv)
    (envs0 : list St) (s0 : Sys) (envs : list St) (s : Sys) (actions : list Act)
    (Hbuilt : at_rest E envs0 s0)
    (Hremotes : remotes self = seq 0 (length envs0))
    (Hlife : lifetime E start_ok py_none self envs0 s0 envs s)
    (Hactions : length actions = length envs0) :
  let expected := step_return (map RStep (step_replies E envs actions)) in
  (forall c' s',
      rtc (sys_step E start_ok) (SubprocVecEnv_step self actions, s) (c', s') ->
      (returned c' = true -> c' = expected /\ at_rest E (advance E envs actions) s') /\
      (exists s'', at_rest E (advance E envs actions) s'' /\
         rtc (sys_step E start_ok) (c', s') (expected, s''))) /\
  (forall obs rews dones infos,
      expected = Ret (obs, rews, dones, infos) ->
      forall k env a, envs !! k = Some env -> actions !! k = Some a ->
        let r := (step_reply E env a).1 in
        np.item obs k = Some (sr_obs r) /\
        np.item rews k = Some (np.Scalar (sr_reward r)) /\
        np.item dones k = Some (np.Scalar (sr_done r)) /\
        infos !! k = Some (sr_info r)) /\
  (forall k env a, envs !! k = Some env -> actions !! k = Some a ->
      advance E envs actions !! k = Some (step_reply E env a).2) /\
  (forall env a,
      worker_handle E env ("step", a) =
        (Running (step_reply E env a).2, Some (RStep (step_reply E env a).1))) /\
  (forall (env : St) (rest : list St) c0 s_built,
      (forall j, j < length (env :: rest) -> start_ok j = true) ->
      rtc (sys_step E start_ok)
        (SubprocVecEnv_init py_none (map Ok (env :: rest)), spawned (map Ok (env :: rest)))
        (c0, s_built) ->
      returned c0 = true ->
      exists built,
        c0 = Ret built /\ remotes built = seq 0 (length (env :: rest)) /\
        at_rest E (env :: rest) s_built).
Proof.
  destruct (lifetime_at_rest E start_ok py_none self envs0 s0 envs s Hbuilt Hremotes Hlife)
    as [Hidle Hlen].
  rewrite <- Hlen in Hremotes, Hactions.
  cbn zeta. split; [|split; [|split; [|split]]].
  - intros c' s' Hrun.
    apply (step_call_complete E start_ok self envs actions s c' s'); done.
  - intros obs rews dones infos Hret k env a He Ha.
    apply step_return_Ret in Hret as (-> & -> & -> & ->).
    destruct (step_replies_lookup E envs actions k env a He Ha) as [Hr _].
    cbn. change (map ?f ?l) with (f <$> l).
    by rewrite !list_lookup_fmap, Hr.
  - intros k env a He Ha.
    by destruct (step_replies_lookup E envs actions k env a He Ha).
  - intros env a. unfold step_reply, worker_handle. cbn.
    destruct (env_step E env a) as [[[[ob reward] dn] info] env1].
    by destruct (if dn then env_reset E env1 else (ob, env1)).
  - intros env rest c0 s_built Hok Hrun Hret.
    destruct (init_ok_complete E start_ok py_none env rest c0 s_built Hok Hrun) as [Hinit _].
    destruct (Hinit Hret) as [-> Hrest]. by eexists.
Qed.

Lemma SubprocVecEnv_step_index_aligned_witness :
  let E := counter_env (Act := Z) 0 in
  let s := demo_system [0; 5]%Z in
  at_rest E [0; 5]%Z s /\
  remotes demo_executor = seq 0 2 /\
  lifetime E (fun _ => true) (-1)%Z demo_executor [0; 5]%Z s [0; 5]%Z s /\
  (exists s', at_rest E [1; 6]%Z s' /\
     rtc (sys_step E (fun _ => true)) (SubprocVecEnv_step demo_executor [0; 0]%Z, s)
       (Ret (np.Array [np.Array [np.Scalar 1; np.Scalar 9]; np.Array [np.Scalar 6; np.Scalar 4]],
             np.Array [np.Scalar 1; np.Scalar 6],
             np.Array [np.Scalar false; np.Scalar false], [tt; tt])%Z, s')).
Proof.
  cbn zeta.
  assert (Hidle : at_rest (counter_env (Act := Z) 0) [0; 5]%Z (demo_system [0; 5]%Z))
    by reflexivity.
  assert (Hrem : remotes demo_executor = seq 0 2) by reflexivity.
  assert (Hlife : lifetime (counter_env (Act := Z) 0) (fun _ => true) (-1)%Z demo_executor
                    [0; 5]%Z (demo_system [0; 5]%Z) [0; 5]%Z (demo_system [0; 5]%Z))
    by constructor.
  repeat split; try assumption.
  destruct (SubprocVecEnv_step_index_aligned (counter_env (Act := Z) 0) (fun _ => true)
              (-1)%Z demo_executor [0; 5]%Z (demo_system [0; 5]%Z) [0; 5]%Z
              (demo_system [0; 5]%Z) [0; 0]%Z Hidle Hrem Hlife eq_refl) as [Hrun _].
  destruct (Hrun _ _ (rtc_refl _ _)) as [_ Hcan].
  exact Hcan.
Defined.

(** C9.  A [step] of the executor with N actions, on workers whose
    observations numpy can stack, returns under every schedule, and can be
    brought to return from wherever a schedule has taken it; its fourth
    component is the list of the workers' infos as they are, in worker
    order, and the first three are arrays with a new leading axis of length
    N over the workers' observations, rewards and dones.  Where the
    observations cannot be stacked the call raises and returns nothing. *)
Theorem SubprocVecEnv_step_infos_not_stacked
    {Act R Info Space St : Type} (E : Env Act R Info Space St)
    (start_ok : nat -> bool) (self : SubprocVecEnv)
    (envs : list St) (s : Sys) (actions : list Act)
    (Hidle : at_rest E envs s)
    (Hremotes : remotes self = seq 0 (length envs))
    (Hactions : length actions = length envs) :
  let results := step_replies E envs actions in
  let expected :=
    Ret (np.Array (map sr_obs results),
         np.Array (map (fun r => np.Scalar (sr_reward r)) results),
         np.Array (map (fun r => np.Scalar (sr_done r)) results),
         map sr_info results) in
  (forall r0, results !! 0 = Some r0 ->
     Forall (fun r => np.shape (sr_obs r) = np.shape (sr_obs r0)) results ->
     forall c' s',
       rtc (sys_step E start_ok) (SubprocVecEnv_step self actions, s) (c', s') ->
       (returned c' = true -> c' = expected) /\
       (exists s'', rtc (sys_step E start_ok) (c', s') (expected, s''))) /\
  (np.stack (map sr_obs results) = None ->
     forall c' s',
       rtc (sys_step E start_ok) (SubprocVecEnv_step self actions, s) (c', s') ->
       returned c' = true -> c' = Throw ValueError) /\
  (forall c' s' obs rews dones (infos : list Info),
     rtc (sys_step E start_ok) (SubprocVecEnv_step self actions, s) (c', s') ->
     c' = Ret (obs, rews, dones, infos) ->
     infos = map sr_info results /\
     length infos = length envs /\
     obs = np.Array (map sr_obs results) /\
     rews = np.Array (map (fun r => np.Scalar (sr_reward r)) results) /\
     dones = np.Array (map (fun r => np.Scalar (sr_done r)) results) /\
     np.shape rews = [length envs] /\
     np.shape dones = [length envs] /\
     (forall r0, results !! 0 = Some r0 ->
        np.shape obs = length envs :: np.shape (sr_obs r0) /\
        Forall (fun r => np.shape (sr_obs r) = np.shape (sr_obs r0)) results)).
Proof.
  cbn zeta. split; [|split].
  - intros r0 Hr0 Hall c' s' Hrun.
    destruct (step_call_complete E start_ok self envs actions s c' s' Hidle Hremotes
                Hactions Hrun) as [Hret [s'' [_ Hcan]]].
    rewrite step_return_eq in Hret, Hcan.
    assert (Hst : np.stack (map sr_obs (step_replies E envs actions)) =
                  Some (np.Array (map sr_obs (step_replies E envs actions)))).
    { destruct (step_replies E envs actions) as [|r rs]; [done|].
      cbn in Hr0. injection Hr0 as ->. cbn [map]. apply stack_same_shape.
      apply Forall_cons in Hall as [_ Hall].
      change (map ?g ?x) with (g <$> x). by apply Forall_fmap. }
    rewrite Hst in Hret, Hcan. split.
    + intros Hr. by destruct (Hret Hr).
    + by exists s''.
  - intros Hnone c' s' Hrun Hr.
    destruct (step_call_complete E start_ok self envs actions s c' s' Hidle Hremotes
                Hactions Hrun) as [Hret _].
    rewrite step_return_eq, Hnone in Hret. by destruct (Hret Hr).
  - intros c' s' obs rews dones infos Hrun ->.
    destruct (step_call_complete E start_ok self envs actions s _ s' Hidle Hremotes
                Hactions Hrun) as [Hret _].
    destruct (Hret eq_refl) as [Heq _].
    assert (Hn : length (step_replies E envs actions) = length envs).
    { unfold step_replies. rewrite length_zip_with. lia. }
    symmetry in Heq. pose proof Heq as Hstack.
    apply step_return_Ret in Heq as (-> & -> & -> & ->).
    rewrite length_map, Hn.
    do 5 (split; [done|]). split; [|split].
    + cbn. rewrite length_map, Hn. by destruct (step_replies E envs actions).
    + cbn. rewrite length_map, Hn. by destruct (step_replies E envs actions).
    + intros r0 Hr0. split.
      { cbn. rewrite length_map, Hn.
        destruct (step_replies E envs actions); [done|]. cbn in *. by simplify_eq. }
      unfold step_return in Hstack.
      destruct (step_replies E envs actions) as [|r rs]; [done|].
      cbn in Hr0. injection Hr0 as <-.
      rewrite unzip4_RStep in Hstack. cbn in Hstack.
      destruct (forallb _ (map sr_obs rs)) eqn:Hall; [|done].
      constructor; [done|].
      rewrite forallb_forall in Hall. apply Forall_forall. intros x Hx.
      specialize (Hall (sr_obs x)). rewrite bool_decide_eq_true in Hall.
      apply Hall, in_map. by apply list_elem_of_In.
Qed.

Lemma SubprocVecEnv_step_infos_not_stacked_witness :
  let E := counter_env (Act := Z) 0 in
  let s := demo_system [0; 5]%Z in
  at_rest E [0; 5]%Z s /\
  remotes demo_executor = seq 0 2 /\
  (exists s'',
     rtc (sys_step E (fun _ => true)) (SubprocVecEnv_step demo_executor [0; 0]%Z, s)
       (Ret (np.Array [np.Array [np.Scalar 1; np.Scalar 9]; np.Array [np.Scalar 6; np.Scalar 4]],
             np.Array [np.Scalar 1; np.Scalar 6],
             np.Array [np.Scalar false; np.Scalar false], [tt; tt])%Z, s'')) /\
  (forall c' s' obs rews dones infos,
     rtc (sys_step E (fun _ => true)) (SubprocVecEnv_step demo_executor [0; 0]%Z, s) (c', s') ->
     c' = Ret (obs, rews, dones, infos) ->
     infos = [tt; tt] /\ np.shape obs = [2; 2] /\ np.shape rews = [2]).
Proof.
  cbn zeta.
  assert (Hidle : at_rest (counter_env (Act := Z) 0) [0; 5]%Z (demo_system [0; 5]%Z))
    by reflexivity.
  assert (Hrem : remotes demo_executor = seq 0 2) by reflexivity.
  split; [exact Hidle|]. split; [exact Hrem|].
  destruct (SubprocVecEnv_step_infos_not_stacked (counter_env (Act := Z) 0) (fun _ => true)
              demo_executor [0; 5]%Z (demo_system [0; 5]%Z) [0; 0]%Z Hidle Hrem eq_refl)
    as (Htotal & _ & Hpartial).
  split.
  - refine (proj2 (Htotal _ eq_refl _ _ _ (rtc_refl _ _))).
    repeat constructor.
  - intros c' s' obs rews dones infos Hrun Hret.
    destruct (Hpartial c' s' obs rews dones infos Hrun Hret)
      as (Hi & _ & Ho & _ & _ & Hr & _).
    split; [exact Hi|]. split; [|exact Hr].
    rewrite Ho. reflexivity.
Defined.

(** C5, as the code has it.  When the start of a worker process fails,
    [__init__] raises that error and returns no executor, under every
    schedule; the processes started before it are not terminated, each
    whose [env_fn] returned an environment being still alive when the error
    reaches the caller.  When every start succeeds and the first worker's
    [env_fn] raises, so that the query for the spaces gets no answer,
    [__init__] neither returns nor raises. *)
Theorem SubprocVecEnv_init_failure :
  forall (Act R Info Space St : Type) (E : Env Act R Info Space St)
         (start_ok : nat -> bool) (py_none : Act) (env_fns : list (result St)),
    (forall k, k < length env_fns -> start_ok k = false ->
       (forall j, j < k -> start_ok j = true) ->
       forall c' s',
         rtc (sys_step E start_ok) (SubprocVecEnv_init py_none env_fns, spawned env_fns)
           (c', s') ->
         (returned c' = true ->
            c' = Throw OSError /\
            forall j env, j < k -> env_fns !! j = Some (Ok env) ->
              exists w, workers s' !! j = Some w /\ finished (proc w) = false) /\
         (exists s'', rtc (sys_step E start_ok) (c', s') (Throw OSError, s''))) /\
    (forall e fs, env_fns = Raise e :: fs ->
       (forall j, j < length env_fns -> start_ok j = true) ->
       forall c' s',
         rtc (sys_step E start_ok) (SubprocVecEnv_init py_none env_fns, spawned env_fns)
           (c', s') ->
         returned c' = false).
Proof.
  intros Act R Info Space St E start_ok py_none env_fns. split.
  - intros k Hk Hbad Hok c' s' Hrun.
    by apply (init_start_fail_complete E start_ok py_none env_fns k c' s').
  - intros e fs -> Hok c' s' Hrun.
    by apply (init_no_spaces_never_returns E start_ok py_none e fs Hok c' s').
Qed.

Lemma SubprocVecEnv_init_failure_witness :
  let E := counter_env (Act := Z) 0 in
  let start_ok := fun k => Nat.eqb k 0 in
  let env_fns := [Ok 0%Z; Ok 5%Z] in
  1 < length env_fns /\ start_ok 1 = false /\ (forall j, j < 1 -> start_ok j = true) /\
  exists s'',
    rtc (sys_step E start_ok) (SubprocVecEnv_init (-1)%Z env_fns, spawned env_fns)
      (Throw OSError, s'').
Proof.
  cbn zeta.
  assert (Hk : 1 < length [Ok 0%Z; Ok 5%Z]) by (cbn; lia).
  assert (Hok : forall j, j < 1 -> Nat.eqb j 0 = true).
  { intros j Hj. destruct j; [reflexivity|lia]. }
  split; [exact Hk|]. split; [reflexivity|]. split; [exact Hok|].
  destruct (SubprocVecEnv_init_failure Z Z unit unit Z (counter_env 0) (fun k => Nat.eqb k 0)
              (-1)%Z [Ok 0%Z; Ok 5%Z]) as [Hfail _].
  destruct (Hfail 1 Hk eq_refl Hok _ _ (rtc_refl _ _)) as [_ Hcan].
  exact Hcan.
Defined.

(** C5, as stated, fails.  Over two counting games, when the
    start of the second process fails the error reaches the caller with the
    first process alive, waiting in its loop; and when the first game's
    factory raises, no schedule brings [__init__] to raise or to return. *)
Lemma SubprocVecEnv_init_leaves_siblings_running :
  let E := counter_env (Act := Z) 0 in
  (let start_ok := fun k => Nat.eqb k 0 in
   let env_fns := [Ok 0%Z; Ok 5%Z] in
   exists s',
     rtc (sys_step E start_ok) (SubprocVecEnv_init (-1)%Z env_fns, spawned env_fns)
       (Throw OSError, s') /\
     workers s' = [waiting 0%Z; created (Ok 5%Z)] /\
     trace s' = [EStart 0]) /\
  (let env_fns := [Raise ValueError; Ok 5%Z] in
   forall c' s',
     rtc (sys_step E (fun _ => true)) (SubprocVecEnv_init (-1)%Z env_fns, spawned env_fns)
       (c', s') ->
     returned c' = false).
Proof.
  cbn zeta. split.
  - pose proof (seq_exec_reached (counter_env (Act := Z) 0) (fun k => Nat.eqb k 0)
                  (SubprocVecEnv_init (-1)%Z [Ok 0%Z; Ok 5%Z])
                  (spawned [Ok 0%Z; Ok 5%Z])) as Hrun.
    eexists. split; [exact Hrun|]. split; reflexivity.
  - apply (init_no_spaces_never_returns (counter_env (Act := Z) 0) (fun _ => true) (-1)%Z).
    done.
Qed.

(** * More of the wrappers *)

Section DequeProperties.
Context {A : Type}.

Lemma deque_fill_spec (m n : nat) : forall (buf : list A) (x : A),
  0 < n ->
  deque_fill m n buf x = drop (length buf + n - m) (buf ++ replicate n x).
Proof.
  induction n as [|n IH]; intros buf x Hn; [lia|].
  cbn [deque_fill]. destruct n as [|n].
  - cbn. unfold deque_append. rewrite length_app. cbn. done.
  - rewrite IH by lia. unfold deque_append.
    rewrite length_drop, !length_app. cbn [length replicate].
    rewrite <- (drop_app_le (buf ++ [x])) by (rewrite length_app; cbn; lia).
    rewrite drop_drop, <- app_assoc. cbn [app].
    f_equal. lia.
Qed.

Lemma deque_fill_full (m : nat) (buf : list A) (x : A) :
  0 < m -> length buf <= m -> deque_fill m m buf x = replicate m x.
Proof.
  intros Hm Hlen. rewrite deque_fill_spec by done.
  replace (length buf + m - m) with (length buf) by lia.
  apply drop_app_length.
Qed.

Lemma deque_fill_any (m : nat) (buf : list A) (x : A) :
  0 < m -> deque_fill m m buf x = replicate m x.
Proof.
  intros Hm. rewrite deque_fill_spec by done.
  replace (length buf + m - m) with (length buf) by lia.
  apply drop_app_length.
Qed.

Lemma deque_append_full (m : nat) (buf : list A) (x : A) :
  0 < m -> length buf = m -> deque_append m buf x = drop 1 buf ++ [x].
Proof.
  intros Hm Hlen. unfold deque_append. rewrite length_app. cbn.
  replace (length buf + 1 - m) with 1 by lia.
  rewrite drop_app_le by lia. done.
Qed.

End DequeProperties.

Section ConcatenateProperties.

Lemma mapM_map_Some {A B : Type} (g : A -> option B) (g' : A -> B) (l : list A) :
  (forall x, x ∈ l -> g x = Some (g' x)) -> mapM g l = Some (map g' l).
Proof.
  intros Hg. apply mapM_Some_2.
  induction l as [|x l IH]; cbn; constructor.
  - apply Hg. apply elem_of_cons. by left.
  - apply IH. intros y Hy. apply Hg. apply elem_of_cons. by right.
Qed.

Lemma forallb_map_const {A B : Type} (g : A -> B) (p : B -> bool) (l : list A) :
  (forall x, p (g x) = true) -> forallb p (map g l) = true.
Proof. intros Hp. induction l as [|x l IH]; cbn; [done|]. by rewrite Hp, IH. Qed.

Lemma concatenate0_pixels (fs : list (nat -> nat -> Z)) (i j : nat) :
  fs <> [] ->
  np_concatenate 0 (map (fun f => np.Array [np.Scalar (f i j)]) fs) =
  Some (np.Array (map (fun f => np.Scalar (f i j)) fs)).
Proof.
  intros Hne. destruct fs as [|f fs]; [done|].
  cbn [np_concatenate map].
  change (np.Array [np.Scalar (f i j)] :: map ?g fs)
    with (map (fun f => np.Array [np.Scalar (f i j)]) (f :: fs)).
  rewrite (mapM_map_Some np_rows (fun a => match a with np.Array xs => xs | _ => [] end)).
  2:{ intros x Hx. apply list_elem_of_In, in_map_iff in Hx as (g & <- & _). done. }
  cbn [mbind option_bind].
  rewrite forallb_map_const by (intros g; by apply bool_decide_eq_true_2).
  f_equal. f_equal. rewrite map_map. cbn. f_equal.
  clear. induction fs as [|g l IH]; cbn; [done|]. by rewrite IH.
Qed.

Lemma concatenate_S {X : Type} (axis : nat) (fs : list X) (m : nat)
    (G : X -> nat -> Obs) (res : nat -> Obs) :
  fs <> [] ->
  (forall i, i < m -> np_concatenate axis (map (fun f => G f i) fs) = Some (res i)) ->
  np_concatenate (S axis) (map (fun f => np.Array (map (G f) (seq 0 m))) fs) =
  Some (np.Array (map res (seq 0 m))).
Proof.
  intros Hne Hres. destruct fs as [|f0 fs]; [done|].
  cbn [np_concatenate map].
  change (np.Array (map (G f0) (seq 0 m)) :: map ?g fs)
    with (map (fun f => np.Array (map (G f) (seq 0 m))) (f0 :: fs)).
  rewrite (mapM_map_Some np_rows (fun a => match a with np.Array xs => xs | _ => [] end)).
  2:{ intros x Hx. apply list_elem_of_In, in_map_iff in Hx as (g & <- & _). done. }
  cbn [mbind option_bind]. rewrite !map_map. cbn [map hd].
  rewrite length_map, length_seq.
  change (map (G f0) (seq 0 m) :: map ?g fs)
    with (map (fun f => map (G f) (seq 0 m)) (f0 :: fs)).
  rewrite forallb_map_const
    by (intros g; apply bool_decide_eq_true_2; by rewrite length_map, length_seq).
  rewrite (mapM_map_Some _ res); [done|].
  intros i Hi. apply list_elem_of_In, in_seq in Hi.
  rewrite (mapM_map_Some _ (fun r => default (res 0) (r !! i))).
  - cbn [mbind option_bind]. rewrite map_map. rewrite <- (Hres i) by lia.
    f_equal. apply map_ext. intros f.
    change (map ?g ?l) with (g <$> l).
    by rewrite list_lookup_fmap, lookup_seq_lt by lia.
  - intros r Hr. apply list_elem_of_In, in_map_iff in Hr as (f & <- & _).
    change (map ?g ?l) with (g <$> l).
    by rewrite list_lookup_fmap, lookup_seq_lt by lia.
Qed.

(** Gray frames put together along the last axis: the frame whose pixels
    hold, channel by channel, the pixels of the frames given. *)
Lemma concatenate2_frames (h w : nat) (fs : list (nat -> nat -> Z)) :
  fs <> [] ->
  np_concatenate 2 (map (mk_frame h w) fs) = Some (mk_stack h w fs).
Proof.
  intros Hne. unfold mk_frame, mk_stack. cbn [map].
  apply (concatenate_S 1 fs h
           (fun f i => np.Array (map (fun j => np.Array [np.Scalar (f i j)]) (seq 0 w)))
           (fun i => np.Array (map (fun j => np.Array (map (fun f => np.Scalar (f i j)) fs))
                                 (seq 0 w))) Hne).
  intros i Hi.
  apply (concatenate_S 0 fs w (fun f j => np.Array [np.Scalar (f i j)])
           (fun j => np.Array (map (fun f => np.Scalar (f i j)) fs)) Hne).
  intros j Hj. by apply concatenate0_pixels.
Qed.

End ConcatenateProperties.

(** X1.  With [k] at least 1, a reset of a FrameStack leaves the buffer
    holding [k] copies of the observation of the inner reset, whatever it
    held before, and returns them put together along the last axis: for a
    gray frame, the frame whose [k] channels all are that frame. *)
Theorem FrameStack_reset_fills
    {R Info Space St : Type} (E : Env Z R Info Space St) (w : FrameStack.t St)
    (Hk : (0 < FrameStack.k w)%Z) :
  let ob := (env_reset E (FrameStack.env w)).1 in
  let n := Z.to_nat (FrameStack.k w) in
  FrameStack._reset E w =
    (match np_concatenate 2 (replicate n ob) with
     | Some a => Passes a
     | None => Raises ValueError
     end,
     {| FrameStack.env := (env_reset E (FrameStack.env w)).2;
        FrameStack.k := FrameStack.k w;
        FrameStack.frames := replicate n ob |}) /\
  (forall (h wd : nat) (f : nat -> nat -> Z),
      ob = mk_frame h wd f ->
      (FrameStack._reset E w).1 = Passes (mk_stack h wd (replicate n f))).
Proof.
  cbn zeta.
  assert (Hn : 0 < Z.to_nat (FrameStack.k w)) by lia.
  assert (Heq : FrameStack._reset E w =
    (match np_concatenate 2 (replicate (Z.to_nat (FrameStack.k w))
                               (env_reset E (FrameStack.env w)).1) with
     | Some a => Passes a
     | None => Raises ValueError
     end,
     {| FrameStack.env := (env_reset E (FrameStack.env w)).2;
        FrameStack.k := FrameStack.k w;
        FrameStack.frames := replicate (Z.to_nat (FrameStack.k w))
                               (env_reset E (FrameStack.env w)).1 |})).
  { unfold FrameStack._reset, FrameStack._observation.
    destruct (env_reset E (FrameStack.env w)) as [ob env']. cbn.
    rewrite deque_fill_any by done.
    rewrite length_replicate, bool_decide_eq_true_2 by lia. done. }
  split; [done|].
  intros h wd f Hob. rewrite Heq, Hob. cbn [fst].
  rewrite <- (fmap_replicate (mk_frame h wd)).
  change (mk_frame h wd <$> ?l) with (map (mk_frame h wd) l).
  rewrite concatenate2_frames; [done|].
  destruct (Z.to_nat (FrameStack.k w)); [lia|done].
Qed.

Lemma FrameStack_reset_fills_witness :
  let E := counter_env 0 in
  let w := {| FrameStack.env := 7%Z; FrameStack.k := 4%Z; FrameStack.frames := [] |} in
  (0 < FrameStack.k w)%Z /\
  FrameStack.frames (FrameStack._reset E w).2 =
    replicate 4 (np.Array [np.Scalar 0%Z; np.Scalar 10%Z]) /\
  FrameStack.env (FrameStack._reset E w).2 = 0%Z.
Proof.
  cbn zeta.
  assert (Hk : (0 < FrameStack.k {| FrameStack.env := 7%Z; FrameStack.k := 4%Z;
                                     FrameStack.frames := [] |})%Z) by (cbn; lia).
  split; [exact Hk|].
  destruct (FrameStack_reset_fills (counter_env 0) _ Hk) as [Heq _].
  rewrite Heq. split; reflexivity.
Defined.

(** X2.  Once its buffer is full, a step of a FrameStack drops the oldest
    frame, takes in the observation of the inner step, and keeps the buffer
    full; it returns the buffer put together along the last axis, oldest
    frame first, with the reward, [done] and info of the inner step. *)
Theorem FrameStack_step_slides
    {R Info Space St : Type} (E : Env Z R Info Space St) (w : FrameStack.t St)
    (action : Z)
    (Hk : (0 < FrameStack.k w)%Z)
    (Hfull : Z.of_nat (length (FrameStack.frames w)) = FrameStack.k w) :
  let inner := env_step E (FrameStack.env w) action in
  let frames' := drop 1 (FrameStack.frames w) ++ [sr_obs inner.1] in
  FrameStack._step E w action =
    (match np_concatenate 2 frames' with
     | Some a => Passes (a, sr_reward inner.1, sr_done inner.1, sr_info inner.1)
     | None => Raises ValueError
     end,
     {| FrameStack.env := inner.2; FrameStack.k := FrameStack.k w;
        FrameStack.frames := frames' |}) /\
  Z.of_nat (length frames') = FrameStack.k w /\
  (forall (h wd : nat) (fs : list (nat -> nat -> Z)) (f : nat -> nat -> Z),
      FrameStack.frames w = map (mk_frame h wd) fs ->
      sr_obs inner.1 = mk_frame h wd f ->
      (FrameStack._step E w action).1 =
        Passes (mk_stack h wd (drop 1 fs ++ [f]),
                sr_reward inner.1, sr_done inner.1, sr_info inner.1)).
Proof.
  cbn zeta.
  assert (Hlen : Z.of_nat (length (drop 1 (FrameStack.frames w) ++
                   [sr_obs (env_step E (FrameStack.env w) action).1])) = FrameStack.k w).
  { rewrite length_app, length_drop. cbn. lia. }
  assert (Heq : FrameStack._step E w action =
    (match np_concatenate 2 (drop 1 (FrameStack.frames w) ++
                               [sr_obs (env_step E (FrameStack.env w) action).1]) with
     | Some a => Passes (a, sr_reward (env_step E (FrameStack.env w) action).1,
                         sr_done (env_step E (FrameStack.env w) action).1,
                         sr_info (env_step E (FrameStack.env w) action).1)
     | None => Raises ValueError
     end,
     {| FrameStack.env := (env_step E (FrameStack.env w) action).2;
        FrameStack.k := FrameStack.k w;
        FrameStack.frames := drop 1 (FrameStack.frames w) ++
                               [sr_obs (env_step E (FrameStack.env w) action).1] |})).
  { unfold FrameStack._step, FrameStack._observation.
    destruct (env_step E (FrameStack.env w) action) as [[[[ob reward] dn] info] env'].
    unfold sr_obs, sr_reward, sr_done, sr_info in *.
    cbn [fst snd FrameStack.env FrameStack.k FrameStack.frames] in *.
    rewrite deque_append_full by lia.
    rewrite bool_decide_eq_true_2 by done.
    by destruct (np_concatenate 2 (drop 1 (FrameStack.frames w) ++ [ob])). }
  split; [done|]. split; [done|].
  intros h wd fs f Hframes Hob. rewrite Heq, Hframes, Hob. cbn [fst].
  replace (drop 1 (map (mk_frame h wd) fs) ++ [mk_frame h wd f])
    with (map (mk_frame h wd) (drop 1 fs ++ [f])).
  - rewrite concatenate2_frames; [done|]. by destruct (drop 1 fs).
  - rewrite map_app. cbn [map]. f_equal. by destruct fs.
Qed.

Lemma FrameStack_step_slides_witness :
  let E := counter_env 0 in
  let w := {| FrameStack.env := 0%Z; FrameStack.k := 2%Z;
              FrameStack.frames := [np.Scalar 5%Z; np.Scalar 6%Z] |} in
  (0 < FrameStack.k w)%Z /\
  Z.of_nat (length (FrameStack.frames w)) = FrameStack.k w /\
  FrameStack.frames (FrameStack._step E w 0%Z).2 =
    [np.Scalar 6%Z; np.Array [np.Scalar 1%Z; np.Scalar 9%Z]].
Proof.
  cbn zeta.
  assert (Hk : (0 < 2)%Z) by lia.
  assert (Hfull : Z.of_nat 2 = 2%Z) by reflexivity.
  split; [exact Hk|]. split; [exact Hfull|].
  destruct (FrameStack_step_slides (counter_env 0)
              {| FrameStack.env := 0%Z; FrameStack.k := 2%Z;
                 FrameStack.frames := [np.Scalar 5%Z; np.Scalar 6%Z] |} 0%Z Hk Hfull)
    as [Heq _].
  rewrite Heq. reflexivity.
Defined.

(** X3.  A step of a FrameStack that was never reset: with [k] at least 2
    the buffer is not full and the step fails its assertion; with [k] equal
    to 1 it goes through; with [k] equal to 0 there is nothing to put
    together and numpy raises.  The inner step has been made in each case. *)
Theorem FrameStack_step_before_reset
    {R Info Space St : Type} (E : Env Z R Info Space St) (env0 : St) (k0 : Z)
    (shp : list Z) (w : FrameStack.t St) (action : Z)
    (Hinit : FrameStack.init env0 k0 shp = Passes w) :
  let inner := env_step E env0 action in
  FrameStack.frames w = [] /\ (0 <= k0)%Z /\ shp !! 2 = Some 1%Z /\
  FrameStack.env (FrameStack._step E w action).2 = inner.2 /\
  (FrameStack._step E w action).1 =
    (if bool_decide (k0 = 0)%Z then Raises ValueError
     else if bool_decide (k0 = 1)%Z then
       match np_concatenate 2 [sr_obs inner.1] with
       | Some a => Passes (a, sr_reward inner.1, sr_done inner.1, sr_info inner.1)
       | None => Raises ValueError
       end
     else AssertionError).
Proof.
  cbn zeta. unfold FrameStack.init in Hinit.
  destruct (Z.ltb_spec k0 0) as [|Hk0]; [done|].
  change (py_getitem shp 2)
    with (match shp !! 2 with Some x => Ok x | None => Raise IndexError end) in Hinit.
  destruct (shp !! 2) as [c|] eqn:Hshp; [|done].
  destruct (Z.eqb_spec c 1) as [->|]; [|done].
  injection Hinit as <-. cbn [FrameStack.frames FrameStack.env FrameStack.k].
  split; [done|]. split; [done|]. split; [done|].
  unfold FrameStack._step, FrameStack._observation.
  cbn [FrameStack.env FrameStack.k FrameStack.frames].
  destruct (env_step E env0 action) as [[[[ob reward] dn] info] env'].
  unfold sr_obs, sr_reward, sr_done, sr_info.
  cbn [fst snd FrameStack.env FrameStack.k FrameStack.frames].
  split; [done|].
  assert (Hbuf : deque_append (Z.to_nat k0) [] ob =
                 if bool_decide (k0 = 0)%Z then [] else [ob]).
  { unfold deque_append. cbn [app length]. case_bool_decide as H0.
    - by subst.
    - by replace (1 - Z.to_nat k0) with 0 by lia. }
  rewrite Hbuf. case_bool_decide as H0.
  - subst. by rewrite bool_decide_eq_true_2 by done.
  - cbn [length]. case_bool_decide as H1.
    + rewrite bool_decide_eq_true_2 by lia.
      by destruct (np_concatenate 2 [ob]).
    + by rewrite bool_decide_eq_false_2 by lia.
Qed.

Lemma FrameStack_step_before_reset_witness :
  let E := counter_env 0 in
  let w := {| FrameStack.env := 0%Z; FrameStack.k := 4%Z; FrameStack.frames := [] |} in
  FrameStack.init 0%Z 4%Z [84; 84; 1]%Z = Passes w /\
  (FrameStack._step E w 0%Z).1 = AssertionError.
Proof.
  cbn zeta.
  assert (Hinit : FrameStack.init 0%Z 4%Z [84; 84; 1]%Z =
                  Passes {| FrameStack.env := 0%Z; FrameStack.k := 4%Z;
                            FrameStack.frames := [] |}) by reflexivity.
  split; [exact Hinit|].
  destruct (FrameStack_step_before_reset (counter_env 0) 0%Z 4%Z [84; 84; 1]%Z _ 0%Z Hinit)
    as (_ & _ & _ & _ & Hres).
  rewrite Hres. reflexivity.
Defined.

Section NoopProperties.
Context {R Info Space St : Type}.
Variable E : Env Z R Info Space St.

(** The loop never leaves early: [n] no-op steps are made, with a reset
    after each one that ended the episode, and from the first iteration on
    the local [obs] holds an observation. *)
Lemma NoopResetEnv_loop_calls (n : nat) :
  forall (s : St) (calls : list (Call Z)) (obs : option Obs),
  exists (dones : list bool) (s' : St) (obs' : option Obs),
    length dones = n /\
    NoopResetEnv.loop (traced E) n (s, calls) obs
      = ((s', calls ++ noop_calls dones), obs') /\
    NoopResetEnv.loop E n s obs = (s', obs') /\
    (0 < n \/ is_Some obs -> is_Some obs').
Proof.
  induction n as [|n IH]; intros s calls obs.
  - exists [], s, obs. cbn. rewrite app_nil_r.
    split; [done|]. split; [done|]. split; [done|].
    intros [?|?]; [lia|done].
  - cbn [NoopResetEnv.loop]. cbn [traced env_step env_reset fst snd].
    destruct (env_step E s 0%Z) as [[[[ob reward] dn] info] s1].
    destruct dn.
    + cbn [traced env_step env_reset fst snd].
      destruct (env_reset E s1) as [ob' s2].
      destruct (IH s2 ((calls ++ [CStep 0%Z]) ++ [CReset]) (Some ob'))
        as (dones & s' & obs' & Hlen & Htr & Hpl & Hsome).
      exists (true :: dones), s', obs'. cbn [length].
      split; [by rewrite Hlen|]. rewrite Htr, Hpl.
      split; [|split; [done|]].
      * unfold noop_calls. cbn. by rewrite <- !app_assoc.
      * intros _. apply Hsome. by right.
    + destruct (IH s1 (calls ++ [CStep 0%Z]) (Some ob))
        as (dones & s' & obs' & Hlen & Htr & Hpl & Hsome).
      exists (false :: dones), s', obs'. cbn [length].
      split; [by rewrite Hlen|]. rewrite Htr, Hpl.
      split; [|split; [done|]].
      * unfold noop_calls. cbn. by rewrite <- !app_assoc.
      * intros _. apply Hsome. by right.
Qed.

(** The loop, iteration by iteration: [states] holds the state of the inner
    environment before each iteration and after the last, [dones] what each
    no-op step reported.  Every iteration is made; the state moves on by
    the step, and by a reset after it where the step reported [done]; the
    local [obs] ends as the observation of the last call made. *)
Lemma NoopResetEnv_loop_run (n : nat) :
  forall (s : St) (calls : list (Call Z)) (obs : option Obs),
  exists (states : list St) (dones : list bool) (obs' : option Obs) (s' : St),
    length dones = n /\ length states = S n /\
    states !! 0 = Some s /\ states !! n = Some s' /\
    (forall i st, i < n -> states !! i = Some st ->
       dones !! i = Some (sr_done (env_step E st 0%Z).1) /\
       states !! S i =
         Some (if sr_done (env_step E st 0%Z).1
               then (env_reset E (env_step E st 0%Z).2).2
               else (env_step E st 0%Z).2) /\
       (S i = n ->
          obs' = Some (if sr_done (env_step E st 0%Z).1
                       then (env_reset E (env_step E st 0%Z).2).1
                       else sr_obs (env_step E st 0%Z).1))) /\
    (n = 0 -> obs' = obs) /\
    NoopResetEnv.loop (traced E) n (s, calls) obs
      = ((s', calls ++ noop_calls dones), obs').
Proof.
  induction n as [|n IH]; intros s calls obs.
  - exists [s], [], obs, s. cbn. rewrite app_nil_r.
    do 4 (split; [done|]). split; [|done]. intros i st Hi. lia.
  - cbn [NoopResetEnv.loop]. cbn [traced env_step env_reset fst snd].
    destruct (env_step E s 0%Z) as [[[[ob reward] dn] info] s1] eqn:Hstep.
    pose (s2 := if dn then (env_reset E s1).2 else s1).
    pose (ob2 := if dn then (env_reset E s1).1 else ob).
    destruct (IH s2 (calls ++ CStep 0%Z :: (if dn then [CReset] else [])) (Some ob2))
      as (states & dones & obs' & s' & Hlen & Hlens & H0 & Hn & Hrun & Hobs & Heq).
    exists (s :: states), (dn :: dones), obs', s'. cbn [length].
    split; [by rewrite Hlen|]. split; [by rewrite Hlens|].
    split; [done|]. split; [done|]. split; [|split; [done|]].
    + intros [|i] st Hi Hst.
      * cbn in Hst. injection Hst as <-. rewrite Hstep.
        unfold sr_done, sr_obs. cbn [fst snd].
        split; [done|]. split; [done|].
        intros Hlast. rewrite Hobs by lia. done.
      * cbn in Hst. destruct (Hrun i st) as (Hd & Hs & Ho); [lia|done|].
        split; [done|]. split; [done|]. intros Hlast. apply Ho. lia.
    + destruct dn.
      * cbn [traced env_step env_reset fst snd].
        subst s2 ob2. cbn in Heq.
        destruct (env_reset E s1) as [ob' s3]. cbn in Heq.
        rewrite <- app_assoc. cbn [app]. rewrite Heq.
        unfold noop_calls. cbn. by rewrite <- !app_assoc.
      * subst s2 ob2. cbn in Heq. rewrite Heq.
        unfold noop_calls. cbn. by rewrite <- !app_assoc.
Qed.

Lemma NoopResetEnv_reset_ok (w : NoopResetEnv.t (St * list (Call Z))) (draw n : Z) :
  NoopResetEnv.num_noops w draw = Ok n -> (0 < n)%Z ->
  exists (dones : list bool) (o : Obs) (s' : St),
    length dones = Z.to_nat n /\
    NoopResetEnv._reset (traced E) w draw =
      (Passes (Some o),
       NoopResetEnv.with_env w
         (s', (NoopResetEnv.env w).2 ++ CReset :: noop_calls dones)).
Proof.
  intros Hn Hpos. unfold NoopResetEnv._reset. rewrite Hn.
  cbn [traced env_reset].
  destruct (env_reset E (NoopResetEnv.env w).1) as [o0 s1].
  replace (0 <? n)%Z with true by lia.
  destruct (NoopResetEnv_loop_calls (Z.to_nat n) s1
              ((NoopResetEnv.env w).2 ++ [CReset]) None)
    as (dones & s' & obs' & Hlen & Htr & _ & Hsome).
  destruct Hsome as [o ->]; [left; lia|].
  exists dones, o, s'. split; [done|].
  rewrite Htr. by rewrite <- app_assoc.
Qed.

End NoopProperties.

(** X4.  A reset of a NoopResetEnv with no override and [noop_max] at least
    1 resets the inner environment, then makes [n] no-op steps, [n] between
    1 and [noop_max] as the random generator gives it, and never leaves the
    loop early.  [states] holds the state of the inner environment before
    each step and after the last, [dones] what each step reported: after a
    step that reported [done] the environment is reset, after another it is
    left as the step left it.  The observation returned is that of the last
    call made: of the reset, where the last step reported [done], else of
    that step. *)
Theorem NoopResetEnv_reset_random
    {R Info Space St : Type} (E : Env Z R Info Space St)
    (w : NoopResetEnv.t (St * list (Call Z))) (draw : Z)
    (Hov : NoopResetEnv.override_num_noops w = None)
    (Hmax : (1 <= NoopResetEnv.noop_max w)%Z) :
  let n := Z.to_nat (1 + draw mod NoopResetEnv.noop_max w) in
  exists (states : list St) (dones : list bool) (o : Obs) (s' : St),
    (1 <= Z.of_nat n <= NoopResetEnv.noop_max w)%Z /\
    length dones = n /\ length states = S n /\
    states !! 0 = Some (env_reset E (NoopResetEnv.env w).1).2 /\
    states !! n = Some s' /\
    (forall i st, i < n -> states !! i = Some st ->
       dones !! i = Some (sr_done (env_step E st 0%Z).1) /\
       states !! S i =
         Some (if sr_done (env_step E st 0%Z).1
               then (env_reset E (env_step E st 0%Z).2).2
               else (env_step E st 0%Z).2) /\
       (S i = n ->
          o = if sr_done (env_step E st 0%Z).1
              then (env_reset E (env_step E st 0%Z).2).1
              else sr_obs (env_step E st 0%Z).1)) /\
    NoopResetEnv._reset (traced E) w draw =
      (Passes (Some o),
       NoopResetEnv.with_env w
         (s', (NoopResetEnv.env w).2 ++ CReset :: noop_calls dones)).
Proof.
  cbn zeta.
  assert (Hrange : (1 <= 1 + draw mod NoopResetEnv.noop_max w
                      <= NoopResetEnv.noop_max w)%Z).
  { pose proof (Z.mod_pos_bound draw (NoopResetEnv.noop_max w)). lia. }
  assert (Hn : NoopResetEnv.num_noops w draw =
               Ok (1 + draw mod NoopResetEnv.noop_max w)%Z).
  { unfold NoopResetEnv.num_noops, NoopResetEnv.randint. rewrite Hov.
    replace (1 <? NoopResetEnv.noop_max w + 1)%Z with true by lia.
    do 3 f_equal. lia. }
  unfold NoopResetEnv._reset. rewrite Hn. cbn [traced env_reset].
  destruct (env_reset E (NoopResetEnv.env w).1) as [o0 s1]. cbn [snd].
  replace (0 <? 1 + draw mod NoopResetEnv.noop_max w)%Z with true by lia.
  destruct (NoopResetEnv_loop_run E (Z.to_nat (1 + draw mod NoopResetEnv.noop_max w)) s1
              ((NoopResetEnv.env w).2 ++ [CReset]) None)
    as (states & dones & obs' & s' & Hlen & Hlens & H0 & Hlast & Hrun & _ & Heq).
  assert (Hsome : exists o, obs' = Some o).
  { destruct (lookup_lt_is_Some_2 states
                (Z.to_nat (1 + draw mod NoopResetEnv.noop_max w) - 1)) as [st Hst]; [lia|].
    destruct (Hrun (Z.to_nat (1 + draw mod NoopResetEnv.noop_max w) - 1) st)
      as (_ & _ & Ho); [lia|done|].
    eexists. apply Ho. lia. }
  destruct Hsome as [o ->].
  exists states, dones, o, s'.
  split; [lia|]. do 4 (split; [done|]). split.
  - intros i st Hi Hst. destruct (Hrun i st Hi Hst) as (Hd & Hs & Ho).
    split; [done|]. split; [done|]. intros Hl. specialize (Ho Hl). by injection Ho.
  - rewrite Heq. by rewrite <- app_assoc.
Qed.

Lemma NoopResetEnv_reset_random_witness :
  let w := {| NoopResetEnv.env := (7%Z, @nil (Call Z)); NoopResetEnv.noop_max := 30%Z;
              NoopResetEnv.override_num_noops := None |} in
  NoopResetEnv.override_num_noops w = None /\
  (1 <= NoopResetEnv.noop_max w)%Z /\
  exists (states : list Z) (dones : list bool) (o : Obs) (s' : Z),
    length dones = 5 /\
    states !! 0 = Some 0%Z /\
    NoopResetEnv._reset (traced (counter_env 2)) w 64%Z =
      (Passes (Some o), NoopResetEnv.with_env w (s', CReset :: noop_calls dones)).
Proof.
  cbn zeta.
  assert (Hov : NoopResetEnv.override_num_noops
                  {| NoopResetEnv.env := (7%Z, @nil (Call Z)); NoopResetEnv.noop_max := 30%Z;
                     NoopResetEnv.override_num_noops := None |} = None) by reflexivity.
  assert (Hmax : (1 <= 30)%Z) by lia.
  split; [exact Hov|]. split; [exact Hmax|].
  destruct (NoopResetEnv_reset_random (counter_env 2)
              {| NoopResetEnv.env := (7%Z, @nil (Call Z)); NoopResetEnv.noop_max := 30%Z;
                 NoopResetEnv.override_num_noops := None |} 64%Z Hov Hmax)
    as (states & dones & o & s' & _ & Hlen & _ & H0 & _ & _ & Heq).
  exists states, dones, o, s'. split; [exact Hlen|]. split; [exact H0|exact Heq].
Defined.

(** X5.  With the number of no-ops overridden by a positive [n], a reset of
    a NoopResetEnv makes exactly [n] no-op steps after the reset of the
    inner environment, whatever [noop_max] is, and consults no random
    number. *)
Theorem NoopResetEnv_reset_override
    {R Info Space St : Type} (E : Env Z R Info Space St)
    (w : NoopResetEnv.t (St * list (Call Z))) (n : Z)
    (Hov : NoopResetEnv.override_num_noops w = Some n)
    (Hpos : (0 < n)%Z) :
  exists (dones : list bool) (o : Obs) (s' : St),
    length dones = Z.to_nat n /\
    forall draw : Z,
      NoopResetEnv._reset (traced E) w draw =
        (Passes (Some o),
         NoopResetEnv.with_env w
           (s', (NoopResetEnv.env w).2 ++ CReset :: noop_calls dones)).
Proof.
  assert (Hn : forall draw, NoopResetEnv.num_noops w draw = Ok n).
  { intros draw. unfold NoopResetEnv.num_noops. by rewrite Hov. }
  destruct (NoopResetEnv_reset_ok E w 0%Z n (Hn 0%Z) Hpos)
    as (dones & o & s' & Hlen & Heq).
  exists dones, o, s'. split; [done|]. intros draw.
  rewrite <- Heq. unfold NoopResetEnv._reset. by rewrite !Hn.
Qed.

Lemma NoopResetEnv_reset_override_witness :
  let w := {| NoopResetEnv.env := (0%Z, @nil (Call Z)); NoopResetEnv.noop_max := 0%Z;
              NoopResetEnv.override_num_noops := Some 3%Z |} in
  NoopResetEnv.override_num_noops w = Some 3%Z /\ (0 < 3)%Z /\
  exists (dones : list bool) (o : Obs) (s' : Z),
    length dones = 3 /\
    forall draw : Z,
      NoopResetEnv._reset (traced (counter_env 2)) w draw =
        (Passes (Some o), NoopResetEnv.with_env w (s', CReset :: noop_calls dones)).
Proof.
  cbn zeta. split; [reflexivity|]. split; [lia|].
  apply (NoopResetEnv_reset_override (counter_env 2)
           {| NoopResetEnv.env := (0%Z, @nil (Call Z)); NoopResetEnv.noop_max := 0%Z;
              NoopResetEnv.override_num_noops := Some 3%Z |} 3%Z).
  - reflexivity.
  - lia.
Defined.

(** X6.  A reset of a NoopResetEnv that cannot choose a positive number of
    no-ops fails after the inner environment has been reset, and makes no
    step: an override that is not positive fails the assertion, and with no
    override a [noop_max] below 1 makes the random draw raise. *)
Theorem NoopResetEnv_reset_fails
    {R Info Space St : Type} (E : Env Z R Info Space St)
    (w : NoopResetEnv.t (St * list (Call Z))) (draw : Z)
    (Hbad : match NoopResetEnv.override_num_noops w with
            | Some n => (n <= 0)%Z
            | None => (NoopResetEnv.noop_max w < 1)%Z
            end) :
  NoopResetEnv._reset (traced E) w draw =
    (match NoopResetEnv.override_num_noops w with
     | Some _ => AssertionError
     | None => Raises ValueError
     end,
     NoopResetEnv.with_env w
       ((env_reset E (NoopResetEnv.env w).1).2, (NoopResetEnv.env w).2 ++ [CReset])).
Proof.
  unfold NoopResetEnv._reset, NoopResetEnv.num_noops, NoopResetEnv.randint.
  cbn [traced env_reset].
  destruct (env_reset E (NoopResetEnv.env w).1) as [o0 s1].
  destruct (NoopResetEnv.override_num_noops w) as [n|].
  - by replace (0 <? n)%Z with false by lia.
  - by replace (1 <? NoopResetEnv.noop_max w + 1)%Z with false by lia.
Qed.

Lemma NoopResetEnv_reset_fails_witness :
  let w := {| NoopResetEnv.env := (5%Z, @nil (Call Z)); NoopResetEnv.noop_max := 0%Z;
              NoopResetEnv.override_num_noops := None |} in
  (NoopResetEnv.noop_max w < 1)%Z /\
  NoopResetEnv._reset (traced (counter_env 2)) w 7%Z =
    (Raises ValueError, NoopResetEnv.with_env w (0%Z, [CReset])).
Proof.
  cbn zeta.
  assert (H : (0 < 1)%Z) by lia.
  split; [exact H|].
  exact (NoopResetEnv_reset_fails (counter_env 2)
           {| NoopResetEnv.env := (5%Z, @nil (Call Z)); NoopResetEnv.noop_max := 0%Z;
              NoopResetEnv.override_num_noops := None |} 7%Z H).
Defined.

(** X7.  A reset of a FireResetEnv resets the inner environment, makes a
    step with action 1 and a step with action 2, and resets again after
    either of them that ended the episode.  The observation returned is
    that of the step with action 2, also where the environment has been
    reset after it. *)
Theorem FireResetEnv_reset_calls
    {R Info Space St : Type} (E : Env Z R Info Space St)
    (s : St) (calls : list (Call Z)) :
  let s1 := (env_reset E s).2 in
  let r1 := env_step E s1 1%Z in
  let s2 := if sr_done r1.1 then (env_reset E r1.2).2 else r1.2 in
  let r2 := env_step E s2 2%Z in
  let s3 := if sr_done r2.1 then (env_reset E r2.2).2 else r2.2 in
  FireResetEnv._reset E s = (sr_obs r2.1, s3) /\
  FireResetEnv._reset (traced E) (s, calls) =
    (sr_obs r2.1,
     (s3, calls ++ [CReset; CStep 1%Z] ++ (if sr_done r1.1 then [CReset] else [])
                ++ [CStep 2%Z] ++ (if sr_done r2.1 then [CReset] else []))).
Proof.
  cbn zeta. unfold FireResetEnv._reset. cbn [traced env_step env_reset fst snd].
  destruct (env_reset E s) as [o0 s1]. cbn [traced env_step env_reset fst snd].
  destruct (env_step E s1 1%Z) as [[[[ob1 rw1] d1] i1] s2].
  unfold sr_done, sr_obs. cbn [fst snd].
  destruct d1.
  - cbn [traced env_step env_reset fst snd].
    destruct (env_reset E s2) as [o2 s3]. cbn [traced env_step env_reset fst snd].
    destruct (env_step E s3 2%Z) as [[[[ob2 rw2] d2] i2] s4]. cbn [fst snd].
    destruct d2.
    + cbn [traced env_step env_reset fst snd].
      destruct (env_reset E s4) as [o4 s5]. cbn [fst snd].
      split; [done|]. by rewrite <- !app_assoc.
    + split; [done|]. by rewrite <- !app_assoc.
  - cbn [traced env_step env_reset fst snd].
    destruct (env_step E s2 2%Z) as [[[[ob2 rw2] d2] i2] s4]. cbn [fst snd].
    destruct d2.
    + cbn [traced env_step env_reset fst snd].
      destruct (env_reset E s4) as [o4 s5]. cbn [fst snd].
      split; [done|]. by rewrite <- !app_assoc.
    + split; [done|]. by rewrite <- !app_assoc.
Qed.

Section ShapeProperties.

Lemma shape_maximum : forall a b : Obs,
  np.shape a = np.shape b -> np.shape (np.maximum a b) = np.shape a.
Proof.
  fix IH 1. intros [x|xs] [y|ys] Hsh; try done.
  cbn [np.maximum np.shape] in *.
  destruct xs as [|x xs], ys as [|y ys]; try done.
  cbn [zip_with length] in *.
  injection Hsh as Hlen Hhd.
  rewrite length_zip_with, <- Hlen, Nat.min_id.
  f_equal. by apply IH.
Qed.

Lemma max_frame_shape (sh : list nat) (buf : list Obs) :
  Forall (fun o => np.shape o = sh) buf -> 1 <= length buf <= 2 ->
  exists frame, max_frame buf = Some frame /\ np.shape frame = sh.
Proof.
  intros Hbuf Hlen.
  destruct buf as [|a [|b [|c buf]]]; cbn in Hlen; try lia.
  - exists a. split; [done|]. by inversion Hbuf.
  - exists (np.maximum a b).
    inversion Hbuf as [|? ? Ha Hbuf']. inversion Hbuf' as [|? ? Hb _]. subst.
    split.
    + unfold max_frame, np.stack. cbn [forallb].
      rewrite bool_decide_eq_true_2 by congruence. done.
    + rewrite shape_maximum; congruence.
Qed.

Lemma deque_append_Forall {A : Type} (P : A -> Prop) (buf : list A) (x : A) :
  Forall P buf -> P x ->
  Forall P (deque_append 2 buf x) /\ 1 <= length (deque_append 2 buf x) <= 2.
Proof.
  intros Hbuf Hx. unfold deque_append. split.
  - apply Forall_drop, Forall_app. split; [done|]. by apply Forall_singleton.
  - rewrite length_drop, length_app. cbn. lia.
Qed.

Context {R Info Space : Type} `{!RewardOps R} {St : Type}.
Variable E : Env Z R Info Space St.
Variable P : Obs -> Prop.
Hypothesis Henv : forall (s : St) (a : Z), P (sr_obs (env_step E s a).1).

Lemma MaxAndSkipEnv_loop_Forall (n : nat) :
  forall (action : Z) (env : St) (buf : list Obs) (total : R) lst,
    0 < n -> Forall P buf ->
    exists env' buf' total' dn info,
      MaxAndSkipEnv_loop E n action env buf total lst
        = (env', buf', total', Some (dn, info)) /\
      Forall P buf' /\ 1 <= length buf' <= 2.
Proof using Henv.
  induction n as [|n IH]; intros action env buf total lst Hn Hbuf; [lia|].
  cbn [MaxAndSkipEnv_loop].
  pose proof (Henv env action) as Hob.
  destruct (env_step E env action) as [[[[obs reward] dn] info] env1].
  unfold sr_obs in Hob. cbn [fst] in Hob.
  destruct (deque_append_Forall P buf obs Hbuf Hob) as [HF Hlen].
  destruct dn.
  - by eexists _, _, _, _, _.
  - destruct n as [|n].
    + by eexists _, _, _, _, _.
    + apply IH; [lia|done].
Qed.

End ShapeProperties.

(** X8.  With a [skip] that is not positive a step of a MaxAndSkipEnv
    always raises and leaves the wrapper and the inner environment as they
    were: no inner step is made.  On a wrapper that was just built the
    empty buffer cannot be stacked; right after a reset the buffer can, and
    the unset local [info] fails the return. *)
Theorem MaxAndSkipEnv_step_no_skip
    {R Info Space : Type} `{!RewardOps R} {St : Type}
    (E : Env Z R Info Space St) (w : MaxAndSkipEnv St) (action : Z)
    (Hskip : (_skip w <= 0)%Z) :
  MaxAndSkipEnv_step E w action =
    (Raise (match max_frame (_obs_buffer w) with
            | Some _ => UnboundLocalError
            | None => ValueError
            end), w) /\
  MaxAndSkipEnv_step E (MaxAndSkipEnv_init (ms_env w) (_skip w)) action =
    (Raise ValueError, MaxAndSkipEnv_init (ms_env w) (_skip w)) /\
  MaxAndSkipEnv_step E (MaxAndSkipEnv_reset E w).2 action =
    (Raise UnboundLocalError, (MaxAndSkipEnv_reset E w).2).
Proof.
  assert (Hgen : forall w' : MaxAndSkipEnv St, _skip w' = _skip w ->
    MaxAndSkipEnv_step E w' action =
      (Raise (match max_frame (_obs_buffer w') with
              | Some _ => UnboundLocalError
              | None => ValueError
              end), w')).
  { intros [env buf sk] Hsk. cbn in Hsk. subst sk.
    unfold MaxAndSkipEnv_step. cbn [_skip ms_env _obs_buffer].
    replace (Z.to_nat (_skip w)) with 0 by lia. cbn [MaxAndSkipEnv_loop].
    by destruct (max_frame buf). }
  split; [by apply Hgen|]. split.
  - by rewrite Hgen.
  - rewrite Hgen.
    + unfold MaxAndSkipEnv_reset. by destruct (env_reset E (ms_env w)).
    + unfold MaxAndSkipEnv_reset. by destruct (env_reset E (ms_env w)).
Qed.

Lemma MaxAndSkipEnv_step_no_skip_witness :
  let w := MaxAndSkipEnv_init 3%Z 0%Z in
  (_skip w <= 0)%Z /\
  MaxAndSkipEnv_step (counter_env 5) (MaxAndSkipEnv_reset (counter_env 5) w).2 1%Z =
    (Raise UnboundLocalError,
     {| ms_env := 0%Z; _obs_buffer := [np.Array [np.Scalar 0%Z; np.Scalar 10%Z]];
        _skip := 0%Z |}).
Proof.
  cbn zeta.
  assert (H : (_skip (MaxAndSkipEnv_init 3%Z 0%Z) <= 0)%Z) by (cbn; lia).
  split; [exact H|].
  destruct (MaxAndSkipEnv_step_no_skip (counter_env 5) (MaxAndSkipEnv_init 3%Z 0%Z) 1%Z H)
    as (_ & _ & Heq).
  rewrite Heq. reflexivity.
Defined.

(** X9.  If every frame of the inner environment has the shape [sh], and so
    has every frame in the buffer, a step of a MaxAndSkipEnv with a
    positive [skip] does not raise: it returns a frame of shape [sh], and
    leaves one or two frames of that shape in the buffer. *)
Theorem MaxAndSkipEnv_step_keeps_shape
    {R Info Space : Type} `{!RewardOps R} {St : Type}
    (E : Env Z R Info Space St) (w : MaxAndSkipEnv St) (action : Z) (sh : list nat)
    (Hskip : (0 < _skip w)%Z)
    (Henv : forall (s : St) (a : Z), np.shape (sr_obs (env_step E s a).1) = sh)
    (Hbuf : Forall (fun o => np.shape o = sh) (_obs_buffer w)) :
  exists frame total dn info w',
    MaxAndSkipEnv_step E w action = (Ok (frame, total, dn, info), w') /\
    np.shape frame = sh /\
    Forall (fun o => np.shape o = sh) (_obs_buffer w') /\
    1 <= length (_obs_buffer w') <= 2 /\
    _skip w' = _skip w.
Proof.
  unfold MaxAndSkipEnv_step.
  destruct (MaxAndSkipEnv_loop_Forall E (fun o => np.shape o = sh) Henv
              (Z.to_nat (_skip w)) action (ms_env w) (_obs_buffer w) rzero None)
    as (env' & buf' & total' & dn & info & -> & HF & Hlen); [lia|done|].
  destruct (max_frame_shape sh buf' HF Hlen) as (frame & -> & Hsh).
  by eexists _, _, _, _, _.
Qed.

Lemma MaxAndSkipEnv_step_keeps_shape_witness :
  let w := MaxAndSkipEnv_init 0%Z 4%Z in
  (0 < _skip w)%Z /\
  (forall (s : Z) (a : Z), np.shape (sr_obs (env_step (counter_env 9) s a).1) = [2]) /\
  Forall (fun o : Obs => np.shape o = [2]) (_obs_buffer w) /\
  exists frame total dn info w',
    MaxAndSkipEnv_step (counter_env 9) w 1%Z = (Ok (frame, total, dn, info), w') /\
    np.shape frame = [2].
Proof.
  cbn zeta.
  assert (Hskip : (0 < _skip (MaxAndSkipEnv_init 0%Z 4%Z))%Z) by (cbn; lia).
  assert (Henv : forall (s : Z) (a : Z),
             np.shape (sr_obs (env_step (counter_env 9) s a).1) = [2])
    by (intros s a; reflexivity).
  assert (Hbuf : Forall (fun o : Obs => np.shape o = [2])
                   (_obs_buffer (MaxAndSkipEnv_init 0%Z 4%Z))) by constructor.
  split; [exact Hskip|]. split; [exact Henv|]. split; [exact Hbuf|].
  destruct (MaxAndSkipEnv_step_keeps_shape (counter_env 9) (MaxAndSkipEnv_init 0%Z 4%Z)
              1%Z [2] Hskip Henv Hbuf)
    as (frame & total & dn & info & w' & Heq & Hsh & _).
  by exists frame, total, dn, info, w'.
Defined.

(** X10.  The table of a FrameSkipping built for [n_aux] auxiliary actions
    has [n_aux - 1] entries (none when [n_aux] is below 1): an action from
    [n_real_acts + max (n_aux - 1) 0] on raises [IndexError], the last of
    the [n_aux] auxiliary actions included, and makes no step of the inner
    environment. *)
Theorem FrameSkipping_step_out_of_range
    {R Info Space : Type} `{!RewardOps R} {St : Type}
    (E : Env Z R Info Space St) (env : St) (n_aux repeat action : Z)
    (Hact : (env_n E env + Z.max (n_aux - 1) 0 <= action)%Z) :
  let w := FrameSkipping_init E env n_aux repeat in
  FrameSkipping_step E w action = (Raise IndexError, w) /\
  FrameSkipping_step (traced E) (FrameSkipping_init (traced E) (env, []) n_aux repeat) action
    = (Raise IndexError, FrameSkipping_init (traced E) (env, []) n_aux repeat).
Proof.
  assert (Hget : py_getitem (map (fun i => 2 ^ i)%Z (py_range 1 n_aux))
                   (action - env_n E env) = Raise IndexError).
  { unfold py_getitem, py_range. change (map ?f ?l) with (f <$> l). cbn zeta.
    destruct (Z.ltb_spec (action - env_n E env) 0) as [?|_]; [lia|].
    destruct (Z.ltb_spec (action - env_n E env) 0) as [?|_]; [lia|].
    rewrite <- list_fmap_compose, list_lookup_fmap.
    rewrite (lookup_seq_ge 0 (Z.to_nat (n_aux - 1)) (Z.to_nat (action - env_n E env)))
      by lia.
    done. }
  cbn zeta. unfold FrameSkipping_step, FrameSkipping_init.
  cbn [n_real_acts skip fs_env traced env_n fst].
  replace (action <? env_n E env)%Z with false by lia.
  by rewrite Hget.
Qed.

Lemma FrameSkipping_step_out_of_range_witness :
  let E := counter_env (Act := Z) 0 in
  (env_n E 0%Z + Z.max (3 - 1) 0 <= 6)%Z /\
  FrameSkipping_step E (FrameSkipping_init E 0%Z 3%Z 0%Z) 6%Z
    = (Raise IndexError, FrameSkipping_init E 0%Z 3%Z 0%Z).
Proof.
  cbn zeta.
  assert (H : (env_n (counter_env (Act := Z) 0) 0%Z + Z.max (3 - 1) 0 <= 6)%Z) by (cbn; lia).
  split; [exact H|].
  exact (proj1 (FrameSkipping_step_out_of_range (counter_env 0) 0%Z 3%Z 0%Z 6%Z H)).
Defined.

(** X11.  A worker that runs an EpisodicLifeEnv and handles a step: where
    the inner step ended the game it resets the inner environment; where
    the step only lost a life, the reset the worker makes is a no-op step
    of the inner environment, and the observation sent is that of the
    no-op step; otherwise nothing follows the step.  The reward and info
    sent are those of the step asked for, [done] tells the loss of a life
    or the end of the game. *)
Theorem worker_step_over_EpisodicLifeEnv
    {R Info Space St : Type} (E : Env Z R Info Space St)
    (w : EpisodicLifeEnv (St * list (Call Z))) (a : Z) :
  let r := env_step E (el_env w).1 a in
  let lost := ((env_lives E r.2 <? lives w)%Z && (0 <? env_lives E r.2)%Z)%bool in
  exists w',
    worker_handle (EpisodicLifeEnv_env (traced E)) w ("step", a) =
      (Running w',
       Some (RStep (if sr_done r.1 then (env_reset E r.2).1
                    else if lost then sr_obs (env_step E r.2 0%Z).1
                    else sr_obs r.1,
                    sr_reward r.1, (lost || sr_done r.1)%bool, sr_info r.1))) /\
    (el_env w').2 =
      (el_env w).2 ++ CStep a ::
        (if sr_done r.1 then [CReset] else if lost then [CStep 0%Z] else []) /\
    was_real_done w' = sr_done r.1.
Proof.
  cbn zeta. unfold worker_handle. cbn [String.eqb Ascii.eqb Bool.eqb].
  cbn [EpisodicLifeEnv_env env_step env_reset].
  unfold EpisodicLifeEnv_step. cbn [traced env_step env_reset env_lives fst snd].
  destruct (env_step E (el_env w).1 a) as [[[[ob reward] dn] info] s1].
  unfold sr_obs, sr_reward, sr_done, sr_info.
  cbn [traced env_step env_reset env_lives fst snd].
  destruct dn.
  - replace (if ((env_lives E s1 <? lives w)%Z && (0 <? env_lives E s1)%Z)%bool
             then true else true) with true by (by destruct (_ && _)%bool).
    unfold EpisodicLifeEnv_reset.
    cbn [was_real_done el_env traced env_step env_reset env_lives fst snd].
    destruct (env_reset E s1) as [ob' s2].
    eexists. split; [by rewrite orb_true_r|].
    split; [|reflexivity]. cbn. by rewrite <- app_assoc.
  - destruct ((env_lives E s1 <? lives w)%Z && (0 <? env_lives E s1)%Z)%bool.
    + unfold EpisodicLifeEnv_reset.
      cbn [was_real_done el_env traced env_step env_reset env_lives fst snd].
      destruct (env_step E s1 0%Z) as [[[[ob' reward'] dn'] info'] s2].
      eexists. split; [done|].
      split; [|reflexivity]. cbn. by rewrite <- app_assoc.
    + eexists. split; [done|]. split; [|reflexivity]. done.
Qed.

(** * More of the executor *)

Section Starved.
Context {Act R Info Space St : Type}.
Variable E : Env Act R Info Space St.
Variable start_ok : nat -> bool.
Implicit Types (s : Sys (Act := Act) (R := R) (Info := Info) (Space := Space) (St := St))
  (w : Worker (Act := Act) (R := R) (Info := Info) (Space := Space) (St := St)).
#[local] Abbreviation Prog4 := (Coord (Act := Act) (R := R) (Info := Info) (Space := Space)).

(** Code that waits for a worker that stays silent does not end, run
    eagerly. *)
Lemma seq_exec_starved {A : Type} (c : Prog4 A) : forall s w k (to_k : bool),
  workers s !! k = Some w -> silent E w ->
  (to_k = true -> finished (proc w) = true) ->
  waits_for to_k k c ->
  returned (seq_exec E start_ok c s).1 = false.
Proof.
  induction c as [a|e|k' next IH|k' m next IH|k' next IH|k' next IH];
    intros s w k to_k Hk [Hout Hfix] Hdead Hwait; cbn in Hwait; try done.
  - destruct Hwait as [Hsend Hwait]. cbn [seq_exec]. unfold do_send.
    destruct (workers s !! k') as [w'|] eqn:Hk'; [|done].
    destruct (decide (k' = k)) as [->|Hne].
    + destruct Hsend as [->|?]; [|done]. rewrite Hk in Hk'. injection Hk' as <-.
      apply (IH _ {| proc := proc w; inbox := inbox w ++ [m]; outbox := outbox w |}
                k true); [| |done|done].
      * rewrite flush_lookup. cbn [log set_worker workers].
        rewrite list_lookup_insert_eq by (by eapply lookup_lt_Some).
        cbn. by rewrite flush_worker_finished by (by apply Hdead).
      * split; [done|]. apply flush_worker_finished. by apply Hdead.
    + apply (IH _ w k to_k); [|done|done|done].
      rewrite flush_lookup. cbn [log set_worker workers].
      rewrite list_lookup_insert_ne by done. rewrite Hk. cbn. by rewrite Hfix.
  - cbn [seq_exec]. unfold do_recv.
    destruct (workers s !! k') as [w'|] eqn:Hk'; [|done].
    destruct w' as [p i o]. destruct o as [|r o]; [done|].
    destruct (decide (k' = k)) as [->|Hne].
    { rewrite Hk in Hk'. by simplify_eq. }
    destruct Hwait as [?|Hwait]; [done|].
    apply (IH r _ w k to_k); [|done|done|done].
    cbn [log set_worker workers]. by rewrite list_lookup_insert_ne by done.
  - cbn [seq_exec]. unfold do_join.
    destruct (workers s !! k') as [w'|]; [|done].
    destruct (finished (proc w')); [|done].
    by apply (IH _ w k to_k).
Qed.

Lemma waits_for_bind {A B : Type} (c : Prog4 A) (f : A -> Prog4 B) to_k k :
  waits_for to_k k c -> waits_for to_k k (bind c f).
Proof.
  induction c as [a|e|k' next IH|k' m next IH|k' next IH|k' next IH]; cbn; try done.
  - intros [? ?]. split; [done|]. by apply IH.
  - intros [?|Hw]; [by left|]. right. intros r. by apply IH.
Qed.

Lemma waits_for_sends {X A : Type} (key : X -> nat) (mk : X -> msg)
    (f : unit -> Prog4 A) (l : list X) to_k k :
  Forall (fun x => to_k = true \/ key x <> k) l ->
  waits_for to_k k (f tt) ->
  waits_for to_k k (bind (for_each l (fun x => send (key x) (mk x))) f).
Proof.
  intros Hl Hf. induction Hl as [|x l Hx _ IH]; [done|].
  cbn. split; [done|]. apply IH.
Qed.

Lemma waits_for_collect (ks : list nat) to_k k :
  k ∈ ks -> waits_for to_k k (collect ks (recv (Act := Act) (R := R) (Info := Info) (Space := Space))).
Proof.
  induction ks as [|k' ks IH]; intros Hin; [by apply elem_of_nil in Hin|].
  cbn. apply elem_of_cons in Hin as [->|Hin]; [by left|].
  right. intros r. apply waits_for_bind. by apply IH.
Qed.

(** Each call that gathers replies waits for every worker. *)
Lemma step_waits (self : SubprocVecEnv (Space := Space)) (actions : list Act) to_k k :
  k ∈ remotes self ->
  (to_k = true \/ length actions <= k /\ remotes self = seq 0 (length (remotes self))) ->
  waits_for to_k k (SubprocVecEnv_step (R := R) (Info := Info) self actions).
Proof.
  intros Hin Hsend. unfold SubprocVecEnv_step.
  apply (waits_for_sends (X := nat * Act) fst (fun ra => ("step", ra.2))).
  - destruct Hsend as [->|[Hlen Hrem]]; [apply Forall_forall; by left|].
    apply Forall_forall. intros [j a] Hja. right. cbn.
    apply list_elem_of_lookup in Hja as [i Hi].
    apply lookup_zip_with_Some in Hi as (j' & a' & [= <- <-] & Hj & Ha).
    rewrite Hrem in Hj. apply lookup_seq in Hj as [-> _].
    apply lookup_lt_Some in Ha. cbn. lia.
  - by apply waits_for_bind, waits_for_collect.
Qed.

Lemma broadcast_waits {A : Type} (cmd : string) (py_none : Act)
    (g : list Reply -> Prog4 A) (ks : list nat) k :
  k ∈ ks ->
  waits_for true k
    (bind (for_each ks (fun remote => send remote (cmd, py_none)))
       (fun _ => bind (collect ks recv) g)).
Proof.
  intros Hin.
  apply (waits_for_sends (X := nat) id (fun _ => (cmd, py_none))).
  - apply Forall_forall. by left.
  - by apply waits_for_bind, waits_for_collect.
Qed.

Lemma starved_never_returns {A : Type} (c : Prog4 A) s w k (to_k : bool) :
  workers (flush E s) !! k = Some w -> silent E w ->
  (to_k = true -> finished (proc w) = true) ->
  waits_for to_k k c ->
  forall c' s', rtc (sys_step E start_ok) (c, s) (c', s') -> returned c' = false.
Proof.
  intros Hk Hsil Hdead Hwait. apply never_returns.
  by apply (seq_exec_starved c (flush E s) w k to_k).
Qed.

End Starved.

(** X12.  An executor one of whose workers is gone, with no reply of it
    left in its pipe, is stuck: a [step], a [reset] and a
    [get_last_reward] send their commands and then wait for that worker,
    and under no schedule return or raise. *)
Theorem SubprocVecEnv_dead_worker_blocks
    {Act R Info Space St : Type} (E : Env Act R Info Space St)
    (start_ok : nat -> bool) (py_none : Act) (self : SubprocVecEnv (Space := Space))
    (s : Sys) (k : nat) (w : Worker) (actions : list Act)
    (Hremote : k ∈ remotes self)
    (Hworker : workers (flush E s) !! k = Some w)
    (Hgone : finished (proc w) = true)
    (Hempty : outbox w = []) :
  (forall c' s',
      rtc (sys_step E start_ok) (SubprocVecEnv_step self actions, s) (c', s') ->
      returned c' = false) /\
  (forall c' s',
      rtc (sys_step E start_ok) (SubprocVecEnv_reset py_none self, s) (c', s') ->
      returned c' = false) /\
  (forall c' s',
      rtc (sys_step E start_ok) (SubprocVecEnv_get_last_reward py_none self, s) (c', s') ->
      returned c' = false).
Proof.
  assert (Hsil : silent E w).
  { split; [done|]. by apply flush_worker_finished. }
  split; [|split]; apply (starved_never_returns E start_ok _ s w k true); try done.
  - apply step_waits; [done|by left].
  - by apply broadcast_waits.
  - by apply broadcast_waits.
Qed.

Lemma SubprocVecEnv_dead_worker_blocks_witness :
  let E := counter_env (Act := Z) 0 in
  let s : Sys (Act := Z) (R := Z) (Info := unit) (Space := unit) (St := Z) :=
    {| workers := [waiting 0%Z; {| proc := Crashed KeyError; inbox := []; outbox := [] |}];
       trace := [] |} in
  1 ∈ remotes demo_executor /\
  forall c' s',
    rtc (sys_step E (fun _ => true)) (SubprocVecEnv_step demo_executor [1; 2]%Z, s) (c', s') ->
    returned c' = false.
Proof.
  cbn zeta.
  assert (Hin : 1 ∈ remotes (demo_executor)).
  { cbn. apply elem_of_cons. right. apply elem_of_cons. by left. }
  split; [exact Hin|].
  refine (proj1 (SubprocVecEnv_dead_worker_blocks (counter_env (Act := Z) 0) (fun _ => true)
                   (-1)%Z demo_executor _ 1
                   {| proc := Crashed KeyError; inbox := []; outbox := [] |}
                   [1; 2]%Z Hin _ _ _)); reflexivity.
Defined.

(** X13.  A [step] with fewer actions than workers sends a command to the
    first workers only and then waits for a reply of each worker: under no
    schedule does it return or raise. *)
Theorem SubprocVecEnv_step_too_few_actions
    {Act R Info Space St : Type} (E : Env Act R Info Space St)
    (start_ok : nat -> bool) (self : SubprocVecEnv (Space := Space))
    (envs : list St) (s : Sys) (actions : list Act)
    (Hidle : at_rest E envs s)
    (Hremotes : remotes self = seq 0 (length envs))
    (Hfew : length actions < length envs) :
  forall c' s',
    rtc (sys_step E start_ok) (SubprocVecEnv_step self actions, s) (c', s') ->
    returned c' = false.
Proof.
  destruct (lookup_lt_is_Some_2 envs (length actions) Hfew) as [env Henv].
  apply (starved_never_returns E start_ok _ s (waiting env) (length actions) false).
  - unfold at_rest, idle in Hidle. rewrite Hidle.
    change (map ?f ?l) with (f <$> l). by rewrite list_lookup_fmap, Henv.
  - split; [done|]. apply flush_worker_waiting.
  - done.
  - assert (Hin : length actions ∈ remotes self).
    { rewrite Hremotes. apply elem_of_seq. lia. }
    apply step_waits; [done|].
    right. split; [done|]. by rewrite Hremotes, length_seq.
Qed.

Lemma SubprocVecEnv_step_too_few_actions_witness :
  let E := counter_env (Act := Z) 0 in
  let s := demo_system [0; 5]%Z in
  at_rest E [0; 5]%Z s /\ 1 < 2 /\
  forall c' s',
    rtc (sys_step E (fun _ => true)) (SubprocVecEnv_step demo_executor [3%Z], s) (c', s') ->
    returned c' = false.
Proof.
  cbn zeta.
  assert (Hidle : at_rest (counter_env (Act := Z) 0) [0; 5]%Z (demo_system [0; 5]%Z))
    by reflexivity.
  assert (Hfew : length [3%Z] < length [0; 5]%Z) by (cbn; lia).
  split; [exact Hidle|]. split; [exact Hfew|].
  exact (SubprocVecEnv_step_too_few_actions (counter_env (Act := Z) 0) (fun _ => true)
           demo_executor [0; 5]%Z (demo_system [0; 5]%Z) [3%Z] Hidle eq_refl Hfew).
Defined.

Section Shutdown.
Context {Act R Info Space St : Type}.
Variable E : Env Act R Info Space St.
Variable start_ok : nat -> bool.
Variable py_none : Act.

Implicit Types (s : Sys (Act := Act) (R := R) (Info := Info) (Space := Space) (St := St))
  (w : Worker (Act := Act) (R := R) (Info := Info) (Space := Space) (St := St)).
#[local] Abbreviation Prog5 := (Coord (Act := Act) (R := R) (Info := Info) (Space := Space)).

(** Worker [k] is gone. *)
#[local] Abbreviation fin k s :=
  (exists w, workers s !! k = Some w /\ finished (proc w) = true).

Lemma closable_fixed w : closable w -> flush_worker E w = w.
Proof.
  destruct w as [[f|f|env| |e] i o]; cbn; try done.
  - intros ->. apply flush_worker_waiting.
  - intros _. by apply flush_worker_finished.
  - intros _. by apply flush_worker_finished.
Qed.

Lemma closable_closed w :
  closable w ->
  exists w', flush_worker E {| proc := proc w; inbox := inbox w ++ [("close", py_none)];
                               outbox := outbox w |} = w' /\
             finished (proc w') = true /\ outbox w' = outbox w.
Proof.
  destruct w as [[f|f|env| |e] i o]; cbn; try done.
  - intros ->. eexists. split; [apply flush_worker_handled|].
    cbn. by rewrite app_nil_r.
  - intros _. eexists. split; [by apply flush_worker_finished|done].
  - intros _. eexists. split; [by apply flush_worker_finished|done].
Qed.

Lemma finished_closable w : finished (proc w) = true -> closable w.
Proof. by destruct w as [[f|f|env| |e] i o]. Qed.

(** The sends of a [close], run eagerly. *)
Lemma seq_exec_close_sends {A : Type} (f : unit -> Prog5 A) (l : list nat) :
  forall (K : list nat) s,
    Forall closable (workers s) ->
    (forall k, k ∈ K -> fin k s) ->
    (forall k, k ∈ l -> k < length (workers s)) ->
    exists s',
      seq_exec E start_ok
        (bind (for_each l (fun remote => send remote ("close", py_none))) f) s
        = seq_exec E start_ok (f tt) s' /\
      Forall closable (workers s') /\
      (forall k, k ∈ K ++ l -> fin k s') /\
      outbox <$> workers s' = outbox <$> workers s /\
      trace s' = trace s ++ map (fun k => ESend k ("close", py_none)) l.
Proof.
  induction l as [|k l IH]; intros K s Hcl HK Hl.
  - exists s. cbn. rewrite !app_nil_r. split; [done|]. split; [done|].
    split; [done|]. by split.
  - cbn [for_each send bind seq_exec]. unfold do_send.
    destruct (lookup_lt_is_Some_2 (workers s) k) as [w Hw].
    { apply Hl. apply elem_of_cons. by left. }
    rewrite Hw.
    destruct (closable_closed w) as (w' & Hw' & Hfin & Hout).
    { by eapply Forall_lookup_1 in Hcl. }
    assert (Hflush : workers (flush E (log (set_worker s k
                        {| proc := proc w; inbox := inbox w ++ [("close", py_none)];
                           outbox := outbox w |}) (ESend k ("close", py_none))))
                     = <[k := w']> (workers s)).
    { cbn [flush log set_worker workers].
      change (map ?g ?x) with (g <$> x). rewrite list_fmap_insert, Hw'. f_equal.
      change (?g <$> ?x) with (map g x). apply map_flush_fixed.
      eapply Forall_impl; [exact Hcl|]. apply closable_fixed. }
    destruct (IH (K ++ [k])
                (flush E (log (set_worker s k
                   {| proc := proc w; inbox := inbox w ++ [("close", py_none)];
                      outbox := outbox w |}) (ESend k ("close", py_none)))))
      as (s' & Heq & Hcl' & HK' & Hout' & Htr).
    + rewrite Hflush. apply Forall_insert; [done|]. by apply finished_closable.
    + rewrite Hflush. intros k' Hk'.
      destruct (decide (k' = k)) as [->|Hne].
      * exists w'. split; [|done].
        apply list_lookup_insert_eq. by eapply lookup_lt_Some.
      * rewrite list_lookup_insert_ne by done. apply HK.
        apply elem_of_app in Hk' as [?|Hk']; [done|].
        apply elem_of_cons in Hk' as [?|Hk']; [done|]. by apply elem_of_nil in Hk'.
    + rewrite Hflush, length_insert. intros k' Hk'. apply Hl.
      apply elem_of_cons. by right.
    + exists s'. split; [done|]. split; [done|]. split; [|split].
      * intros k' Hk'. apply HK'. rewrite <- app_assoc. done.
      * rewrite Hout', Hflush, list_fmap_insert. apply list_insert_id.
        by rewrite list_lookup_fmap, Hw, Hout.
      * rewrite Htr. cbn. by rewrite <- app_assoc.
Qed.

(** The joins of a [close], run eagerly, every process being gone. *)
Lemma seq_exec_joins (ks : list nat) : forall s,
  (forall k, k ∈ ks -> fin k s) ->
  seq_exec E start_ok (for_each ks join) s =
    (Ret tt, {| workers := workers s; trace := trace s ++ map EJoin ks |}).
Proof.
  induction ks as [|k ks IH]; intros s Hks.
  - cbn. rewrite app_nil_r. by destruct s.
  - cbn [for_each join bind seq_exec]. unfold do_join.
    destruct (Hks k) as (w & -> & ->); [apply elem_of_cons; by left|].
    rewrite IH.
    + cbn. by rewrite <- app_assoc.
    + intros k' Hk'. cbn. apply Hks. apply elem_of_cons. by right.
Qed.

Lemma seq_exec_close (self : SubprocVecEnv (Space := Space)) s :
  Forall closable (workers s) ->
  remotes self = seq 0 (length (workers s)) ->
  ps self = seq 0 (length (workers s)) ->
  exists ws,
    seq_exec E start_ok (SubprocVecEnv_close py_none self) s =
      (Ret tt,
       {| workers := ws;
          trace := (trace s ++ map (fun k => ESend k ("close", py_none))
                                 (seq 0 (length (workers s)))) ++
                   map EJoin (seq 0 (length (workers s))) |}) /\
    Forall (fun w => finished (proc w) = true) ws /\
    outbox <$> ws = outbox <$> workers s.
Proof.
  intros Hcl Hrem Hps. unfold SubprocVecEnv_close. rewrite Hrem, Hps.
  destruct (seq_exec_close_sends (fun _ => for_each (seq 0 (length (workers s))) join)
              (seq 0 (length (workers s))) [] s Hcl)
    as (s' & Heq & Hcl' & Hfin & Hout & Htr).
  { intros k Hk. by apply elem_of_nil in Hk. }
  { intros k Hk. apply elem_of_seq in Hk. lia. }
  exists (workers s'). rewrite Heq, seq_exec_joins by done. rewrite Htr.
  split; [done|]. split; [|done].
  apply Forall_lookup_2. intros i w Hw.
  destruct (Hfin i) as (w' & Hw' & Hf).
  { cbn. apply elem_of_seq. apply lookup_lt_Some in Hw.
    apply (f_equal (@length _)) in Hout. rewrite !length_fmap in Hout. lia. }
  rewrite Hw in Hw'. by injection Hw' as <-.
Qed.

(** A process that is gone stays gone, and a process joined is gone. *)
Lemma sys_step_fin {A : Type} (x y : Prog5 A * Sys) k :
  sys_step E start_ok x y -> fin k x.2 -> fin k y.2.
Proof.
  intros [c s c' s' Hstep|k' c s s' Hstep]; cbn [fst snd]; intros (w & Hw & Hf).
  - destruct c as [a|e|k' next|k' m next|k' next|k' next]; cbn in Hstep; try done.
    + unfold do_start in Hstep.
      destruct (workers s !! k') as [w'|] eqn:Hk'; [|done].
      destruct w' as [[f|f|env| |e] i o]; try done.
      destruct (start_ok k'); simplify_eq; [|by exists w].
      cbn. destruct (decide (k = k')) as [->|Hne]; [by simplify_eq|].
      exists w. by rewrite list_lookup_insert_ne.
    + unfold do_send in Hstep.
      destruct (workers s !! k') as [w'|] eqn:Hk'; [|done].
      cbn in Hstep. simplify_eq. cbn.
      destruct (decide (k = k')) as [->|Hne].
      * simplify_eq. eexists.
        split; [apply list_lookup_insert_eq; by eapply lookup_lt_Some|done].
      * exists w. by rewrite list_lookup_insert_ne.
    + unfold do_recv in Hstep.
      destruct (workers s !! k') as [w'|] eqn:Hk'; [|done].
      destruct w' as [p i o]. destruct o as [|r o]; [done|].
      cbn in Hstep. simplify_eq. cbn.
      destruct (decide (k = k')) as [->|Hne].
      * simplify_eq. eexists.
        split; [apply list_lookup_insert_eq; by eapply lookup_lt_Some|done].
      * exists w. by rewrite list_lookup_insert_ne.
    + unfold do_join in Hstep.
      destruct (workers s !! k') as [w'|] eqn:Hk'; [|done].
      destruct (finished (proc w')); [|done].
      cbn in Hstep. simplify_eq. by exists w.
  - unfold sys_worker_step in Hstep.
    destruct (workers s !! k') as [w'|] eqn:Hk'; [|done]. cbn in Hstep.
    destruct (worker_step E w') as [w''|] eqn:Hstep'; [|done].
    cbn in Hstep. simplify_eq. cbn.
    destruct (decide (k = k')) as [->|Hne].
    + rewrite Hw in Hk'. injection Hk' as <-. unfold worker_step in Hstep'.
      by destruct (proc w).
    + exists w. by rewrite list_lookup_insert_ne.
Qed.

Lemma sys_step_joined {A : Type} (x y : Prog5 A * Sys) :
  sys_step E start_ok x y ->
  exists evs, trace y.2 = trace x.2 ++ evs /\ forall k, EJoin k ∈ evs -> fin k y.2.
Proof.
  intros [c s c' s' Hstep|k' c s s' Hstep]; cbn [fst snd].
  - destruct c as [a|e|k' next|k' m next|k' next|k' next]; cbn in Hstep; try done.
    + unfold do_start in Hstep.
      destruct (workers s !! k') as [w'|] eqn:Hk'; [|done].
      destruct w' as [[f|f|env| |e] i o]; try done.
      destruct (start_ok k'); simplify_eq.
      * exists [EStart k']. split; [done|]. intros k Hk.
        apply elem_of_cons in Hk as [?|Hk]; [done|]. by apply elem_of_nil in Hk.
      * exists []. rewrite app_nil_r. split; [done|]. intros k Hk.
        by apply elem_of_nil in Hk.
    + unfold do_send in Hstep.
      destruct (workers s !! k') as [w'|] eqn:Hk'; [|done].
      cbn in Hstep. simplify_eq.
      exists [ESend k' m]. split; [done|]. intros k Hk.
      apply elem_of_cons in Hk as [?|Hk]; [done|]. by apply elem_of_nil in Hk.
    + unfold do_recv in Hstep.
      destruct (workers s !! k') as [w'|] eqn:Hk'; [|done].
      destruct w' as [p i o]. destruct o as [|r o]; [done|].
      cbn in Hstep. simplify_eq.
      exists [ERecv k' r]. split; [done|]. intros k Hk.
      apply elem_of_cons in Hk as [?|Hk]; [done|]. by apply elem_of_nil in Hk.
    + unfold do_join in Hstep.
      destruct (workers s !! k') as [w'|] eqn:Hk'; [|done].
      destruct (finished (proc w')) eqn:Hf; [|done].
      cbn in Hstep. simplify_eq.
      exists [EJoin k']. split; [done|]. intros k Hk.
      apply elem_of_cons in Hk as [Hk|Hk]; [|by apply elem_of_nil in Hk].
      injection Hk as ->. by exists w'.
  - unfold sys_worker_step in Hstep.
    destruct (workers s !! k') as [w'|] eqn:Hk'; [|done]. cbn in Hstep.
    destruct (worker_step E w') as [w''|] eqn:Hstep'; [|done].
    cbn in Hstep. simplify_eq. cbn.
    exists []. rewrite app_nil_r. split; [done|]. intros k Hk.
    by apply elem_of_nil in Hk.
Qed.

Lemma sys_steps_joined {A : Type} (x y : Prog5 A * Sys) :
  rtc (sys_step E start_ok) x y ->
  exists evs, trace y.2 = trace x.2 ++ evs /\ forall k, EJoin k ∈ evs -> fin k y.2.
Proof.
  revert y. apply rtc_ind_r.
  - exists []. rewrite app_nil_r. split; [done|]. intros k Hk.
    by apply elem_of_nil in Hk.
  - intros y z Hxy Hyz IH. destruct IH as (evs & Htr & Hfin).
    destruct (sys_step_joined _ _ Hyz) as (evs' & Htr' & Hfin').
    exists (evs ++ evs'). split; [by rewrite Htr', Htr, app_assoc|].
    intros k Hk. apply elem_of_app in Hk as [Hk|Hk]; [|by apply Hfin'].
    apply (sys_step_fin _ _ k Hyz). by apply Hfin.
Qed.

(** However the processes are scheduled, a [close] on workers that can
    be closed returns, and when it has every process is gone. *)
Lemma close_complete (self : SubprocVecEnv (Space := Space)) s c' s' :
  Forall closable (workers (flush E s)) ->
  remotes self = seq 0 (length (workers s)) ->
  ps self = seq 0 (length (workers s)) ->
  rtc (sys_step E start_ok) (SubprocVecEnv_close py_none self, s) (c', s') ->
  (returned c' = true ->
     c' = Ret tt /\
     Forall (fun w => finished (proc w) = true) (workers s') /\
     outbox <$> workers s' = outbox <$> workers (flush E s)) /\
  (exists s'', rtc (sys_step E start_ok) (c', s') (Ret tt, s'')).
Proof.
  intros Hcl Hrem Hps Hrun.
  assert (Hlen : length (workers (flush E s)) = length (workers s)).
  { cbn. by rewrite length_map. }
  destruct (seq_exec_close self (flush E s) Hcl) as (ws & Heq & Hfin & Hout);
    [by rewrite Hlen|by rewrite Hlen|].
  rewrite Hlen in Heq.
  destruct (call_complete E start_ok _ _ _ _ Hrun) as [Hret Hcan].
  rewrite Heq in Hret, Hcan. split; [|by eexists].
  intros Hr. destruct (Hret Hr) as [-> Hflush]. split; [done|].
  destruct (sys_steps_joined _ _ Hrun) as (evs & Htr & Hjoined). cbn [fst snd] in *.
  assert (Hevs : forall k, k < length (workers s) -> EJoin k ∈ evs).
  { intros k Hk. apply (f_equal trace) in Hflush. cbn in Hflush.
    rewrite Htr, <- app_assoc in Hflush. apply app_inv_head in Hflush.
    rewrite Hflush. apply elem_of_app. right.
    apply list_elem_of_fmap. exists k. split; [done|]. apply elem_of_seq. lia. }
  assert (Hws : workers s' = ws).
  { apply (f_equal workers) in Hflush. cbn in Hflush. rewrite <- Hflush.
    symmetry. apply map_flush_fixed. apply Forall_lookup_2. intros k w Hw.
    apply flush_worker_finished.
    destruct (Hjoined k) as (w' & Hw' & Hf).
    - apply Hevs. apply lookup_lt_Some in Hw.
      apply (f_equal (@length _)) in Hflush. rewrite length_map in Hflush.
      apply (f_equal (@length _)) in Hout. rewrite !length_fmap in Hout. lia.
    - rewrite Hw in Hw'. by injection Hw' as <-. }
  by rewrite Hws.
Qed.

End Shutdown.

(** X14.  A [close] on an executor each of whose workers is waiting in its
    loop or gone returns under every schedule, can be brought to return
    from wherever a schedule has taken it, and when it has returned every
    worker process is gone: it has left its loop, or had died before. *)
Theorem SubprocVecEnv_close_spec
    {Act R Info Space St : Type} (E : Env Act R Info Space St)
    (start_ok : nat -> bool) (py_none : Act) (self : SubprocVecEnv (Space := Space))
    (s : Sys)
    (Hworkers : Forall closable (workers (flush E s)))
    (Hremotes : remotes self = seq 0 (length (workers s)))
    (Hps : ps self = seq 0 (length (workers s))) :
  forall c' s',
    rtc (sys_step E start_ok) (SubprocVecEnv_close py_none self, s) (c', s') ->
    (returned c' = true ->
       c' = Ret tt /\ Forall (fun w => finished (proc w) = true) (workers s')) /\
    (exists s'', rtc (sys_step E start_ok) (c', s') (Ret tt, s'')).
Proof.
  intros c' s' Hrun.
  destruct (close_complete E start_ok py_none self s c' s' Hworkers Hremotes Hps Hrun)
    as [Hret Hcan].
  split; [|done]. intros Hr. by destruct (Hret Hr) as (-> & ? & _).
Qed.

Lemma SubprocVecEnv_close_spec_witness :
  let E := counter_env (Act := Z) 0 in
  let s := demo_system [0; 5]%Z in
  Forall closable (workers (flush E s)) /\
  remotes demo_executor = seq 0 (length (workers s)) /\
  ps demo_executor = seq 0 (length (workers s)) /\
  exists s'',
    rtc (sys_step E (fun _ => true)) (SubprocVecEnv_close (-1)%Z demo_executor, s)
      (Ret tt, s'').
Proof.
  cbn zeta.
  assert (Hcl : Forall closable
                  (workers (flush (counter_env (Act := Z) 0) (demo_system [0; 5]%Z)))).
  { repeat constructor. }
  split; [exact Hcl|]. split; [reflexivity|]. split; [reflexivity|].
  exact (proj2 (SubprocVecEnv_close_spec (counter_env (Act := Z) 0) (fun _ => true) (-1)%Z
                  demo_executor (demo_system [0; 5]%Z) Hcl eq_refl eq_refl _ _
                  (rtc_refl _ _))).
Defined.

(** X15.  Once a [close] has returned on an executor that was at rest, the
    executor is of no use: a [step], a [reset] and a [get_last_reward] wait
    for ever, under every schedule, and only a second [close] returns. *)
Theorem SubprocVecEnv_use_after_close
    {Act R Info Space St : Type} (E : Env Act R Info Space St)
    (start_ok : nat -> bool) (py_none : Act) (self : SubprocVecEnv (Space := Space))
    (envs : list St) (s : Sys) (c1 : Coord unit) (s1 : Sys)
    (Hidle : at_rest E envs s)
    (Hsome : 0 < length envs)
    (Hremotes : remotes self = seq 0 (length envs))
    (Hps : ps self = seq 0 (length envs))
    (Hclose : rtc (sys_step E start_ok) (SubprocVecEnv_close py_none self, s) (c1, s1))
    (Hclosed : returned c1 = true) :
  (forall actions c' s',
      rtc (sys_step E start_ok) (SubprocVecEnv_step self actions, s1) (c', s') ->
      returned c' = false) /\
  (forall c' s',
      rtc (sys_step E start_ok) (SubprocVecEnv_reset py_none self, s1) (c', s') ->
      returned c' = false) /\
  (forall c' s',
      rtc (sys_step E start_ok) (SubprocVecEnv_get_last_reward py_none self, s1) (c', s') ->
      returned c' = false) /\
  (forall c' s',
      rtc (sys_step E start_ok) (SubprocVecEnv_close py_none self, s1) (c', s') ->
      exists s'', rtc (sys_step E start_ok) (c', s') (Ret tt, s'')).
Proof.
  assert (Hlen : length (workers s) = length envs).
  { unfold at_rest, idle in Hidle. apply (f_equal (@length _)) in Hidle.
    cbn in Hidle. by rewrite !length_map in Hidle. }
  assert (Hcl : Forall closable (workers (flush E s))).
  { unfold at_rest, idle in Hidle. rewrite Hidle.
    apply Forall_forall. intros w Hw.
    apply list_elem_of_In, in_map_iff in Hw as (env & <- & _). done. }
  rewrite <- Hlen in Hremotes, Hps.
  destruct (close_complete E start_ok py_none self s c1 s1 Hcl Hremotes Hps Hclose)
    as [Hret _].
  destruct (Hret Hclosed) as (_ & Hfin & Hout).
  assert (Hflush : flush E s1 = s1).
  { destruct s1 as [ws t]. unfold flush. cbn in *. f_equal.
    apply map_flush_fixed. eapply Forall_impl; [exact Hfin|].
    intros w. apply flush_worker_finished. }
  assert (Hlen1 : length (workers s1) = length (workers s)).
  { apply (f_equal (@length _)) in Hout. rewrite !length_fmap in Hout.
    cbn in Hout. by rewrite length_map in Hout. }
  destruct (lookup_lt_is_Some_2 (workers s1) 0) as [w0 Hw0]; [lia|].
  assert (Hf0 : finished (proc w0) = true) by (by eapply Forall_lookup_1 in Hfin).
  assert (Ho0 : outbox w0 = []).
  { apply (f_equal (fun l => l !! 0)) in Hout.
    unfold at_rest, idle in Hidle. rewrite Hidle in Hout.
    rewrite list_lookup_fmap, Hw0 in Hout.
    change (map ?g ?x) with (g <$> x) in Hout.
    rewrite <- list_fmap_compose, list_lookup_fmap in Hout.
    destruct (envs !! 0); [|done]. cbn in Hout. by injection Hout. }
  assert (Hin : 0 ∈ remotes self).
  { rewrite Hremotes. apply elem_of_seq. lia. }
  assert (Hsil : silent E w0).
  { split; [done|]. by apply flush_worker_finished. }
  split; [|split; [|split]].
  - intros actions.
    apply (starved_never_returns E start_ok _ s1 w0 0 true); try done.
    + by rewrite Hflush.
    + apply step_waits; [done|by left].
  - apply (starved_never_returns E start_ok _ s1 w0 0 true); try done.
    + by rewrite Hflush.
    + by apply broadcast_waits.
  - apply (starved_never_returns E start_ok _ s1 w0 0 true); try done.
    + by rewrite Hflush.
    + by apply broadcast_waits.
  - intros c' s' Hrun.
    refine (proj2 (close_complete E start_ok py_none self s1 c' s' _ _ _ Hrun)).
    + rewrite Hflush. eapply Forall_impl; [exact Hfin|]. apply finished_closable.
    + by rewrite Hlen1.
    + by rewrite Hlen1.
Qed.

Lemma SubprocVecEnv_use_after_close_witness :
  let E := counter_env (Act := Z) 0 in
  let s := demo_system [0; 5]%Z in
  let s1 : Sys (Act := Z) (R := Z) (Info := unit) (Space := unit) (St := Z) :=
    {| workers := [gone; gone];
       trace := [ESend 0 ("close", (-1)%Z); ESend 1 ("close", (-1)%Z); EJoin 0; EJoin 1] |} in
  at_rest E [0; 5]%Z s /\
  rtc (sys_step E (fun _ => true)) (SubprocVecEnv_close (-1)%Z demo_executor, s) (Ret tt, s1) /\
  forall actions c' s',
    rtc (sys_step E (fun _ => true)) (SubprocVecEnv_step demo_executor actions, s1) (c', s') ->
    returned c' = false.
Proof.
  cbn zeta.
  assert (Hidle : at_rest (counter_env (Act := Z) 0) [0; 5]%Z (demo_system [0; 5]%Z))
    by reflexivity.
  assert (Hsome : 0 < length [0; 5]%Z) by (cbn; lia).
  pose proof (seq_exec_reached (counter_env (Act := Z) 0) (fun _ => true)
                (SubprocVecEnv_close (-1)%Z demo_executor) (demo_system [0; 5]%Z))
    as Hclose.
  split; [exact Hidle|]. split; [exact Hclose|].
  exact (proj1 (SubprocVecEnv_use_after_close (counter_env (Act := Z) 0) (fun _ => true)
                  (-1)%Z demo_executor [0; 5]%Z (demo_system [0; 5]%Z) _ _
                  Hidle Hsome eq_refl eq_refl Hclose eq_refl)).
Defined.

Section Results.
Context {Act R Info Space St : Type}.
Variable E : Env Act R Info Space St.
Variable start_ok : nat -> bool.
Variable py_none : Act.

Implicit Types (s : Sys (Act := Act) (R := R) (Info := Info) (Space := Space) (St := St)).

Lemma stack_replies_obs (obs : list Obs) :
  stack_replies (Act := Act) (R := R) (Info := Info) (Space := Space) reply_obs
    (map RObs obs) =
    match np.stack obs with
    | Some a => Ret a
    | None => Throw ValueError
    end.
Proof.
  unfold stack_replies.
  replace (mapM reply_obs (map RObs obs)) with (Some obs); [done|].
  symmetry. apply mapM_Some. induction obs; by constructor.
Qed.

Lemma stack_replies_values (vs : list R) :
  vs <> [] ->
  stack_replies (Act := Act) (Info := Info) (Space := Space) reply_value (map RValue vs) =
    Ret (np.Array (map np.Scalar vs)).
Proof.
  intros Hne. unfold stack_replies.
  replace (mapM reply_value (map RValue vs)) with (Some (map np.Scalar vs)).
  - cbn. by rewrite stack_scalars.
  - symmetry. apply mapM_Some. clear. induction vs; by constructor.
Qed.

Lemma handled_last_reward env v :
  env_metadata E env !! "last_reward" = Some v ->
  handled E env ("last_reward", py_none) =
    {| proc := Running env; inbox := []; outbox := [RValue v] |}.
Proof. intros Hm. unfold handled, worker_handle. cbn. by rewrite Hm. Qed.

(** [get_last_reward], run eagerly, over environments that all have the
    entry. *)
Lemma seq_exec_last_reward_call (self : SubprocVecEnv (Space := Space)) envs vs s :
  idle envs s -> remotes self = seq 0 (length envs) ->
  Forall2 (fun env v => env_metadata E env !! "last_reward" = Some v) envs vs ->
  seq_exec E start_ok (SubprocVecEnv_get_last_reward py_none self) s =
    (stack_replies reply_value (map RValue vs),
     {| workers := map waiting envs;
        trace := (trace s ++ map (fun k => ESend k ("last_reward", py_none))
                               (seq 0 (length envs))) ++
                 zip_with ERecv (seq 0 (length envs)) (map RValue vs) |}).
Proof.
  destruct s as [ws t]. unfold idle. cbn. intros -> Hrem Hvs.
  unfold SubprocVecEnv_get_last_reward.
  rewrite Hrem, seq_exec_broadcast, seq_exec_bind.
  pose proof (seq_exec_recv_all E start_ok
                (map (fun env => handled E env ("last_reward", py_none)) envs) []
                (t ++ map (fun k => ESend k ("last_reward", py_none)) (seq 0 (length envs)))
                (map RValue vs)) as Hrecv.
  rewrite length_map in Hrecv. cbn [app length] in Hrecv. rewrite Hrecv; clear Hrecv.
  - cbn [fst snd]. rewrite seq_exec_returned by apply stack_replies_returned.
    f_equal. f_equal. rewrite map_map.
    clear -Hvs. induction Hvs as [|env v envs vs Hv _ IH]; [done|].
    cbn. rewrite IH. by rewrite (handled_last_reward env v).
  - clear -Hvs. induction Hvs as [|env v envs vs Hv _ IH]; cbn; constructor; [|done].
    rewrite (handled_last_reward env v) by done. by eexists.
Qed.

(** [__init__], run eagerly, when every start succeeds and the first
    [env_fn] returns an environment, whatever the others do. *)
Lemma seq_exec_init_first (env : St) (fs : list (result St)) :
  (forall j, j < length (Ok env :: fs) -> start_ok j = true) ->
  seq_exec E start_ok (SubprocVecEnv_init py_none (Ok env :: fs))
    (spawned (Ok env :: fs)) =
  (Ret {| remotes := seq 0 (length (Ok env :: fs)); ps := seq 0 (length (Ok env :: fs));
          action_space := env_action_space E env;
          observation_space := env_observation_space E env |},
   {| workers := waiting env :: map booted fs;
      trace := map EStart (seq 0 (length (Ok env :: fs))) ++
               [ESend 0 ("get_spaces", py_none);
                ERecv 0 (RSpaces (env_action_space E env, env_observation_space E env))] |}).
Proof.
  intros Hok. unfold SubprocVecEnv_init, spawned.
  cbn [length seq map].
  etrans; [apply (seq_exec_start_all E start_ok _ (Ok env :: fs) [] []);
           [intros j Hj; apply Hok; cbn in *; lia|done]|].
  cbn [bind send seq_exec map app booted boot]. unfold do_send.
  cbn [workers lookup list_lookup].
  unfold flush, log, set_worker.
  cbn [workers trace insert list_insert map waiting proc inbox outbox app].
  change (booted (Ok env)) with (waiting (Act := Act) (R := R) (Info := Info) (Space := Space) env).
  cbn [waiting proc inbox outbox app].
  rewrite flush_worker_handled.
  rewrite (map_flush_fixed E (map booted fs)) by apply booted_fixed.
  cbn [recv bind seq_exec]. unfold do_recv. cbn [workers lookup list_lookup].
  unfold worker_handle, log, set_worker. cbn. by rewrite <- app_assoc.
Qed.

End Results.

(** X16.  A [reset] of an executor at rest comes, under every schedule, to
    one result: the stack of the observations the workers' resets return,
    in worker order, or a [ValueError] where these cannot be stacked; every
    environment has been reset by then, and the call can be brought to its
    end from wherever a schedule has taken it. *)
Theorem SubprocVecEnv_reset_spec
    {Act R Info Space St : Type} (E : Env Act R Info Space St)
    (start_ok : nat -> bool) (py_none : Act) (self : SubprocVecEnv (Space := Space))
    (envs : list St) (s : Sys)
    (Hidle : at_rest E envs s)
    (Hremotes : remotes self = seq 0 (length envs)) :
  let expected :=
    match np.stack (reset_replies E envs) with
    | Some _ => Ret (np.Array (reset_replies E envs))
    | None => Throw ValueError
    end in
  forall c' s',
    rtc (sys_step E start_ok) (SubprocVecEnv_reset py_none self, s) (c', s') ->
    (returned c' = true -> c' = expected /\ at_rest E (reset_all E envs) s') /\
    (exists s'', at_rest E (reset_all E envs) s'' /\
       rtc (sys_step E start_ok) (c', s') (expected, s'')).
Proof.
  cbn zeta. intros c' s' Hrun.
  assert (Heq : stack_replies (Act := Act) (R := R) (Info := Info) (Space := Space)
                  reply_obs (map RObs (reset_replies E envs)) =
                match np.stack (reset_replies E envs) with
                | Some _ => Ret (np.Array (reset_replies E envs))
                | None => Throw ValueError
                end).
  { rewrite stack_replies_obs.
    destruct (np.stack (reset_replies E envs)) as [a|] eqn:Hst; [|done].
    by apply stack_Some in Hst as ->. }
  rewrite <- Heq.
  by apply (reset_call_complete E start_ok py_none self envs s c' s').
Qed.

Lemma SubprocVecEnv_reset_spec_witness :
  let E := counter_env (Act := Z) 0 in
  let s := demo_system [3; 5]%Z in
  at_rest E [3; 5]%Z s /\
  remotes demo_executor = seq 0 2 /\
  exists s'',
    at_rest E [0; 0]%Z s'' /\
    rtc (sys_step E (fun _ => true)) (SubprocVecEnv_reset (-1)%Z demo_executor, s)
      (Ret (np.Array [np.Array [np.Scalar 0; np.Scalar 10];
                      np.Array [np.Scalar 0; np.Scalar 10]])%Z, s'').
Proof.
  cbn zeta.
  assert (Hidle : at_rest (counter_env (Act := Z) 0) [3; 5]%Z (demo_system [3; 5]%Z))
    by reflexivity.
  assert (Hrem : remotes demo_executor = seq 0 2) by reflexivity.
  split; [exact Hidle|]. split; [exact Hrem|].
  exact (proj2 (SubprocVecEnv_reset_spec (counter_env (Act := Z) 0) (fun _ => true) (-1)%Z
                  demo_executor [3; 5]%Z (demo_system [3; 5]%Z) Hidle Hrem _ _
                  (rtc_refl _ _))).
Defined.

(** X17.  Over environments that all have a ['last_reward'] entry in their
    metadata, [get_last_reward] comes under every schedule to the array of
    these entries, in worker order, and leaves every environment as it
    was. *)
Theorem SubprocVecEnv_get_last_reward_spec
    {Act R Info Space St : Type} (E : Env Act R Info Space St)
    (start_ok : nat -> bool) (py_none : Act) (self : SubprocVecEnv (Space := Space))
    (envs : list St) (vs : list R) (s : Sys)
    (Hidle : at_rest E envs s)
    (Hsome : 0 < length envs)
    (Hremotes : remotes self = seq 0 (length envs))
    (Hmeta : Forall2 (fun env v => env_metadata E env !! "last_reward" = Some v) envs vs) :
  forall c' s',
    rtc (sys_step E start_ok) (SubprocVecEnv_get_last_reward py_none self, s) (c', s') ->
    (returned c' = true ->
       c' = Ret (np.Array (map np.Scalar vs)) /\ at_rest E envs s') /\
    (exists s'', at_rest E envs s'' /\
       rtc (sys_step E start_ok) (c', s') (Ret (np.Array (map np.Scalar vs)), s'')).
Proof.
  intros c' s' Hrun.
  destruct (call_complete E start_ok _ _ _ _ Hrun) as [Hret Hcan].
  rewrite (seq_exec_last_reward_call E start_ok py_none self envs vs (flush E s))
    in Hret, Hcan by done.
  rewrite stack_replies_values in Hret, Hcan.
  2,3: apply Forall2_length in Hmeta; destruct vs; [cbn in Hmeta; lia|done].
  split.
  - intros Hr. destruct (Hret Hr) as [-> Hflush]. split; [done|].
    unfold at_rest. by rewrite Hflush.
  - eexists. split; [|exact Hcan]. by apply idle_at_rest.
Qed.

Lemma SubprocVecEnv_get_last_reward_spec_witness :
  let E := scored_env (Act := Z) 0 in
  let s := demo_system [3; 5]%Z in
  at_rest E [3; 5]%Z s /\
  Forall2 (fun env v => env_metadata E env !! "last_reward" = Some v) [3; 5]%Z [3; 5]%Z /\
  exists s'',
    at_rest E [3; 5]%Z s'' /\
    rtc (sys_step E (fun _ => true)) (SubprocVecEnv_get_last_reward (-1)%Z demo_executor, s)
      (Ret (np.Array [np.Scalar 3; np.Scalar 5])%Z, s'').
Proof.
  cbn zeta.
  assert (Hidle : at_rest (scored_env (Act := Z) 0) [3; 5]%Z (demo_system [3; 5]%Z))
    by reflexivity.
  assert (Hsome : 0 < length [3; 5]%Z) by (cbn; lia).
  assert (Hmeta : Forall2 (fun env v => env_metadata (scored_env (Act := Z) 0) env
                                          !! "last_reward" = Some v) [3; 5]%Z [3; 5]%Z).
  { repeat constructor. }
  split; [exact Hidle|]. split; [exact Hmeta|].
  exact (proj2 (SubprocVecEnv_get_last_reward_spec (scored_env (Act := Z) 0) (fun _ => true)
                  (-1)%Z demo_executor [3; 5]%Z [3; 5]%Z (demo_system [3; 5]%Z)
                  Hidle Hsome eq_refl Hmeta _ _ (rtc_refl _ _))).
Defined.

(** X18.  A [step] with more actions than workers is the [step] with the
    first actions, one for each worker: the others are dropped without a
    word. *)
Theorem SubprocVecEnv_step_extra_actions
    {Act R Info Space St : Type} (E : Env Act R Info Space St)
    (start_ok : nat -> bool) (self : SubprocVecEnv (Space := Space))
    (envs : list St) (s : Sys) (actions : list Act)
    (Hidle : at_rest E envs s)
    (Hremotes : remotes self = seq 0 (length envs))
    (Hmany : length envs <= length actions) :
  let used := take (length envs) actions in
  SubprocVecEnv_step (R := R) (Info := Info) self actions = SubprocVecEnv_step self used /\
  forall c' s',
    rtc (sys_step E start_ok) (SubprocVecEnv_step self actions, s) (c', s') ->
    (returned c' = true ->
       c' = step_return (map RStep (step_replies E envs used)) /\
       at_rest E (advance E envs used) s') /\
    (exists s'', at_rest E (advance E envs used) s'' /\
       rtc (sys_step E start_ok) (c', s')
         (step_return (map RStep (step_replies E envs used)), s'')).
Proof.
  cbn zeta.
  assert (Hzip : forall (l : list nat) (k : list Act),
             length l <= length k -> zip l (take (length l) k) = zip l k).
  { induction l as [|x l IH]; intros [|y k] Hlen; cbn in *; try done; try lia.
    f_equal. apply IH. lia. }
  assert (Heq : SubprocVecEnv_step (R := R) (Info := Info) self actions =
                SubprocVecEnv_step self (take (length envs) actions)).
  { unfold SubprocVecEnv_step. rewrite Hremotes.
    rewrite <- (Hzip (seq 0 (length envs)) actions) by (by rewrite length_seq).
    by rewrite length_seq. }
  split; [done|]. intros c' s' Hrun. rewrite Heq in Hrun.
  apply (step_call_complete E start_ok self envs _ s c' s'); try done.
  rewrite length_take. lia.
Qed.

Lemma SubprocVecEnv_step_extra_actions_witness :
  let E := counter_env (Act := Z) 0 in
  let s := demo_system [0; 5]%Z in
  at_rest E [0; 5]%Z s /\ 2 <= 3 /\
  SubprocVecEnv_step (R := Z) (Info := unit) demo_executor [1; 2; 3]%Z =
    SubprocVecEnv_step demo_executor [1; 2]%Z.
Proof.
  cbn zeta.
  assert (Hidle : at_rest (counter_env (Act := Z) 0) [0; 5]%Z (demo_system [0; 5]%Z))
    by reflexivity.
  assert (Hmany : length [0; 5]%Z <= length [1; 2; 3]%Z) by (cbn; lia).
  split; [exact Hidle|]. split; [exact Hmany|].
  exact (proj1 (SubprocVecEnv_step_extra_actions (counter_env (Act := Z) 0) (fun _ => true)
                  demo_executor [0; 5]%Z (demo_system [0; 5]%Z) [1; 2; 3]%Z
                  Hidle eq_refl Hmany)).
Defined.

(** X19.  Where the observations the workers send back do not all have one
    shape, a [step] of the executor raises [ValueError], under every
    schedule; every environment has made its step by then. *)
Theorem SubprocVecEnv_step_ragged
    {Act R Info Space St : Type} (E : Env Act R Info Space St)
    (start_ok : nat -> bool) (self : SubprocVecEnv (Space := Space))
    (envs : list St) (s : Sys) (actions : list Act)
    (Hidle : at_rest E envs s)
    (Hremotes : remotes self = seq 0 (length envs))
    (Hactions : length actions = length envs)
    (Hragged : np.stack (map sr_obs (step_replies E envs actions)) = None) :
  forall c' s',
    rtc (sys_step E start_ok) (SubprocVecEnv_step self actions, s) (c', s') ->
    (returned c' = true ->
       c' = Throw ValueError /\ at_rest E (advance E envs actions) s') /\
    (exists s'', at_rest E (advance E envs actions) s'' /\
       rtc (sys_step E start_ok) (c', s') (Throw ValueError, s'')).
Proof.
  intros c' s' Hrun.
  pose proof (step_call_complete E start_ok self envs actions s c' s' Hidle Hremotes
                Hactions Hrun) as Hcall.
  by rewrite step_return_eq, Hragged in Hcall.
Qed.

Lemma SubprocVecEnv_step_ragged_witness :
  let E := growing_env (Act := Z) in
  let s := demo_system [0; 5]%Z in
  at_rest E [0; 5]%Z s /\
  np.stack (map sr_obs (step_replies E [0; 5]%Z [0; 0]%Z)) = None /\
  exists s'',
    at_rest E [1; 6]%Z s'' /\
    rtc (sys_step E (fun _ => true)) (SubprocVecEnv_step demo_executor [0; 0]%Z, s)
      (Throw ValueError, s'').
Proof.
  cbn zeta.
  assert (Hidle : at_rest (growing_env (Act := Z)) [0; 5]%Z (demo_system [0; 5]%Z))
    by reflexivity.
  assert (Hragged : np.stack (map sr_obs (step_replies (growing_env (Act := Z))
                                            [0; 5]%Z [0; 0]%Z)) = None)
    by reflexivity.
  split; [exact Hidle|]. split; [exact Hragged|].
  exact (proj2 (SubprocVecEnv_step_ragged (growing_env (Act := Z)) (fun _ => true)
                  demo_executor [0; 5]%Z (demo_system [0; 5]%Z) [0; 0]%Z
                  Hidle eq_refl eq_refl Hragged _ _ (rtc_refl _ _))).
Defined.

(** X20.  When every process starts and the first [env_fn] returns an
    environment, [__init__] returns an executor over all the workers,
    under every schedule, also where the [env_fn] of another worker has
    raised and that worker is dead.  On that executor a [step] and a
    [reset] then wait for ever. *)
Theorem SubprocVecEnv_init_hides_dead_worker
    {Act R Info Space St : Type} (E : Env Act R Info Space St)
    (start_ok : nat -> bool) (py_none : Act) (env : St) (fs : list (result St))
    (j : nat) (e : exn)
    (Hok : forall i, i < length (Ok env :: fs) -> start_ok i = true)
    (Hbad : fs !! j = Some (Raise e)) :
  let built :=
    {| remotes := seq 0 (length (Ok env :: fs)); ps := seq 0 (length (Ok env :: fs));
       action_space := env_action_space E env;
       observation_space := env_observation_space E env |} in
  forall c0 s0,
    rtc (sys_step E start_ok)
      (SubprocVecEnv_init py_none (Ok env :: fs), spawned (Ok env :: fs)) (c0, s0) ->
    (returned c0 = true ->
       c0 = Ret built /\
       (forall actions c' s',
           rtc (sys_step E start_ok) (SubprocVecEnv_step built actions, s0) (c', s') ->
           returned c' = false) /\
       (forall c' s',
           rtc (sys_step E start_ok) (SubprocVecEnv_reset py_none built, s0) (c', s') ->
           returned c' = false)) /\
    (exists s'', rtc (sys_step E start_ok) (c0, s0) (Ret built, s'')).
Proof.
  cbn zeta. intros c0 s0 Hrun.
  destruct (call_complete E start_ok _ _ _ _ Hrun) as [Hret Hcan].
  rewrite flush_spawned, (seq_exec_init_first E start_ok py_none env fs Hok) in Hret, Hcan.
  split; [|by eexists].
  intros Hr. destruct (Hret Hr) as [-> Hflush]. split; [done|].
  assert (Hw : workers (flush E s0) !! S j = Some (booted (Raise e))).
  { rewrite Hflush. cbn [snd workers].
    change ((?x :: ?l) !! S j) with (l !! j).
    change (map ?g ?x) with (g <$> x). by rewrite list_lookup_fmap, Hbad. }
  assert (Hin : S j ∈ seq 0 (length (Ok env :: fs))).
  { apply elem_of_seq. apply lookup_lt_Some in Hbad. cbn. lia. }
  assert (Hsil : silent E (booted (Act := Act) (R := R) (Info := Info) (Space := Space)
                             (Raise e))).
  { split; [done|]. by apply flush_worker_finished. }
  split.
  - intros actions.
    apply (starved_never_returns E start_ok _ s0 _ (S j) true Hw Hsil); [done|].
    apply step_waits; [done|by left].
  - apply (starved_never_returns E start_ok _ s0 _ (S j) true Hw Hsil); [done|].
    by apply broadcast_waits.
Qed.

Lemma SubprocVecEnv_init_hides_dead_worker_witness :
  let E := counter_env (Act := Z) 0 in
  let fs : list (result Z) := [Raise OSError] in
  (forall i, i < length (Ok 0%Z :: fs) -> (fun _ : nat => true) i = true) /\
  fs !! 0 = Some (Raise OSError) /\
  exists s'',
    rtc (sys_step E (fun _ => true))
      (SubprocVecEnv_init (-1)%Z (Ok 0%Z :: fs), spawned (Ok 0%Z :: fs))
      (Ret {| remotes := [0; 1]; ps := [0; 1]; action_space := tt;
              observation_space := tt |}, s'').
Proof.
  cbn zeta.
  assert (Hok : forall i, i < length [Ok 0%Z; Raise OSError] ->
                          (fun _ : nat => true) i = true) by done.
  assert (Hbad : [@Raise Z OSError] !! 0 = Some (Raise OSError)) by reflexivity.
  split; [exact Hok|]. split; [exact Hbad|].
  exact (proj2 (SubprocVecEnv_init_hides_dead_worker (counter_env (Act := Z) 0)
                  (fun _ => true) (-1)%Z 0%Z [Raise OSError] 0 OSError Hok Hbad _ _
                  (rtc_refl _ _))).
Defined.

(** * The fan-out of every call *)

Section FanOutComplete.
Context {Act R Info Space St : Type}.
Variable E : Env Act R Info Space St.
Variable start_ok : nat -> bool.
Variable py_none : Act.

Implicit Types (s : Sys (Act := Act) (R := R) (Info := Info) (Space := Space) (St := St))
  (evs : list (Event (Act := Act) (R := R) (Info := Info) (Space := Space))).
#[local] Abbreviation Prog6 := (Coord (Act := Act) (R := R) (Info := Info) (Space := Space)).

(** A call does, under every schedule, what its eager run does: a run
    that has come to its end has made the events of the eager run, all of
    them and in that order, and a run can be brought there from wherever
    a schedule has taken it. *)
Lemma call_events {A : Type} (c : Prog6 A) s evs :
  trace (seq_exec E start_ok c (flush E s)).2 = trace s ++ evs ->
  forall c' s',
    rtc (sys_step E start_ok) (c, s) (c', s') ->
    (returned c' = true -> trace s' = trace s ++ evs) /\
    (exists s'',
       rtc (sys_step E start_ok) (c', s') ((seq_exec E start_ok c (flush E s)).1, s'') /\
       trace s'' = trace s ++ evs).
Proof.
  intros Htr c' s' Hrun.
  destruct (call_complete E start_ok c s c' s' Hrun) as [Hret Hcan]. split.
  - intros Hr. destruct (Hret Hr) as [_ Hflush].
    apply (f_equal trace) in Hflush. cbn in Hflush. by rewrite Hflush.
  - exists (seq_exec E start_ok c (flush E s)).2. split; [|done].
    by destruct (seq_exec E start_ok c (flush E s)).
Qed.

Lemma at_rest_flush envs s :
  at_rest E envs s -> flush E s = {| workers := map waiting envs; trace := trace s |}.
Proof.
  unfold at_rest, idle. intros Hidle.
  destruct (flush E s) as [ws t] eqn:Hf. cbn in Hidle. subst ws.
  apply (f_equal trace) in Hf. cbn in Hf. by subst t.
Qed.

(** [get_last_reward], run eagerly: the sends are all made, whatever the
    environments hold. *)
Lemma seq_exec_last_reward_sends (self : SubprocVecEnv (Space := Space)) envs s :
  at_rest E envs s -> remotes self = seq 0 (length envs) ->
  exists evs,
    trace (seq_exec E start_ok (SubprocVecEnv_get_last_reward py_none self) (flush E s)).2 =
      trace s ++ map (fun k => ESend k ("last_reward", py_none)) (seq 0 (length envs)) ++ evs.
Proof.
  intros Hidle Hrem. rewrite (at_rest_flush envs s Hidle).
  unfold SubprocVecEnv_get_last_reward. rewrite Hrem, seq_exec_broadcast.
  destruct (seq_exec_trace E start_ok
              (bind (collect (seq 0 (length envs)) recv) (stack_replies reply_value))
              {| workers := map (fun env => handled E env ("last_reward", py_none)) envs;
                 trace := trace s ++ map (fun k => ESend k ("last_reward", py_none))
                                       (seq 0 (length envs)) |})
    as [evs Hevs].
  exists evs. rewrite Hevs. cbn. by rewrite <- app_assoc.
Qed.

End FanOutComplete.

(** C3.  From a system at rest, in each of the four batched operations the
    command goes to all N workers before the coordinator waits for any of
    them.  At every point of every schedule, the events since the call
    began are sends, or the N sends in full followed by receives (joins,
    for [close]) only.  And the sends are made: a [step], a [reset] and a
    [close] can be brought to their end from wherever a schedule has taken
    them, and one that has come to its end has made the N sends, one to
    each worker in worker order, and then the N receives (joins); a
    [get_last_reward] comes to have made the N sends first, and, where it
    returns, the N receives after them. *)
Theorem SubprocVecEnv_fan_out_before_fan_in
    {Act R Info Space St : Type} (E : Env Act R Info Space St)
    (start_ok : nat -> bool) (py_none : Act) (self : SubprocVecEnv)
    (envs : list St) (s : Sys) (actions : list Act)
    (Hidle : at_rest E envs s)
    (Hremotes : remotes self = seq 0 (length envs))
    (Hps : ps self = seq 0 (length envs))
    (Hactions : length actions = length envs) :
  let n := length envs in
  let sent (cmd : string) := map (fun k => ESend k (cmd, py_none)) (seq 0 n) in
  let step_events :=
    map (fun ra => ESend ra.1 ("step", ra.2)) (zip (seq 0 n) actions) ++
    zip_with ERecv (seq 0 n) (map RStep (step_replies E envs actions)) in
  let reset_events :=
    sent "reset" ++ zip_with ERecv (seq 0 n) (map RObs (reset_replies E envs)) in
  let close_events := sent "close" ++ map EJoin (seq 0 n) in
  (fans_out_first E start_ok n "step" (SubprocVecEnv_step self actions) s /\
   fans_out_first E start_ok n "reset" (SubprocVecEnv_reset py_none self) s /\
   fans_out_first E start_ok n "close" (SubprocVecEnv_close py_none self) s /\
   fans_out_first E start_ok n "last_reward"
     (SubprocVecEnv_get_last_reward py_none self) s) /\
  (exists c' s',
     rtc (sys_step E start_ok) (SubprocVecEnv_step self actions, s) (c', s') /\
     trace s' =
       (trace s ++
        map (fun ra => ESend ra.1 ("step", ra.2)) (zip (seq 0 n) actions)) ++
       zip_with ERecv (seq 0 n) (map RStep (step_replies E envs actions))) /\
  (forall c' s',
     rtc (sys_step E start_ok) (SubprocVecEnv_step self actions, s) (c', s') ->
     (returned c' = true -> trace s' = trace s ++ step_events) /\
     (exists c'' s'',
        rtc (sys_step E start_ok) (c', s') (c'', s'') /\
        returned c'' = true /\ trace s'' = trace s ++ step_events)) /\
  (forall c' s',
     rtc (sys_step E start_ok) (SubprocVecEnv_reset py_none self, s) (c', s') ->
     (returned c' = true -> trace s' = trace s ++ reset_events) /\
     (exists c'' s'',
        rtc (sys_step E start_ok) (c', s') (c'', s'') /\
        returned c'' = true /\ trace s'' = trace s ++ reset_events)) /\
  (forall c' s',
     rtc (sys_step E start_ok) (SubprocVecEnv_close py_none self, s) (c', s') ->
     (returned c' = true -> trace s' = trace s ++ close_events) /\
     (exists c'' s'',
        rtc (sys_step E start_ok) (c', s') (c'', s'') /\
        returned c'' = true /\ trace s'' = trace s ++ close_events)) /\
  (exists evs,
     forall c' s',
       rtc (sys_step E start_ok) (SubprocVecEnv_get_last_reward py_none self, s) (c', s') ->
       (returned c' = true -> trace s' = trace s ++ sent "last_reward" ++ evs) /\
       (exists c'' s'',
          rtc (sys_step E start_ok) (c', s') (c'', s'') /\
          trace s'' = trace s ++ sent "last_reward" ++ evs)) /\
  (forall vs,
     Forall2 (fun env v => env_metadata E env !! "last_reward" = Some v) envs vs ->
     forall c' s',
       rtc (sys_step E start_ok) (SubprocVecEnv_get_last_reward py_none self, s) (c', s') ->
       (returned c' = true ->
          trace s' = trace s ++ sent "last_reward" ++
                     zip_with ERecv (seq 0 n) (map RValue vs)) /\
       (exists c'' s'',
          rtc (sys_step E start_ok) (c', s') (c'', s'') /\
          returned c'' = true /\
          trace s'' = trace s ++ sent "last_reward" ++
                      zip_with ERecv (seq 0 n) (map RValue vs))).
Proof.
  cbn zeta.
  pose proof (at_rest_flush E envs s Hidle) as Hflush.
  assert (Hidle' : idle envs (flush E s)) by done.
  assert (Hstep : seq_exec E start_ok (SubprocVecEnv_step self actions) (flush E s) =
    (step_return (map RStep (step_replies E envs actions)),
     {| workers := map waiting (advance E envs actions);
        trace := (trace s ++
                  map (fun ra => ESend ra.1 ("step", ra.2)) (zip (seq 0 (length envs)) actions)) ++
                 zip_with ERecv (seq 0 (length envs))
                   (map RStep (step_replies E envs actions)) |})).
  { by rewrite (seq_exec_step_call E start_ok self envs actions (flush E s)). }
  split; [|split; [|split; [|split; [|split; [|split]]]]].
  - split; [|split; [|split]].
    + by apply step_fans_out_first.
    + unfold SubprocVecEnv_reset. rewrite Hremotes.
      apply broadcast_fans_out_first; [done|].
      apply sends_nothing_bind; [apply sends_nothing_collect_recv|].
      intros rs. apply sends_nothing_returned, stack_replies_returned.
    + unfold SubprocVecEnv_close. rewrite Hremotes, Hps.
      apply broadcast_fans_out_first; [done|].
      apply sends_nothing_for_each_join.
    + unfold SubprocVecEnv_get_last_reward. rewrite Hremotes.
      apply broadcast_fans_out_first; [done|].
      apply sends_nothing_bind; [apply sends_nothing_collect_recv|].
      intros rs. apply sends_nothing_returned, stack_replies_returned.
  - destruct (call_complete E start_ok (SubprocVecEnv_step self actions) s _ _
                (rtc_refl _ _)) as [_ Hrun].
    rewrite Hstep in Hrun. eexists _, _. split; [exact Hrun|done].
  - intros c' s' Hrun.
    destruct (call_events E start_ok (SubprocVecEnv_step self actions) s _
                ltac:(rewrite Hstep; cbn [snd trace]; by rewrite <- app_assoc)
                c' s' Hrun) as [Hret (s'' & Hcan & Htr)].
    split; [done|]. rewrite Hstep in Hcan. eexists _, s''.
    split; [exact Hcan|]. split; [apply step_return_returned|done].
  - intros c' s' Hrun.
    pose proof (seq_exec_reset_call E start_ok py_none self envs (flush E s) Hidle' Hremotes)
      as Hreset.
    destruct (call_events E start_ok (SubprocVecEnv_reset py_none self) s _
                ltac:(rewrite Hreset; cbn [snd trace]; by rewrite <- app_assoc)
                c' s' Hrun) as [Hret (s'' & Hcan & Htr)].
    split; [done|]. rewrite Hreset in Hcan. eexists _, s''.
    split; [exact Hcan|]. split; [apply stack_replies_returned|done].
  - intros c' s' Hrun.
    destruct (seq_exec_close E start_ok py_none self (flush E s)) as (ws & Hclose & _).
    { rewrite Hflush. apply Forall_forall. intros w Hw.
      apply list_elem_of_In, in_map_iff in Hw as (env & <- & _). done. }
    { rewrite Hflush. cbn. by rewrite length_map. }
    { rewrite Hflush. cbn. by rewrite length_map. }
    assert (Hlen : length (workers (flush E s)) = length envs).
    { rewrite Hflush. cbn. by rewrite length_map. }
    rewrite Hlen in Hclose.
    destruct (call_events E start_ok (SubprocVecEnv_close py_none self) s _
                ltac:(rewrite Hclose; cbn [snd trace]; by rewrite <- app_assoc)
                c' s' Hrun) as [Hret (s'' & Hcan & Htr)].
    split; [done|]. rewrite Hclose in Hcan. eexists _, s''.
    split; [exact Hcan|]. split; [done|done].
  - destruct (seq_exec_last_reward_sends E start_ok py_none self envs s Hidle Hremotes)
      as [evs Hevs].
    exists evs. intros c' s' Hrun.
    destruct (call_events E start_ok _ s _ Hevs c' s' Hrun) as [Hret (s'' & Hcan & Htr)].
    split; [done|]. by eexists _, s''.
  - intros vs Hvs c' s' Hrun.
    pose proof (seq_exec_last_reward_call E start_ok py_none self envs vs (flush E s)
                  Hidle' Hremotes Hvs) as Hlast.
    destruct (call_events E start_ok (SubprocVecEnv_get_last_reward py_none self) s _
                ltac:(rewrite Hlast; cbn [snd trace]; by rewrite <- app_assoc)
                c' s' Hrun) as [Hret (s'' & Hcan & Htr)].
    split; [done|]. rewrite Hlast in Hcan. eexists _, s''.
    split; [exact Hcan|]. split; [apply stack_replies_returned|done].
Qed.

Lemma SubprocVecEnv_fan_out_before_fan_in_witness :
  let E := counter_env (Act := Z) 0 in
  let s := demo_system [0; 5]%Z in
  at_rest E [0; 5]%Z s /\
  remotes demo_executor = seq 0 2 /\
  ps demo_executor = seq 0 2 /\
  fans_out_first E (fun _ => true) 2 "step" (SubprocVecEnv_step demo_executor [0; 0]%Z) s /\
  fans_out_first E (fun _ => true) 2 "close" (SubprocVecEnv_close (-1)%Z demo_executor) s /\
  (exists c'' s'',
     rtc (sys_step E (fun _ => true)) (SubprocVecEnv_close (-1)%Z demo_executor, s) (c'', s'') /\
     returned c'' = true /\
     trace s'' = [ESend 0 ("close", (-1)%Z); ESend 1 ("close", (-1)%Z); EJoin 0; EJoin 1]) /\
  (exists c'' s'',
     rtc (sys_step E (fun _ => true)) (SubprocVecEnv_reset (-1)%Z demo_executor, s) (c'', s'') /\
     returned c'' = true /\
     trace s'' = [ESend 0 ("reset", (-1)%Z); ESend 1 ("reset", (-1)%Z);
                  ERecv 0 (RObs (np.Array [np.Scalar 0; np.Scalar 10]))%Z;
                  ERecv 1 (RObs (np.Array [np.Scalar 0; np.Scalar 10]))%Z]).
Proof.
  cbn zeta.
  assert (Hidle : at_rest (counter_env (Act := Z) 0) [0; 5]%Z (demo_system [0; 5]%Z))
    by reflexivity.
  assert (Hrem : remotes demo_executor = seq 0 2) by reflexivity.
  assert (Hps : ps demo_executor = seq 0 2) by reflexivity.
  destruct (SubprocVecEnv_fan_out_before_fan_in (counter_env (Act := Z) 0) (fun _ => true)
              (-1)%Z demo_executor [0; 5]%Z (demo_system [0; 5]%Z) [0; 0]%Z
              Hidle Hrem Hps eq_refl)
    as ((Hstep & _ & Hclose & _) & _ & _ & Hreset_run & Hclose_run & _).
  split; [exact Hidle|]. split; [exact Hrem|]. split; [exact Hps|].
  split; [exact Hstep|]. split; [exact Hclose|]. split.
  - exact (proj2 (Hclose_run _ _ (rtc_refl _ _))).
  - exact (proj2 (Hreset_run _ _ (rtc_refl _ _))).
Defined.
